(** * Calendar group manager: the content script, embedded and verified

    The content script (content.js) has two parts.  [CalendarDOM] finds the
    calendar items of the host page and reads their name, id and checkbox;
    [CalendarGroupManager] answers the popup's messages: it hides every
    calendar, shows the ones of a group and restores the visibility it saved
    before the first activation.

    The host page is not under the script's control.  It is modelled as an
    interface ([Host]): the queries the script makes, and the page's reaction
    to every interaction the script performs on a checkbox.  The manager is
    written once over that interface, the way the script is written over the
    DOM API. *)

From Stdlib Require Import Ascii.
From stdpp Require Import gmap strings list fin_maps pretty.

(** ** Interactions with a checkbox element *)

(** The two event classes the script constructs. *)
Inductive DomEvent :=
  | MouseEvent (type : string)
  | KeyboardEvent (type key code : string).

(** What the script does to a checkbox: [checkbox.click()],
    [checkbox.dispatchEvent(e)], [checkbox.setAttribute(n, v)] and
    [checkbox.checked = b]. *)
Inductive Interaction (Elt : Type) :=
  | IClick (checkbox : Elt)
  | IDispatch (checkbox : Elt) (event : DomEvent)
  | ISetAttribute (checkbox : Elt) (name value : string)
  | ISetChecked (checkbox : Elt) (value : bool).
Arguments IClick {Elt} _.
Arguments IDispatch {Elt} _ _.
Arguments ISetAttribute {Elt} _ _ _.
Arguments ISetChecked {Elt} _ _.

(** ** The host page as an interface

    [Dom] is the state of the document, [Elt] the identity of an element.
    The first four fields are the [CalendarDOM] queries the manager calls
    (with [forceExpand = false]); the next three are the element reads of the
    DOM API; [clickThrows] tells whether [checkbox.click()] raises (an element
    without a [click] method); [react] is the state of the document after the
    page has handled one interaction. *)
Class Host (Dom Elt : Type) := {
  getCalendarElements : Dom → list Elt;
  getCalendarId : Dom → Elt → string;
  getCalendarName : Dom → Elt → string;
  getCheckboxElement : Dom → Elt → option Elt;
  getAttribute : Dom → Elt → string → option string;
  checkedProp : Dom → Elt → option bool;
  typeProp : Dom → Elt → option string;
  clickThrows : Dom → Elt → bool;
  react : Interaction Elt → Dom → Dom
}.

(** [visible.toString()] *)
Definition boolToString (b : bool) : string := if b then "true" else "false".

Section Controller.
Context {Dom Elt : Type} `{Host Dom Elt}.

(** [element.hasAttribute(name)] *)
Definition hasAttribute (d : Dom) (e : Elt) (name : string) : bool :=
  bool_decide (is_Some (getAttribute d e name)).

(** The expression
    [ariaChecked === 'true' || checked === true || ariaPressed === 'true']
    that both [isCalendarChecked] and the delayed verification of
    [toggleCalendarVisibility] evaluate on a checkbox. *)
Definition checkboxState (d : Dom) (checkbox : Elt) : bool :=
  bool_decide (getAttribute d checkbox "aria-checked" = Some "true")
  || bool_decide (checkedProp d checkbox = Some true)
  || bool_decide (getAttribute d checkbox "aria-pressed" = Some "true").

(** [CalendarDOM.isCalendarChecked] *)
Definition isCalendarChecked (d : Dom) (calendarElement : Elt) : bool :=
  match getCheckboxElement d calendarElement with
  | None => false
  | Some checkbox => checkboxState d checkbox
  end.

(** *** The world the manager acts on

    [timers] holds the callbacks registered with [setTimeout(..., 200)] and
    not yet run, oldest first: the checkbox and the wanted state of each
    pending verification.  [log] records every interaction performed, in
    order. *)
Record World := {
  dom : Dom;
  timers : list (Elt * bool);
  log : list (Interaction Elt)
}.

(** Perform one interaction: the page reacts, the log grows. *)
Definition interact (i : Interaction Elt) (w : World) : World :=
  {| dom := react i (dom w); timers := timers w; log := log w ++ [i] |}.

Definition setTimeout (callback : Elt * bool) (w : World) : World :=
  {| dom := dom w; timers := timers w ++ [callback]; log := log w |}.

(** [forceCalendarState], Method 2: the three mouse events. *)
Definition dispatchMouseEvents (checkbox : Elt) (w : World) : World :=
  foldl (λ w eventType, interact (IDispatch checkbox (MouseEvent eventType)) w)
        w ["mousedown"; "mouseup"; "click"].

(** Method 3: the space bar. *)
Definition dispatchKeyEvent (checkbox : Elt) (w : World) : World :=
  interact (IDispatch checkbox (KeyboardEvent "keydown" " " "Space")) w.

(** Method 4: the attributes and the property, each behind its guard. *)
Definition setStateDirectly (checkbox : Elt) (visible : bool) (w : World) : World :=
  let w1 := if hasAttribute (dom w) checkbox "aria-checked"
            then interact (ISetAttribute checkbox "aria-checked" (boolToString visible)) w
            else w in
  let w2 := if hasAttribute (dom w1) checkbox "aria-pressed"
            then interact (ISetAttribute checkbox "aria-pressed" (boolToString visible)) w1
            else w1 in
  if bool_decide (typeProp (dom w2) checkbox = Some "checkbox")
  then interact (ISetChecked checkbox visible) w2
  else w2.

(** [CalendarGroupManager.forceCalendarState].  Nothing in the body of its
    [try] raises, so the [catch] is not reached. *)
Definition forceCalendarState (checkbox : Elt) (visible : bool) (w : World) : World :=
  setStateDirectly checkbox visible
    (dispatchKeyEvent checkbox (dispatchMouseEvents checkbox w)).

(** The callback given to [setTimeout] by [toggleCalendarVisibility]. *)
Definition verifyToggle (callback : Elt * bool) (w : World) : World :=
  let '(checkbox, visible) := callback in
  let currentState := checkboxState (dom w) checkbox in
  if bool_decide (currentState ≠ visible)
  then forceCalendarState checkbox visible w
  else w.

(** [CalendarGroupManager.toggleCalendarVisibility]: the click, and the
    verification left for later; when the click raises, the [catch] forces
    the state at once. *)
Definition toggleCalendarVisibility (checkbox : Elt) (visible : bool) (w : World) : World :=
  if clickThrows (dom w) checkbox
  then forceCalendarState checkbox visible w
  else setTimeout (checkbox, visible) (interact (IClick checkbox) w).

(** The event loop runs the pending callbacks, oldest first.  A callback
    registers no further callback. *)
Definition runTimers (w : World) : World :=
  foldl (λ w callback, verifyToggle callback w)
        {| dom := dom w; timers := []; log := log w |} (timers w).

End Controller.

(** ** The manager *)

(** A stored group: [{ name, calendars }]. *)
Record Group := {
  groupName : string;
  calendars : list string
}.

(** The property names a plain object inherits from [Object.prototype].  The
    [groups] object read from storage is a plain object. *)
Definition objectPrototypeKeys : list string :=
  ["constructor"; "__proto__"; "hasOwnProperty"; "isPrototypeOf";
   "propertyIsEnumerable"; "toLocaleString"; "toString"; "valueOf";
   "__defineGetter__"; "__defineSetter__"; "__lookupGetter__"; "__lookupSetter__"].

(** The value of [groups[groupId]]: a group of the object's own, a value
    found on the prototype (a function, or the prototype itself), or
    [undefined]. *)
Inductive Property :=
  | OwnGroup (group : Group)
  | Inherited
  | Undefined.

Definition getProperty (groups : gmap string Group) (key : string) : Property :=
  match groups !! key with
  | Some group => OwnGroup group
  | None => if bool_decide (key ∈ objectPrototypeKeys) then Inherited else Undefined
  end.

(** [group.calendars]; a value of the prototype has no such property. *)
Definition calendarsOf (group : Property) : option (list string) :=
  match group with
  | OwnGroup group => Some (calendars group)
  | _ => None
  end.

(** The fields of a [CalendarGroupManager]; [originalCalendarStates] is a
    JS [Map] from calendar id to visibility. *)
Record Manager := {
  currentActiveGroup : option string;
  originalCalendarStates : gmap string bool;
  isInitialized : bool
}.

(** The state the constructor leaves. *)
Definition newManager : Manager :=
  {| currentActiveGroup := None; originalCalendarStates := ∅; isInitialized := false |}.

(** One entry of the [calendars] array sent to the popup. *)
Record CalendarInfo := {
  calendar_id : string;
  calendar_name : string;
  calendar_visible : bool
}.

(** The argument given to [sendResponse]. *)
Inductive Response :=
  | ToggleSuccess (activeGroup : option string)
  | Success
  | Calendars (calendars : list CalendarInfo)
  | Error (message : string).

(** How a method that may [throw] completes. *)
Inductive Completion :=
  | Returned
  | Thrown (message : string).

Section GroupManager.
Context {Dom Elt : Type} `{Host Dom Elt}.

Local Abbreviation World := (@World Dom Elt).

(** [saveCurrentCalendarStates]: one [Map.set] per element, in scan order. *)
Definition saveCurrentCalendarStates (w : World) (states : gmap string bool)
  : gmap string bool :=
  let calendarElements := getCalendarElements (dom w) in
  foldl (λ states element,
           let id := getCalendarId (dom w) element in
           let isVisible := isCalendarChecked (dom w) element in
           <[id := isVisible]> states)
        states calendarElements.

(** The body of the [forEach] of [hideAllCalendars]. *)
Definition hideCalendar (w : World) (element : Elt) : World :=
  let checkbox := getCheckboxElement (dom w) element in
  let isChecked := isCalendarChecked (dom w) element in
  match checkbox with
  | Some checkbox => if isChecked then toggleCalendarVisibility checkbox false w else w
  | None => w
  end.

(** [hideAllCalendars] *)
Definition hideAllCalendars (w : World) : World :=
  let calendarElements := getCalendarElements (dom w) in
  foldl hideCalendar w calendarElements.

(** The body of the [forEach] of [showCalendarsInGroup]. *)
Definition showCalendar (calendarIds : list string) (w : World) (element : Elt) : World :=
  let id := getCalendarId (dom w) element in
  if bool_decide (id ∈ calendarIds) then
    let checkbox := getCheckboxElement (dom w) element in
    let isChecked := isCalendarChecked (dom w) element in
    match checkbox with
    | Some checkbox => if negb isChecked then toggleCalendarVisibility checkbox true w else w
    | None => w
    end
  else w.

(** [showCalendarsInGroup] *)
Definition showCalendarsInGroup (calendarIds : list string) (w : World) : World :=
  let calendarElements := getCalendarElements (dom w) in
  foldl (showCalendar calendarIds) w calendarElements.

(** The body of the [forEach] of [showAllCalendars]: [Map.get] gives
    [undefined] for an id that was not saved. *)
Definition restoreCalendar (states : gmap string bool) (w : World) (element : Elt) : World :=
  let id := getCalendarId (dom w) element in
  let shouldBeVisible := states !! id in
  let isCurrentlyVisible := isCalendarChecked (dom w) element in
  let checkbox := getCheckboxElement (dom w) element in
  match checkbox, shouldBeVisible with
  | Some checkbox, Some shouldBeVisible =>
      if bool_decide (shouldBeVisible ≠ isCurrentlyVisible)
      then toggleCalendarVisibility checkbox shouldBeVisible w
      else w
  | _, _ => w
  end.

(** What [showCalendarsInGroup] does with [group.calendars]: on [undefined]
    the first turn of the loop raises a [TypeError] at [calendarIds.includes]
    (the message is V8's), and a page without calendars has no turn. *)
Definition showCalendarsOf (calendarIds : option (list string)) (w : World)
  : Completion * World :=
  match calendarIds with
  | Some calendarIds => (Returned, showCalendarsInGroup calendarIds w)
  | None =>
      match getCalendarElements (dom w) with
      | [] => (Returned, w)
      | _ :: _ => (Thrown "Cannot read properties of undefined (reading 'includes')", w)
      end
  end.

(** [showAllCalendars]: restore, then clear the saved states and the active
    group. *)
Definition showAllCalendars (st : Manager * World) : Manager * World :=
  let '(m, w) := st in
  let calendarElements := getCalendarElements (dom w) in
  let w' := foldl (restoreCalendar (originalCalendarStates m)) w calendarElements in
  ({| currentActiveGroup := None;
      originalCalendarStates := ∅;
      isInitialized := isInitialized m |}, w').

(** [toggleGroup].  [stored] is the value of the [groups] key read from
    [chrome.storage.sync]; a missing key is replaced by the empty object.
    The saved states are kept in the manager's [Map], so what was saved
    stays saved when [showCalendarsInGroup] raises. *)
Definition toggleGroup (stored : option (gmap string Group)) (groupId : string)
    (st : Manager * World) : Completion * (Manager * World) :=
  let groups := default ∅ stored in
  match getProperty groups groupId with
  | Undefined => (Thrown "Group not found", st)
  | group =>
      let '(m, w) := st in
      if bool_decide (currentActiveGroup m = Some groupId)
      then (Returned, showAllCalendars st)
      else
        let states :=
          if bool_decide (size (originalCalendarStates m) = 0)
          then saveCurrentCalendarStates w (originalCalendarStates m)
          else originalCalendarStates m in
        let w1 := hideAllCalendars w in
        match showCalendarsOf (calendarsOf group) w1 with
        | (Returned, w2) =>
            (Returned,
             ({| currentActiveGroup := Some groupId;
                 originalCalendarStates := states;
                 isInitialized := isInitialized m |}, w2))
        | (Thrown message, w2) =>
            (Thrown message,
             ({| currentActiveGroup := currentActiveGroup m;
                 originalCalendarStates := states;
                 isInitialized := isInitialized m |}, w2))
        end
  end.

(** [handleToggleGroup] *)
Definition handleToggleGroup (stored : option (gmap string Group)) (groupId : string)
    (st : Manager * World) : Response * (Manager * World) :=
  match toggleGroup stored groupId st with
  | (Returned, st') => (ToggleSuccess (currentActiveGroup (fst st')), st')
  | (Thrown message, st') => (Error message, st')
  end.

(** [handleShowAllCalendars] *)
Definition handleShowAllCalendars (st : Manager * World) : Response * (Manager * World) :=
  (Success, showAllCalendars st).

(** [getAvailableCalendars] with [forceExpand = false] *)
Definition getAvailableCalendars (w : World) : list CalendarInfo :=
  let calendarElements := getCalendarElements (dom w) in
  (λ element,
     {| calendar_id := getCalendarId (dom w) element;
        calendar_name := getCalendarName (dom w) element;
        calendar_visible := isCalendarChecked (dom w) element |}) <$> calendarElements.

(** [handleGetCalendars].  [waitForCalendarDOM] polls the page without
    touching it; when it resolves the manager is marked initialized. *)
Definition handleGetCalendars (st : Manager * World) : Response * (Manager * World) :=
  let '(m, w) := st in
  let m' := if isInitialized m then m
            else {| currentActiveGroup := currentActiveGroup m;
                    originalCalendarStates := originalCalendarStates m;
                    isInitialized := true |} in
  (Calendars (getAvailableCalendars w), (m', w)).

End GroupManager.

(** ** Pages on which a toggle converges *)

Section Laws.
Context {Dom Elt : Type} `{Host Dom Elt}.

(** The scan of [d'] finds the elements of [d], with the same ids and the
    same checkboxes: the host tree is unchanged. *)
Definition sameScan (d d' : Dom) : Prop :=
  getCalendarElements d' = getCalendarElements d
  ∧ ∀ e, e ∈ getCalendarElements d →
      getCalendarId d' e = getCalendarId d e
      ∧ getCheckboxElement d' e = getCheckboxElement d e.

(** Every toggle converges: a click on the checkbox of a calendar returns,
    flips the visibility of that calendar, changes the visibility of no
    other calendar and leaves the tree as it is. *)
Record Converges : Prop := {
  click_returns : ∀ d c, clickThrows d c = false;
  click_same_scan : ∀ d c, sameScan d (react (IClick c) d);
  click_toggles : ∀ d e c,
    e ∈ getCalendarElements d → getCheckboxElement d e = Some c →
    isCalendarChecked (react (IClick c) d) e = negb (isCalendarChecked d e);
  click_frame : ∀ d e e' c,
    e ∈ getCalendarElements d → e' ∈ getCalendarElements d →
    getCheckboxElement d e = Some c → e' ≠ e →
    isCalendarChecked (react (IClick c) d) e' = isCalendarChecked d e'
}.

(** The fallback converges too: [forceCalendarState] leaves the calendar of
    the checkbox in the wanted state, changes the visibility of no other
    calendar and leaves the tree as it is. *)
Record ForceConverges : Prop := {
  force_same_scan : ∀ w c v, sameScan (dom w) (dom (forceCalendarState c v w));
  force_sets : ∀ w e c v,
    e ∈ getCalendarElements (dom w) → getCheckboxElement (dom w) e = Some c →
    isCalendarChecked (dom (forceCalendarState c v w)) e = v;
  force_frame : ∀ w e e' c v,
    e ∈ getCalendarElements (dom w) → e' ∈ getCalendarElements (dom w) →
    getCheckboxElement (dom w) e = Some c → e' ≠ e →
    isCalendarChecked (dom (forceCalendarState c v w)) e' = isCalendarChecked (dom w) e'
}.

(** The state the last pending verification of a checkbox expects. *)
Definition expected `{EqDecision Elt} (pending : list (Elt * bool)) (c : Elt) : option bool :=
  snd <$> last (filter (λ t, t.1 = c) pending).

(** The pending verifications are in step with the page: each is about the
    checkbox of a calendar of the page, and the last one of a checkbox
    expects the state the calendar shows. *)
Definition InStep `{EqDecision Elt} (w : World) : Prop :=
  (∀ t, t ∈ timers w →
     ∃ e, e ∈ getCalendarElements (dom w) ∧ getCheckboxElement (dom w) e = Some t.1)
  ∧ ∀ e c v,
      e ∈ getCalendarElements (dom w) → getCheckboxElement (dom w) e = Some c →
      expected (timers w) c = Some v → isCalendarChecked (dom w) e = v.

(** Between two requests the pending verifications have run, or not yet. *)
Definition settle (run : bool) (w : World) : World :=
  if run then runTimers w else w.

(** Every element the scan accepts has a checkbox ([isCalendarItem] demands
    one). *)
Definition ScanHasCheckbox : Prop :=
  ∀ d e, e ∈ getCalendarElements d → is_Some (getCheckboxElement d e).

(** The three loops of the manager are instances of one: bring the calendars
    of a list to the visibility [want] gives for their id, leaving alone the
    ids for which it gives none. *)
Definition applyWanted (want : string → option bool) (w : World) (element : Elt) : World :=
  match getCheckboxElement (dom w) element, want (getCalendarId (dom w) element) with
  | Some checkbox, Some v =>
      if bool_decide (v ≠ isCalendarChecked (dom w) element)
      then toggleCalendarVisibility checkbox v w
      else w
  | _, _ => w
  end.

(** The visibility [applyWanted] aims at for [e] on the page [d]. *)
Definition aim (want : string → option bool) (d : Dom) (e : Elt) : bool :=
  match getCheckboxElement d e, want (getCalendarId d e) with
  | Some _, Some v => v
  | _, _ => isCalendarChecked d e
  end.

End Laws.

(** ** Two readings the code is compared with

    The design notes describe the visibility read as a priority order, and
    the fallback of a toggle as a ladder that stops at the first step that
    reaches the target.  The two definitions below write those descriptions
    down; the script's own functions are [isCalendarChecked] and
    [forceCalendarState]. *)

(** The data model has the snapshot exist only while a group is active. *)
Definition Ephemeral (m : Manager) : Prop :=
  currentActiveGroup m = None → originalCalendarStates m = ∅.

Section Readings.
Context {Dom Elt : Type} `{Host Dom Elt}.

(** The checked property first, then the [aria-checked] attribute, then the
    [aria-pressed] attribute: the first signal present decides. *)
Definition firstPresentSignal (d : Dom) (calendarElement : Elt) : bool :=
  match getCheckboxElement d calendarElement with
  | None => false
  | Some checkbox =>
      match checkedProp d checkbox with
      | Some b => b
      | None =>
          match getAttribute d checkbox "aria-checked" with
          | Some v => bool_decide (v = "true")
          | None =>
              match getAttribute d checkbox "aria-pressed" with
              | Some v => bool_decide (v = "true")
              | None => false
              end
          end
      end
  end.

(** Pointer events, then the key event, then the direct mutation, with a
    verification after each step and a stop at the first success. *)
Definition stoppingLadder (checkbox : Elt) (visible : bool) (w : World) : World :=
  let w1 := dispatchMouseEvents checkbox w in
  if bool_decide (checkboxState (dom w1) checkbox = visible) then w1
  else
    let w2 := dispatchKeyEvent checkbox w1 in
    if bool_decide (checkboxState (dom w2) checkbox = visible) then w2
    else setStateDirectly checkbox visible w2.

(** The events [forceCalendarState] dispatches on a checkbox, in order. *)
Definition forcedEvents (checkbox : Elt) : list (Interaction Elt) :=
  [IDispatch checkbox (MouseEvent "mousedown");
   IDispatch checkbox (MouseEvent "mouseup");
   IDispatch checkbox (MouseEvent "click");
   IDispatch checkbox (KeyboardEvent "keydown" " " "Space")].

(** The direct mutations it may make afterwards, in order. *)
Definition directMutations (checkbox : Elt) (visible : bool) : list (Interaction Elt) :=
  [ISetAttribute checkbox "aria-checked" (boolToString visible);
   ISetAttribute checkbox "aria-pressed" (boolToString visible);
   ISetChecked checkbox visible].

End Readings.

(** ** A concrete page: the rows of a sidebar

    The simplest page the script can meet: a flat list of calendar rows, each
    row its own checkbox element.  A row carries the id and the name
    [CalendarDOM] derives for it and the state signals of its checkbox: the
    two attributes, and the [checked] property when the checkbox is an
    [<input type="checkbox">] ([input] is then its checkedness; any other
    element has neither the property nor the type).  The page toggles a row
    when its checkbox receives an event of one of the types it listens to;
    [checkbox.click()] arrives as a [click] event. *)
Module Sidebar.

Record Row := {
  row_id : string;
  row_name : string;
  aria_checked : option string;
  aria_pressed : option string;
  input : option bool
}.

(** The state the page shows for a row. *)
Definition rowState (r : Row) : bool :=
  bool_decide (aria_checked r = Some "true")
  || bool_decide (input r = Some true)
  || bool_decide (aria_pressed r = Some "true").

(** The page's handler: every signal the row has follows the new state. *)
Definition flip (r : Row) : Row :=
  let s := negb (rowState r) in
  {| row_id := row_id r;
     row_name := row_name r;
     aria_checked := Some (boolToString s);
     aria_pressed := (λ _, boolToString s) <$> aria_pressed r;
     input := (λ _, s) <$> input r |}.

Definition setAttribute (name value : string) (r : Row) : Row :=
  {| row_id := row_id r;
     row_name := row_name r;
     aria_checked := if String.eqb name "aria-checked" then Some value else aria_checked r;
     aria_pressed := if String.eqb name "aria-pressed" then Some value else aria_pressed r;
     input := input r |}.

(** [checkbox.checked = value] on an input; on another element the
    assignment creates a property the page does not look at, but the script
    makes it only when [checkbox.type] is [checkbox]. *)
Definition setChecked (value : bool) (r : Row) : Row :=
  {| row_id := row_id r;
     row_name := row_name r;
     aria_checked := aria_checked r;
     aria_pressed := aria_pressed r;
     input := (λ _, value) <$> input r |}.

Definition rowAttribute (r : Row) (name : string) : option string :=
  if String.eqb name "aria-checked" then aria_checked r
  else if String.eqb name "aria-pressed" then aria_pressed r
  else None.

(** The event type an interaction arrives as, if it is an event. *)
Definition eventType (i : Interaction nat) : option string :=
  match i with
  | IClick _ => Some "click"
  | IDispatch _ (MouseEvent t) => Some t
  | IDispatch _ (KeyboardEvent t _ _) => Some t
  | _ => None
  end.

Definition target (i : Interaction nat) : nat :=
  match i with
  | IClick c | IDispatch c _ | ISetAttribute c _ _ | ISetChecked c _ => c
  end.

(** The page after one interaction; [listens] are the event types its rows
    toggle on. *)
Definition pageReact (listens : list string) (i : Interaction nat) (d : list Row) : list Row :=
  match i with
  | ISetAttribute c n v => alter (setAttribute n v) c d
  | ISetChecked c v => alter (setChecked v) c d
  | _ => match eventType i with
         | Some t => if bool_decide (t ∈ listens) then alter flip (target i) d else d
         | None => d
         end
  end.

(** The page as a host: row [i] is a calendar element and its own checkbox. *)
Definition host (listens : list string) : Host (list Row) nat :=
  {| getCalendarElements d := seq 0 (length d);
     getCalendarId d i := from_option row_id "" (d !! i);
     getCalendarName d i := from_option row_name "" (d !! i);
     getCheckboxElement d i := (λ _, i) <$> d !! i;
     getAttribute d i n := d !! i ≫= λ r, rowAttribute r n;
     checkedProp d i := d !! i ≫= input;
     typeProp d i := d !! i ≫= λ r, (λ _, "checkbox") <$> input r;
     clickThrows d i := false;
     react := pageReact listens |}.

(** What [forceCalendarState] makes of a row on a page that toggles on
    [click]: the row is toggled once, by the [click] event, and then every
    signal it has is set to the wanted state. *)
Definition forced (visible : bool) (r : Row) : Row :=
  {| row_id := row_id r;
     row_name := row_name r;
     aria_checked := Some (boolToString visible);
     aria_pressed := (λ _, boolToString visible) <$> aria_pressed r;
     input := (λ _, visible) <$> input r |}.

(** A row rendered as [<li role="checkbox" aria-checked=...>]. *)
Definition row (id name : string) (isVisible : bool) : Row :=
  {| row_id := id; row_name := name;
     aria_checked := Some (boolToString isVisible);
     aria_pressed := None; input := None |}.

(** A page at rest: nothing pending, nothing logged. *)
Definition page (d : list Row) : @World (list Row) nat :=
  {| dom := d; timers := []; log := [] |}.

(** A page that toggles on [click] events only. *)
Definition clickHost : Host (list Row) nat := host ["click"].

(** *** Sample pages and groups *)

(** Three calendars, the first and the last visible. *)
Definition threeRows : list Row :=
  [row "A" "Alpha" true; row "B" "Beta" false; row "C" "Gamma" true].

(** Two calendars called Work, first children of two lists:
    [getCalendarId] generates the same id for both. *)
Definition twoWork : list Row :=
  [row "cal_work_work_0" "Work" true; row "cal_work_work_0" "Work" false].

Definition groups : gmap string Group :=
  {[ "g1" := {| groupName := "Morning"; calendars := ["A"; "B"] |};
     "g2" := {| groupName := "Evening"; calendars := ["C"] |};
     "g3" := {| groupName := "Nothing"; calendars := [] |};
     "g4" := {| groupName := "Ghost"; calendars := ["A"; "ghost-id"] |};
     "g5" := {| groupName := "Alone"; calendars := ["A"] |} ]}.

(** An input whose [checked] property is [false] under an [aria-checked]
    attribute that says [true]. *)
Definition mixedRow : Row :=
  {| row_id := "M"; row_name := "Mixed";
     aria_checked := Some "true"; aria_pressed := None; input := Some false |}.

(** A page that toggles a row on [mouseup] and on [keydown], not on
    [click]. *)
Definition pressHost : Host (list Row) nat := host ["mouseup"; "keydown"].

(** The visibility of every row, as [getCalendars] reports it. *)
Definition visibilities (listens : list string) (w : @World (list Row) nat) : list bool :=
  calendar_visible <$> getAvailableCalendars (H := host listens) w.

End Sidebar.

(** ** Strings as the script uses them

    Text is held as a byte string.  On ASCII text the operations below are
    the ones of JavaScript: they agree on length, on trimming and on case.
    Whitespace and letters outside ASCII are left as they are. *)
Module Js.

(** The line feed, the separator of [split('\n')]. *)
Definition LF : ascii := "010"%char.

Fixpoint trimStart (s : string) : string :=
  match s with
  | String a s' => if Ascii.is_space a then trimStart s' else s
  | EmptyString => EmptyString
  end.

(** [s.trim()] *)
Definition trim (s : string) : string :=
  String.rev (trimStart (String.rev (trimStart s))).

(** [s.split(sep)] for a separator of one character; [cur] is the piece
    being read, reversed. *)
Fixpoint split_go (sep : ascii) (cur : string) (s : string) : list string :=
  match s with
  | EmptyString => [String.rev cur]
  | String a s' =>
      if bool_decide (a = sep) then String.rev cur :: split_go sep EmptyString s'
      else split_go sep (String a cur) s'
  end.

Definition split (sep : ascii) (s : string) : list string := split_go sep EmptyString s.

(** A string is truthy when it is not empty. *)
Definition truthy (s : string) : bool := negb (bool_decide (s = EmptyString)).

(** [s.includes(part)] *)
Definition includes (part s : string) : bool :=
  bool_decide (is_Some (String.index 0 part s)).

Definition isUpper (a : ascii) : bool :=
  (65 <=? nat_of_ascii a) && (nat_of_ascii a <=? 90).

Definition isLower (a : ascii) : bool :=
  (97 <=? nat_of_ascii a) && (nat_of_ascii a <=? 122).

Definition isDigit (a : ascii) : bool :=
  (48 <=? nat_of_ascii a) && (nat_of_ascii a <=? 57).

(** The class [[a-zA-Z0-9]]. *)
Definition isAlnum (a : ascii) : bool := isUpper a || isLower a || isDigit a.

(** The class [\w]. *)
Definition isWord (a : ascii) : bool := isAlnum a || bool_decide (a = "_"%char).

Definition lowerChar (a : ascii) : ascii :=
  if isUpper a then ascii_of_nat (nat_of_ascii a + 32) else a.

(** [s.toLowerCase()] *)
Fixpoint toLowerCase (s : string) : string :=
  match s with
  | EmptyString => EmptyString
  | String a s' => String (lowerChar a) (toLowerCase s')
  end.

(** [s.replace(/[^a-zA-Z0-9]/g, by)] *)
Fixpoint replaceNonAlnum (by_ : string) (s : string) : string :=
  match s with
  | EmptyString => EmptyString
  | String a s' =>
      (if isAlnum a then String a EmptyString else by_) +:+ replaceNonAlnum by_ s'
  end.

(** A word boundary [\b] between two neighbours; outside the string there
    is no word character. *)
Definition boundary (before after : option ascii) : bool :=
  xorb (from_option isWord false before) (from_option isWord false after).

(** [\bitem\b] matches at the start of [s], where [prev] is the character
    before [s]. *)
Definition boundedPrefix (prev : option ascii) (item s : string) : bool :=
  String.prefix item s
  && boundary prev (String.get 0 s)
  && boundary (String.get (String.length item - 1) s) (String.get (String.length item) s).

Fixpoint wordBounded_go (prev : option ascii) (item s : string) : bool :=
  boundedPrefix prev item s
  || match s with
     | String a s' => wordBounded_go (Some a) item s'
     | EmptyString => false
     end.

(** [new RegExp(`\b${item}\b`).test(s)] for an item without regular
    expression operators. *)
Definition wordBounded (item s : string) : bool := wordBounded_go None item s.

End Js.

(** ** The document

    A node is a text node or an element with its tag name (in lower case),
    its attributes, the value of its [checked] property (absent on elements
    that have none) and its child nodes.  An element of a document is named
    by its path from the root: the positions to follow through the child
    nodes. *)
Module Html.

Inductive Node :=
  | Text (data : string)
  | Element (tagName : string) (attributes : list (string * string))
            (checked : option bool) (childNodes : list Node).

Abbreviation Path := (list nat).

Definition isElement (n : Node) : bool :=
  match n with Element _ _ _ _ => true | Text _ => false end.

Definition childNodesOf (n : Node) : list Node :=
  match n with Element _ _ _ cs => cs | Text _ => [] end.

Definition tagNameOf (n : Node) : string :=
  match n with Element t _ _ _ => t | Text _ => "" end.

Definition checkedOf (n : Node) : option bool :=
  match n with Element _ _ c _ => c | Text _ => None end.

Fixpoint lookupAttribute (name : string) (attrs : list (string * string)) : option string :=
  match attrs with
  | [] => None
  | (n, v) :: attrs' => if bool_decide (n = name) then Some v else lookupAttribute name attrs'
  end.

(** [n.getAttribute(name)], [null] when the attribute is absent. *)
Definition attribute (n : Node) (name : string) : option string :=
  match n with
  | Element _ attrs _ _ => lookupAttribute name attrs
  | Text _ => None
  end.

(** The node a path leads to. *)
Fixpoint nodeAt (n : Node) (p : Path) : option Node :=
  match p with
  | [] => Some n
  | i :: p' => childNodesOf n !! i ≫= λ c, nodeAt c p'
  end.

(** [n.textContent]: the text of the text nodes below, in document order. *)
Fixpoint textContent (n : Node) : string :=
  match n with
  | Text data => data
  | Element _ _ _ cs =>
      (fix go (cs : list Node) : string :=
         match cs with
         | [] => ""
         | c :: cs' => textContent c +:+ go cs'
         end) cs
  end.

(** The elements among the child nodes [cs], the first at position [i], and
    the elements below them, in document order; [below] lists the elements
    below one child. *)
Definition childDescendants (below : Node → list (Path * Node))
  : nat → list Node → list (Path * Node) :=
  fix go (i : nat) (cs : list Node) : list (Path * Node) :=
    match cs with
    | [] => []
    | c :: cs' =>
        (if isElement c then [([i], c)] else [])
        ++ ((λ pn, (i :: pn.1, pn.2)) <$> below c)
        ++ go (S i) cs'
    end.

(** The elements below a node, in document order, each with its path from
    that node. *)
Fixpoint descendants (n : Node) : list (Path * Node) :=
  match n with
  | Text _ => []
  | Element _ _ _ cs => childDescendants descendants 0 cs
  end.

(** *** Selectors

    The selectors of the script are lists of alternatives (the commas), each
    a conjunction of simple tests on one element. *)
Inductive Simple :=
  | ByTag (tag : string)
  | ByAttr (name : string)
  | ByAttrEq (name value : string)
  | ByAttrSub (name part : string)
  | ByClass (token : string).

Definition Selector := list (list Simple).

Definition matchesSimple (n : Node) (t : Simple) : bool :=
  match t with
  | ByTag tag => isElement n && bool_decide (tagNameOf n = tag)
  | ByAttr name => bool_decide (is_Some (attribute n name))
  | ByAttrEq name value => bool_decide (attribute n name = Some value)
  | ByAttrSub name part =>
      match attribute n name with
      | Some v => Js.truthy part && Js.includes part v
      | None => false
      end
  | ByClass token =>
      match attribute n "class" with
      | Some v => bool_decide (token ∈ String.words v)
      | None => false
      end
  end.

(** [n.matches(selector)] *)
Definition matches (sel : Selector) (n : Node) : bool :=
  existsb (forallb (matchesSimple n)) sel.

(** [n.querySelectorAll(selector)], paths from [n]. *)
Definition querySelectorAll (n : Node) (sel : Selector) : list (Path * Node) :=
  filter (λ pn, matches sel pn.2) (descendants n).

(** [n.querySelector(selector)] *)
Definition querySelector (n : Node) (sel : Selector) : option (Path * Node) :=
  head (querySelectorAll n sel).

(** [Array.from(parent.children).indexOf(element)]: the number of element
    siblings before the element.  The parent of the root is the document,
    whose only child it is. *)
Definition elementIndex (document : Node) (element : Path) : nat :=
  match reverse element with
  | [] => 0
  | i :: parent =>
      match nodeAt document (reverse parent) with
      | Some p => length (filter (λ c, isElement c = true) (take i (childNodesOf p)))
      | None => 0
      end
  end.

(** The elements of the document, the root first. *)
Definition elementsOf (document : Node) : list (Path * Node) :=
  (if isElement document then [([], document)] else []) ++ descendants document.

(** [document.querySelectorAll(selector)] *)
Definition documentQuerySelectorAll (document : Node) (sel : Selector) : list Path :=
  fst <$> filter (λ pn, matches sel pn.2) (elementsOf document).

(** [document.querySelector(selector)] *)
Definition documentQuerySelector (document : Node) (sel : Selector) : option Path :=
  head (documentQuerySelectorAll document sel).

(** [element.querySelectorAll(selector)], as paths of the document. *)
Definition querySelectorAllAt (document : Node) (element : Path) (sel : Selector) : list Path :=
  match nodeAt document element with
  | Some n => (λ qn, element ++ qn.1) <$> querySelectorAll n sel
  | None => []
  end.

(** [element.querySelector(selector)], as a path of the document. *)
Definition querySelectorAt (document : Node) (element : Path) (sel : Selector) : option Path :=
  head (querySelectorAllAt document element sel).

(** [element.matches(selector)] *)
Definition matchesAt (document : Node) (element : Path) (sel : Selector) : bool :=
  match nodeAt document element with
  | Some n => matches sel n
  | None => false
  end.

(** [element.parentElement]: the root has none. *)
Definition parentElement (element : Path) : option Path :=
  match element with
  | [] => None
  | _ :: _ => Some (removelast element)
  end.

(** The element and its ancestors, the nearest first. *)
Fixpoint ancestorsOrSelf_go (n : nat) (element : Path) : list Path :=
  match n with
  | 0 => [element]
  | S n' =>
      element :: match parentElement element with
                 | Some parent => ancestorsOrSelf_go n' parent
                 | None => []
                 end
  end.

Definition ancestorsOrSelf (element : Path) : list Path :=
  ancestorsOrSelf_go (length element) element.

(** [element.closest(selector)] *)
Definition closest (document : Node) (element : Path) (sel : Selector) : option Path :=
  head (filter (λ p, matchesAt document p sel = true) (ancestorsOrSelf element)).

(** [document.documentElement] *)
Definition documentElement : Path := [].

(** [document.body]: the first [body] child of the root. *)
Definition body (document : Node) : option Path :=
  (λ ic, [ic.1]) <$> list_find (λ c, tagNameOf c = "body") (childNodesOf document).

(** The string value XPath gives [text()]: the data of the first text
    child. *)
Definition firstText (n : Node) : string :=
  match filter (λ c, isElement c = false) (childNodesOf n) with
  | Text data :: _ => data
  | _ => ""
  end.

(** The [div] elements selected by
    [//div[contains(text(), p) or contains(@aria-label, p)]], in document
    order. *)
Definition divsWithTextOrLabel (document : Node) (pattern : string) : list Path :=
  fst <$> filter (λ pn, bool_decide (tagNameOf pn.2 = "div")
                        && (Js.includes pattern (firstText pn.2)
                            || Js.includes pattern (default "" (attribute pn.2 "aria-label"))))
                 (elementsOf document).

End Html.

(** ** [CalendarDOM]: name, id and checkbox of a calendar element *)
Module CalendarDOM.
Import Html.

(** [x && x.trim()], then [x.trim()]: the trimmed text when it is not
    empty. *)
Definition nonBlank (x : option string) : option string :=
  x ≫= λ s, if Js.truthy (Js.trim s) then Some (Js.trim s) else None.

(** Method 1: the [title] of the first descendant that has one. *)
Definition nameFromTitle (el : Node) : option string :=
  querySelector el [[ByAttr "title"]] ≫= λ titleElement,
  nonBlank (attribute titleElement.2 "title").

(** Method 2: the [aria-label] of the first descendant that has one. *)
Definition nameFromDescendantLabel (el : Node) : option string :=
  querySelector el [[ByAttr "aria-label"]] ≫= λ ariaLabelElement,
  nonBlank (attribute ariaLabelElement.2 "aria-label").

(** Method 3: the element's own [aria-label]. *)
Definition nameFromOwnLabel (el : Node) : option string :=
  nonBlank (attribute el "aria-label").

(** Method 4: the text of the first [span] or [div] below whose trimmed text
    has between 1 and 99 characters. *)
Definition nameFromTextElement (el : Node) : option string :=
  head (filter (λ text, Js.truthy text && bool_decide (String.length text < 100))
               ((λ textEl, Js.trim (textContent textEl.2))
                  <$> querySelectorAll el [[ByTag "span"]; [ByTag "div"]])).

(** Method 5: the first non-empty line of the element's text, when shorter
    than 100 characters. *)
Definition nameFromFirstLine (el : Node) : option string :=
  let textContent := Js.trim (textContent el) in
  if Js.truthy textContent then
    let lines := filter (λ line, 0 < String.length line)
                        (Js.trim <$> Js.split Js.LF textContent) in
    match lines with
    | line :: _ => if bool_decide (String.length line < 100) then Some line else None
    | [] => None
    end
  else None.

(** Method 6: the position among the siblings. *)
Definition nameFromPosition (document : Node) (element : Path) : string :=
  "Calendar " +:+ pretty (elementIndex document element + 1).

(** [CalendarDOM.getCalendarName]: the first method that gives a name. *)
Definition getCalendarName (document : Node) (element : Path) : string :=
  match nodeAt document element with
  | None => nameFromPosition document element
  | Some el =>
      match nameFromTitle el with
      | Some name => name
      | None =>
      match nameFromDescendantLabel el with
      | Some name => name
      | None =>
      match nameFromOwnLabel el with
      | Some name => name
      | None =>
      match nameFromTextElement el with
      | Some name => name
      | None =>
      match nameFromFirstLine el with
      | Some name => name
      | None => nameFromPosition document element
      end end end end end
  end.

(** The selector [input[type="checkbox"], [role="checkbox"]] (the script
    also writes it with the two alternatives exchanged). *)
Definition checkboxSelector : Selector :=
  [[ByTag "input"; ByAttrEq "type" "checkbox"]; [ByAttrEq "role" "checkbox"]].

(** [CalendarDOM.getCheckboxElement] *)
Definition getCheckboxElement (document : Node) (calendarElement : Path) : option Path :=
  match querySelectorAt document calendarElement [[ByAttrEq "role" "checkbox"]] with
  | Some checkbox => Some checkbox
  | None =>
  match querySelectorAt document calendarElement [[ByTag "input"; ByAttrEq "type" "checkbox"]] with
  | Some checkbox => Some checkbox
  | None =>
  if matchesAt document calendarElement checkboxSelector then Some calendarElement
  else
    match parentElement calendarElement with
    | Some parent => querySelectorAt document parent checkboxSelector
    | None => None
    end
  end end.

Definition possibleAttributes : list string :=
  ["data-calendarid"; "data-eventid"; "data-calendar-id"; "data-id"; "id"; "data-testid"].

(** One turn of the loop of [getCalendarId]: the value of the attribute on
    the element, or else on the first descendant that carries it, when that
    value is not empty. *)
Definition idFromAttribute (el : Node) (attr : string) : option string :=
  match attribute el attr with
  | Some value =>
      if Js.truthy value then Some value
      else querySelector el [[ByAttr attr]] ≫= λ child,
           attribute child.2 attr ≫= λ v, if Js.truthy v then Some v else None
  | None =>
      querySelector el [[ByAttr attr]] ≫= λ child,
      attribute child.2 attr ≫= λ v, if Js.truthy v then Some v else None
  end.

(** The generated id: [cal_${baseId}_${textHash}_${index}]. *)
Definition generatedId (document : Node) (element : Path) : string :=
  let name := getCalendarName document element in
  let textContent := Js.trim (default "" (textContent <$> nodeAt document element)) in
  let index := elementIndex document element in
  let baseId := Js.toLowerCase (Js.replaceNonAlnum "_" name) in
  let textHash :=
    if bool_decide (0 < String.length textContent)
    then String.substring 0 10 (Js.toLowerCase (Js.replaceNonAlnum "" textContent))
    else "" in
  "cal_" +:+ baseId +:+ "_" +:+ textHash +:+ "_" +:+ pretty index.

(** [CalendarDOM.getCalendarId] *)
Definition getCalendarId (document : Node) (element : Path) : string :=
  match nodeAt document element ≫= λ el, head (omap (idFromAttribute el) possibleAttributes) with
  | Some value => value
  | None => generatedId document element
  end.

(** [array.filter(Boolean)] on an array of elements and [null]s. *)
Definition filterBoolean (candidates : list (option Path)) : list Path :=
  omap (λ c : option Path, c) candidates.

(** [x?.parentElement] *)
Definition parentOf (x : option Path) : option Path :=
  match x with
  | Some element => parentElement element
  | None => None
  end.

(** [CalendarDOM.findCalendarContainer]: the first candidate that is neither
    the body nor the root and whose trimmed text has 1 to 199 characters,
    else the parent of the checkbox. *)
Definition findCalendarContainer (document : Node) (checkbox : Path) : option Path :=
  let containers := filterBoolean
    [closest document checkbox [[ByTag "li"]];
     closest document checkbox [[ByTag "div"; ByAttrEq "role" "listitem"]];
     closest document checkbox [[ByTag "label"]];
     closest document checkbox [[ByAttr "data-calendarid"]];
     closest document checkbox [[ByAttr "data-eventid"]];
     closest document checkbox [[ByAttr "jsname"]];
     closest document checkbox [[ByTag "div"; ByAttrSub "class" "calendar"]];
     closest document checkbox [[ByTag "div"; ByAttrSub "class" "Calendar"]];
     parentElement checkbox;
     parentOf (parentElement checkbox);
     parentOf (parentOf (parentElement checkbox))] in
  let suitable container :=
    bool_decide (Some container ≠ body document)
    && bool_decide (container ≠ documentElement)
    && match nodeAt document container with
       | Some n =>
           let text := Js.trim (textContent n) in
           bool_decide (0 < String.length text) && bool_decide (String.length text < 200)
       | None => false
       end in
  match filter (λ c, suitable c = true) containers with
  | container :: _ => Some container
  | [] => parentElement checkbox
  end.

Definition systemItems : list string :=
  ["tasks"; "reminders"; "タスク"; "リマインダー";
   "birthdays"; "誕生日"; "holidays"; "祝日";
   "フォローアップ"; "follow-up"].

Definition calendarIndicators : list string :=
  ["@gmail.com"; "@googlemail.com"; "@group.calendar.google.com";
   "@outlook.com"; "@hotmail.com"; "@yahoo.com";
   "calendar"; "カレンダー"; "schedule"; "スケジュール";
   "event"; "イベント"; "meeting"; "ミーティング";
   "work"; "仕事"; "personal"; "個人"; "family"; "家族";
   "holiday"; "祝日"; "vacation"; "休暇";
   "project"; "プロジェクト"; "team"; "チーム"].

Definition calendarSectionSelector : Selector :=
  [[ByAttrSub "aria-label" "calendar"]; [ByAttrSub "aria-label" "カレンダー"];
   [ByAttrSub "data-drawer" "calendar"]].

Definition calendarAttributeSelector : Selector :=
  [[ByAttr "data-calendarid"]; [ByAttr "data-eventid"]].

(** [CalendarDOM.isCalendarItem] *)
Definition isCalendarItem (document : Node) (element : Path) : bool :=
  match nodeAt document element with
  | None => false
  | Some el =>
      let hasCheckbox :=
        matches checkboxSelector el
        || bool_decide (is_Some (querySelector el checkboxSelector)) in
      if negb hasCheckbox then false else
      let textContent := textContent el in
      let ariaLabel := default "" (attribute el "aria-label") in
      let title := default "" (attribute el "title") in
      let allText :=
        Js.toLowerCase (textContent +:+ " " +:+ ariaLabel +:+ " " +:+ title) in
      if negb (Js.truthy (Js.trim textContent)) && negb (Js.truthy ariaLabel)
         && negb (Js.truthy title)
      then false else
      let isSystemItem :=
        existsb (λ item,
          let text := Js.trim (Js.toLowerCase textContent) in
          let label := Js.trim (Js.toLowerCase ariaLabel) in
          let titleText := Js.trim (Js.toLowerCase title) in
          bool_decide (text = item)
          || bool_decide (label = item)
          || bool_decide (titleText = item)
          || Js.wordBounded item text
          || Js.wordBounded item label
          || Js.wordBounded item titleText) systemItems in
      if isSystemItem then false else
      let hasCalendarIndicator :=
        existsb (λ indicator, Js.includes (Js.toLowerCase indicator) allText)
                calendarIndicators in
      let isInCalendarSection :=
        bool_decide (is_Some (closest document element calendarSectionSelector)) in
      let hasCalendarAttributes :=
        bool_decide (is_Some (attribute el "data-calendarid"))
        || bool_decide (is_Some (attribute el "data-eventid"))
        || bool_decide (is_Some (closest document element calendarAttributeSelector))
        || bool_decide (is_Some (querySelector el calendarAttributeSelector)) in
      hasCalendarIndicator
      || isInCalendarSection
      || hasCalendarAttributes
      || (bool_decide (0 < String.length (Js.trim textContent))
          && bool_decide (String.length (Js.trim textContent) < 150)
          && negb (Js.includes (String Js.LF (String Js.LF "")) textContent))
  end.

(** [elements.add(container)] on the [Set] of elements, kept in insertion
    order. *)
Definition setAdd (container : Path) (elements : list Path) : list Path :=
  if bool_decide (container ∈ elements) then elements else elements ++ [container].

(** What every strategy does with a checkbox it meets: the container of the
    checkbox joins the set when it is a calendar item. *)
Definition addCalendarOf (document : Node) (elements : list Path) (checkbox : Path)
  : list Path :=
  match findCalendarContainer document checkbox with
  | Some container =>
      if isCalendarItem document container then setAdd container elements else elements
  | None => elements
  end.

Definition sectionSelectors : list Selector :=
  [[[ByAttrEq "data-drawer" "my-calendars"]];
   [[ByAttrSub "aria-label" "マイカレンダー"]];
   [[ByAttrSub "aria-label" "My calendars"]];
   [[ByAttrEq "data-drawer" "other-calendars"]];
   [[ByAttrSub "aria-label" "他のカレンダー"]];
   [[ByAttrSub "aria-label" "Other calendars"]];
   [[ByAttrEq "role" "group"; ByAttrSub "aria-label" "calendar"]];
   [[ByAttrEq "role" "group"; ByAttrSub "aria-label" "カレンダー"]]].

(** [findCalendarsInSections] *)
Definition findCalendarsInSections (document : Node) (elements : list Path) : list Path :=
  foldl (λ elements selector,
           match documentQuerySelector document selector with
           | Some section =>
               foldl (addCalendarOf document) elements
                     (querySelectorAllAt document section checkboxSelector)
           | None => elements
           end)
        elements sectionSelectors.

(** [findCalendarsFromCheckboxes] *)
Definition findCalendarsFromCheckboxes (document : Node) (elements : list Path) : list Path :=
  foldl (addCalendarOf document) elements
        (documentQuerySelectorAll document checkboxSelector).

Definition sidebarSelectors : list Selector :=
  [[[ByTag "aside"]];
   [[ByAttrEq "role" "navigation"]];
   [[ByAttrEq "role" "complementary"]];
   [[ByClass "gb_pc"]];
   [[ByAttrSub "data-testid" "sidebar"]];
   [[ByAttrSub "data-testid" "calendar"]];
   [[ByAttrSub "class" "sidebar"]];
   [[ByAttrSub "class" "nav"]]].

(** [findCalendarsInSidebar] *)
Definition findCalendarsInSidebar (document : Node) (elements : list Path) : list Path :=
  foldl (λ elements selector,
           match documentQuerySelector document selector with
           | Some sidebar =>
               foldl (addCalendarOf document) elements
                     (querySelectorAllAt document sidebar checkboxSelector)
           | None => elements
           end)
        elements sidebarSelectors.

Definition googlePatterns : list Selector :=
  [[[ByAttrSub "class" "calendar"]];
   [[ByAttrSub "class" "Calendar"]];
   [[ByAttr "jsname"]];
   [[ByAttr "data-eventid"]];
   [[ByAttr "data-calendarid"]];
   [[ByAttrSub "id" "calendar"]];
   [[ByAttrSub "id" "Calendar"]]].

Definition textPatterns : list string :=
  ["マイカレンダー"; "My calendars"; "my calendars";
   "他のカレンダー"; "Other calendars"; "other calendars";
   "カレンダー"; "Calendar"; "calendar"].

(** [findCalendarsWithGooglePatterns].  The XPath snapshot is unordered:
    [snapshotOrder] is the order in which the browser hands out its
    items. *)
Definition findCalendarsWithGooglePatterns (snapshotOrder : list Path → list Path)
    (document : Node) (elements : list Path) : list Path :=
  let elements :=
    foldl (λ elements pattern,
             foldl (λ elements element,
                      match querySelectorAt document element checkboxSelector with
                      | Some checkbox => addCalendarOf document elements checkbox
                      | None => elements
                      end)
                   elements (documentQuerySelectorAll document pattern))
          elements googlePatterns in
  foldl (λ elements pattern,
           foldl (λ elements element,
                    match parentElement element with
                    | Some parent =>
                        foldl (addCalendarOf document) elements
                              (querySelectorAllAt document parent checkboxSelector)
                    | None => elements
                    end)
                 elements (snapshotOrder (divsWithTextOrLabel document pattern)))
        elements textPatterns.

(** [CalendarDOM.getCalendarElements] with [forceExpand = false]: the four
    approaches in turn on one [Set], then [Array.from].
    ([debugPageStructure] only reads and logs.) *)
Definition getCalendarElements (snapshotOrder : list Path → list Path) (document : Node)
  : list Path :=
  let elements := [] in
  let elements := findCalendarsInSections document elements in
  let elements := findCalendarsFromCheckboxes document elements in
  let elements := findCalendarsInSidebar document elements in
  let elements := findCalendarsWithGooglePatterns snapshotOrder document elements in
  elements.

End CalendarDOM.

(** ** A document as a host

    The queries are the functions of [CalendarDOM]; the element reads are
    those of the DOM.  What the page does with an interaction is left to the
    page: [reaction] is its handler.  [snapshotOrder] is the order in which
    the browser lists the items of an unordered XPath snapshot. *)
Module Page.
Import Html.

(** [element.type]: an [input] has one (the keyword of its [type] attribute,
    [text] by default), other elements of a sidebar have none. *)
Definition typeOf (n : Node) : option string :=
  if bool_decide (tagNameOf n = "input")
  then Some (Js.toLowerCase (default "text" (attribute n "type")))
  else None.

Definition host (snapshotOrder : list Path → list Path)
    (reaction : Interaction Path → Node → Node) : Host Node Path :=
  {| getCalendarElements := CalendarDOM.getCalendarElements snapshotOrder;
     getCalendarId := CalendarDOM.getCalendarId;
     getCalendarName := CalendarDOM.getCalendarName;
     getCheckboxElement := CalendarDOM.getCheckboxElement;
     getAttribute document element name := nodeAt document element ≫= λ n, attribute n name;
     checkedProp document element := nodeAt document element ≫= checkedOf;
     typeProp document element := nodeAt document element ≫= typeOf;
     clickThrows document element := false;
     react := reaction |}.

(** The document with the node at a path replaced by its image. *)
Fixpoint updateAt (f : Node → Node) (p : Path) (n : Node) : Node :=
  match p with
  | [] => f n
  | i :: p' =>
      match n with
      | Element tag attrs c cs => Element tag attrs c (alter (updateAt f p') i cs)
      | Text _ => n
      end
  end.

Fixpoint setAttributeIn (name value : string) (attrs : list (string * string))
  : list (string * string) :=
  match attrs with
  | [] => [(name, value)]
  | (n, v) :: attrs' =>
      if bool_decide (n = name) then (n, value) :: attrs'
      else (n, v) :: setAttributeIn name value attrs'
  end.

(** [n.setAttribute(name, value)] *)
Definition setAttribute (name value : string) (n : Node) : Node :=
  match n with
  | Element tag attrs c cs => Element tag (setAttributeIn name value attrs) c cs
  | Text _ => n
  end.

(** [n.checked = value] *)
Definition setChecked (value : bool) (n : Node) : Node :=
  match n with
  | Element tag attrs _ cs => Element tag attrs (Some value) cs
  | Text _ => n
  end.

(** A checkbox widget's handler: [aria-checked] becomes [true] unless it was
    [true]. *)
Definition toggleAriaChecked (n : Node) : Node :=
  setAttribute "aria-checked"
    (if bool_decide (attribute n "aria-checked" = Some "true") then "false" else "true") n.

(** A page of such widgets: they toggle on [click]; attribute and property
    writes do what the DOM says. *)
Definition widgets (i : Interaction Path) (document : Node) : Node :=
  match i with
  | IClick c | IDispatch c (MouseEvent "click") => updateAt toggleAriaChecked c document
  | IDispatch _ _ => document
  | ISetAttribute c name value => updateAt (setAttribute name value) c document
  | ISetChecked c value => updateAt (setChecked value) c document
  end.

(** The page of widgets, its snapshots in document order. *)
Definition widgetHost : Host Node Path := host (λ l, l) widgets.

(** A document at rest. *)
Definition atRest (document : Node) : @World Node Path :=
  {| dom := document; timers := []; log := [] |}.

(** *** A sample sidebar *)

Definition checkboxDiv (state : string) : Node :=
  Element "div" [("role", "checkbox"); ("aria-checked", state)] None [].

(** [<li><div role="checkbox" .../><span>name</span></li>] *)
Definition item (state name : string) : Node :=
  Element "li" [] None [checkboxDiv state; Element "span" [] None [Text name]].

(** Two sections; each has a calendar called Work as its first item, and
    the second one also lists the tasks. *)
Definition sidebar : Node :=
  Element "html" [] None
    [Element "head" [] None [];
     Element "body" [] None
       [Element "div" [("data-drawer", "my-calendars")] None
          [Element "ul" [] None [item "true" "Work"; item "false" "Home"]];
        Element "div" [("data-drawer", "other-calendars")] None
          [Element "ul" [] None [item "false" "Work"; item "true" "Tasks"]]]].

(** *** Items for the name resolver *)

(** [<li aria-label="Work">] holding a checkbox and
    [<span title="Team">Work calendar</span>]. *)
Definition labelledItem : Node :=
  Element "li" [("aria-label", "Work")] None
    [checkboxDiv "true"; Element "span" [("title", "Team")] None [Text "Work calendar"]].

(** [<li>] holding a checkbox, [<span aria-label="Work">] and then
    [<span title="Team">]. *)
Definition labelBeforeTitle : Node :=
  Element "li" [] None
    [checkboxDiv "true";
     Element "span" [("aria-label", "Work")] None [Text "W"];
     Element "span" [("title", "Team")] None [Text "T"]].

(** A list item with no text but blanks. *)
Definition blankItem : Node :=
  Element "li" [] None [checkboxDiv "false"; Text "  "].

(** A list of the three items. *)
Definition sampleDocument : Node :=
  Element "html" [] None
    [Element "body" [] None
       [Element "ul" [] None [labelledItem; labelBeforeTitle; blankItem]]].

Definition sidebarGroups : gmap string Group :=
  {[ "home" := {| groupName := "Home"; calendars := ["cal_home_home_1"] |} ]}.

End Page.

(** ** What the scan is to return *)

Section ScanSets.
Import Html CalendarDOM.

(** A calendar of the document: the container of one of its checkboxes,
    accepted by [isCalendarItem]. *)
Definition calendarOf (document : Node) (container : Path) : Prop :=
  ∃ checkbox, checkbox ∈ documentQuerySelectorAll document checkboxSelector
              ∧ findCalendarContainer document checkbox = Some container
              ∧ isCalendarItem document container = true.

(** What a strategy may do to the set: it keeps what is there, adds only
    calendars of the document, adds nothing twice, and leaves a set alone
    that holds every calendar of the document already. *)
Definition extends (document : Node) (elements elements' : list Path) : Prop :=
  (∀ x, x ∈ elements → x ∈ elements')
  ∧ ((∀ x, x ∈ elements → calendarOf document x) →
     ∀ x, x ∈ elements' → calendarOf document x)
  ∧ (NoDup elements → NoDup elements')
  ∧ ((∀ x, calendarOf document x → x ∈ elements) → elements' = elements).

End ScanSets.

(** ** The clicks of the loops *)

Section Clicks.
Context {Dom Elt : Type} `{Host Dom Elt}.

(** The click a turn of the loop makes, if any. *)
Definition clickOf (want : string → option bool) (d : Dom) (e : Elt) : option Elt :=
  match getCheckboxElement d e, want (getCalendarId d e) with
  | Some checkbox, Some v =>
      if bool_decide (v ≠ isCalendarChecked d e) then Some checkbox else None
  | _, _ => None
  end.

(** The checkbox [hideAllCalendars] clicks for an element. *)
Definition hideClick (d : Dom) (e : Elt) : option Elt :=
  if isCalendarChecked d e then getCheckboxElement d e else None.

(** The checkbox [showCalendarsInGroup] clicks for an element none of whose
    calendars is visible. *)
Definition showClick (calendarIds : list string) (d : Dom) (e : Elt) : option Elt :=
  if bool_decide (getCalendarId d e ∈ calendarIds) then getCheckboxElement d e else None.

End Clicks.

(** ** The state of the checkboxes and the rest of the document *)

Section StateDefs.
Import Html.

(** The attributes that carry the state of a checkbox. *)
Definition stateAttributes : list string := ["aria-checked"; "aria-pressed"].

(** The document without the state of its checkboxes: the state attributes
    removed, no [checked] property. *)
Fixpoint withoutState (n : Node) : Node :=
  match n with
  | Text data => Text data
  | Element tag attrs _ cs =>
      Element tag (filter (λ nv, nv.1 ∉ stateAttributes) attrs) None (withoutState <$> cs)
  end.

(** Two documents that differ in the state of their checkboxes only. *)
Definition sameButState (d d' : Node) : Prop := withoutState d = withoutState d'.

Definition stateFreeSimple (t : Simple) : bool :=
  match t with
  | ByTag _ => true
  | ByAttr name | ByAttrEq name _ | ByAttrSub name _ => bool_decide (name ∉ stateAttributes)
  | ByClass _ => true
  end.

Definition stateFree (sel : Selector) : bool := forallb (forallb stateFreeSimple) sel.

(** Erasing the state of every entry of a list of elements. *)
Definition erased (l : list (Path * Node)) : list (Path * Node) :=
  (λ pn, (pn.1, withoutState pn.2)) <$> l.

(** A page whose reaction to the script's interactions changes the state of
    checkboxes only. *)
Definition StateOnly (reaction : Interaction Path → Node → Node) : Prop :=
  ∀ i d, (∀ c name value, i = ISetAttribute c name value → name ∈ stateAttributes) →
         sameButState d (reaction i d).

End StateDefs.

(** ** Shapes of strings *)

Section StringShapes.

(** A string that does not start with white space. *)
Definition noLead (s : string) : Prop :=
  match s with
  | String a _ => Ascii.is_space a = false
  | EmptyString => True
  end.

(** A name as the script wants it: not empty, no white space around it. *)
Definition Trimmed (s : string) : Prop := s ≠ "" ∧ Js.trim s = s.

(** Every character of the string passes the test. *)
Fixpoint allChars (test : ascii → bool) (s : string) : bool :=
  match s with
  | EmptyString => true
  | String a s' => test a && allChars test s'
  end.

Definition notUnderscore (a : ascii) : bool := negb (bool_decide (a = "_"%char)).

End StringShapes.

(** ** Waiting for the page *)
Section WaitDefs.
Import Html.

(** Milliseconds. *)
Definition maxWaitTime : Z := 15000.
Definition checkInterval : Z := 500.

(** [checkDOM], with the runs it schedules.  [documentAt t] is the document
    the run finds when the counter [waitTime] stands at [t].  [calendars] is
    the promise the asynchronous [getCalendarElements] returns: its [length]
    is [undefined], and [undefined > 0] is [false]. *)
Fixpoint checkDOM (fuel : nat) (hostname : string) (documentAt : Z → Node)
    (waitTime : Z) : option Z :=
  match fuel with
  | 0 => None
  | S fuel' =>
      let isCalendarPage := Js.includes "calendar.google.com" hostname in
      if negb isCalendarPage then Some waitTime
      else
        let document := documentAt waitTime in
        let hasCheckboxes :=
          bool_decide (0 < length (documentQuerySelectorAll document
                                     [[ByAttrEq "role" "checkbox"]])) in
        let calendarsFound := false in
        if (calendarsFound || hasCheckboxes) || bool_decide (maxWaitTime ≤ waitTime)%Z
        then Some waitTime
        else checkDOM fuel' hostname documentAt (waitTime + checkInterval)%Z
  end.

(** [waitForCalendarDOM]: the value of [waitTime] when the promise
    resolves. *)
Definition waitForCalendarDOM (hostname : string) (documentAt : Z → Node) : option Z :=
  checkDOM 31 hostname documentAt 0.

(** The test of [hasCheckboxes]. *)
Definition hasRoleCheckbox (document : Node) : Prop :=
  0 < length (documentQuerySelectorAll document [[ByAttrEq "role" "checkbox"]]).

End WaitDefs.

(** ** The popup *)

(** A field read from a response or kept by the popup: [undefined], [null]
    or a string. *)
Inductive Field :=
  | Absent
  | Null
  | Str (s : string).

(** [response.activeGroup] *)
Definition activeGroupOf (response : Response) : Field :=
  match response with
  | ToggleSuccess (Some groupId) => Str groupId
  | ToggleSuccess None => Null
  | _ => Absent
  end.

(** [response.error], when it is truthy. *)
Definition errorOf (response : Response) : option string :=
  match response with
  | Error message => if Js.truthy message then Some message else None
  | _ => None
  end.

(** The field of the manager the popup mirrors. *)
Definition fieldOf (activeGroup : option string) : Field :=
  match activeGroup with
  | Some groupId => Str groupId
  | None => Null
  end.

(** [PopupManager.handleGroupClick], as far as [currentActiveGroup] goes.
    [delivered] is what [sendMessageToContent] resolved with, [None] when it
    rejected: the [catch] then leaves the field alone, as it does for a
    response with an [error]. *)
Definition handleGroupClick (delivered : option Response) (currentActiveGroup : Field) : Field :=
  match delivered with
  | None => currentActiveGroup
  | Some response =>
      match errorOf response with
      | Some _ => currentActiveGroup
      | None => activeGroupOf response
      end
  end.

(** [PopupManager.handleShowAll] *)
Definition handleShowAll (delivered : option Response) (currentActiveGroup : Field) : Field :=
  match delivered with
  | None => currentActiveGroup
  | Some response =>
      match errorOf response with
      | Some _ => currentActiveGroup
      | None => Null
      end
  end.

(** What the user does in the popup; the groups are read from storage at
    each request. *)
Inductive PopupAction :=
  | ClickGroup (stored : option (gmap string Group)) (groupId : string)
  | ClickShowAll.

Section PopupRequests.
Context {Dom Elt : Type} `{Host Dom Elt}.

(** One request of the popup, delivered to the content script and answered. *)
Definition popupStep (state : Field * (Manager * @World Dom Elt)) (action : PopupAction)
  : Field * (Manager * @World Dom Elt) :=
  let '(popup, st) := state in
  match action with
  | ClickGroup stored groupId =>
      let '(response, st') := handleToggleGroup stored groupId st in
      (handleGroupClick (Some response) popup, st')
  | ClickShowAll =>
      let '(response, st') := handleShowAllCalendars st in
      (handleShowAll (Some response) popup, st')
  end.

(** The popup shows as active the group the manager has active. *)
Definition InSync (state : Field * (Manager * @World Dom Elt)) : Prop :=
  state.1 = fieldOf (currentActiveGroup state.2.1).

End PopupRequests.

(** ** The options page *)

(** The part of a stored group the content script reads. *)
Definition storedGroup (name : string) (calendarIds : list string) : Group :=
  {| groupName := name; calendars := calendarIds |}.

Module Options.

(** A group as the options page stores it. *)
Record GroupData := {
  name : string;
  calendars : list string;
  createdAt : option Z;
  updatedAt : option Z
}.

(** The fields of an [OptionsManager] the group operations use. *)
Record OptionsManager := {
  groups : gmap string GroupData;
  currentEditingGroupId : option string
}.

(** The form of the group modal: the text of the name field and the values
    of the checked calendar boxes. *)
Record Form := {
  groupNameValue : string;
  selectedCalendarIds : list string
}.

(** What the page cannot know in advance: the three readings of the clock
    ([createdAt], [updatedAt], the id) and the digits [Math.random]
    gives. *)
Record Chance := {
  createdNow : Z;
  updatedNow : Z;
  idNow : Z;
  randomDigits : string
}.

(** A [currentEditingGroupId] that is truthy. *)
Definition editing (o : OptionsManager) : option string :=
  match currentEditingGroupId o with
  | Some groupId => if Js.truthy groupId then Some groupId else None
  | None => None
  end.

(** The names of the other groups, in lower case. *)
Definition existingNames (o : OptionsManager) : list string :=
  (λ kv : string * GroupData, Js.toLowerCase (name kv.2))
    <$> filter (λ kv : string * GroupData, Some kv.1 ≠ currentEditingGroupId o)
               (map_to_list (groups o)).

Inductive NameError :=
  | NameMissing
  | NameTooLong
  | NameTaken.

Definition nameError (o : OptionsManager) (form : Form) : option NameError :=
  let groupName := Js.trim (groupNameValue form) in
  if negb (Js.truthy groupName) then Some NameMissing
  else if bool_decide (50 < String.length groupName) then Some NameTooLong
  else if bool_decide (Js.toLowerCase groupName ∈ existingNames o) then Some NameTaken
  else None.

(** [validateForm] *)
Definition validateForm (o : OptionsManager) (form : Form) : bool :=
  bool_decide (nameError o form = None)
  && negb (bool_decide (length (selectedCalendarIds form) = 0)).

(** [generateGroupId] *)
Definition generateGroupId (now : Z) (random : string) : string :=
  "group_" +:+ pretty now +:+ "_" +:+ random.

(** [this.groups[groupId] = groupData], as far as the own properties go: a
    new or replaced own property, but for the key [__proto__] of an object
    that has no such property of its own, where the assignment replaces the
    prototype and leaves the own properties as they are. *)
Definition assign (groupId : string) (groupData : GroupData) (groups : gmap string GroupData)
  : gmap string GroupData :=
  if bool_decide (groupId = "__proto__" ∧ groups !! groupId = None) then groups
  else <[groupId := groupData]> groups.

(** [this.groups[groupId].createdAt] for the group being edited: the field
    of the group, [undefined] on a value inherited from [Object.prototype],
    a [TypeError] when the lookup gives [undefined]. *)
Definition createdAtOf (groups : gmap string GroupData) (groupId : string)
  : option (option Z) :=
  match groups !! groupId with
  | Some g => Some (createdAt g)
  | None => if bool_decide (groupId ∈ objectPrototypeKeys) then Some None else None
  end.

(** [handleSaveGroup]: the manager afterwards and the [groups] object given
    to [StorageUtils.set], if the call got that far.  When reading
    [createdAt] raises, the [catch] leaves everything as it was.  The
    promise of [StorageUtils.set] always resolves; [closeGroupModal] then
    resets [currentEditingGroupId]. *)
Definition handleSaveGroup (chance : Chance) (o : OptionsManager) (form : Form)
  : OptionsManager * option (gmap string GroupData) :=
  if negb (validateForm o form) then (o, None)
  else
    let groupName := Js.trim (groupNameValue form) in
    let selectedCalendars := selectedCalendarIds form in
    let created :=
      match editing o with
      | Some groupId => createdAtOf (groups o) groupId
      | None => Some (Some (createdNow chance))
      end in
    match created with
    | None => (o, None)
    | Some created =>
        let groupData := {| name := groupName; calendars := selectedCalendars;
                            createdAt := created;
                            updatedAt := Some (updatedNow chance) |} in
        let groupId := default (generateGroupId (idNow chance) (randomDigits chance))
                               (editing o) in
        let groups' := assign groupId groupData (groups o) in
        ({| groups := groups'; currentEditingGroupId := None |}, Some groups')
    end.

(** [handleDeleteGroup] *)
Definition handleDeleteGroup (o : OptionsManager)
  : OptionsManager * option (gmap string GroupData) :=
  match editing o with
  | None => (o, None)
  | Some groupId =>
      let groups' := delete groupId (groups o) in
      ({| groups := groups'; currentEditingGroupId := None |}, Some groups')
  end.

(** The [groups] object as the content script reads it. *)
Definition contentView (written : gmap string GroupData) : gmap string Group :=
  (λ g, storedGroup (name g) (calendars g)) <$> written.

(** What the form validation is to guarantee of the stored groups: a name
    that is trimmed, not empty and of at most 50 characters, a selection
    that is not empty, and no two groups with the same name up to case. *)
Definition WellFormed (groups : gmap string GroupData) : Prop :=
  groups !! "" = None
  ∧ (∀ groupId g, groups !! groupId = Some g →
       Trimmed (name g) ∧ String.length (name g) ≤ 50 ∧ calendars g ≠ [])
  ∧ ∀ id1 id2 g1 g2, groups !! id1 = Some g1 → groups !! id2 = Some g2 →
      Js.toLowerCase (name g1) = Js.toLowerCase (name g2) → id1 = id2.

End Options.

(** ** Messages to the content script, with retries *)

(** How one [chrome.tabs.sendMessage] ends: with a response, or with
    [chrome.runtime.lastError]. *)
Inductive Outcome (R : Type) :=
  | Resolved (response : R)
  | Rejected (message : string).
Arguments Resolved {R} _.
Arguments Rejected {R} _.

(** What a call of [sendMessageToContent] has done when it ends: how it
    ended ([None]: the loop ran out), the messages sent, the milliseconds
    waited, and the attempts after which it asked for the content script to
    be injected again (a failure of the injection is caught). *)
Record Sent (R : Type) := {
  result : option (Outcome R);
  sends : nat;
  waited : Z;
  reinjected : list nat
}.
Arguments result {R} _.
Arguments sends {R} _.
Arguments waited {R} _.
Arguments reinjected {R} _.

Definition maxRetries : nat := 5.
Definition retryDelay : Z := 1000.

Definition connectionLost (message : string) : bool :=
  Js.includes "Could not establish connection" message.

(** The loop of [TabUtils.sendMessageToContent] from [attempt] on, with
    [remaining] turns left; [outcome n] is how the [n]th message ends. *)
Fixpoint attemptsFrom {R} (remaining attempt : nat) (outcome : nat → Outcome R) : Sent R :=
  match remaining with
  | 0 => {| result := None; sends := 0; waited := 0; reinjected := [] |}
  | S remaining' =>
      match outcome attempt with
      | Resolved response =>
          {| result := Some (Resolved response); sends := 1; waited := 0; reinjected := [] |}
      | Rejected message =>
          if bool_decide (attempt = maxRetries)
          then {| result := Some (Rejected message); sends := 1; waited := 0;
                  reinjected := [] |}
          else
            let rest := attemptsFrom remaining' (S attempt) outcome in
            {| result := result rest;
               sends := S (sends rest);
               waited := retryDelay + waited rest;
               reinjected := (if connectionLost message then [attempt] else [])
                             ++ reinjected rest |}
      end
  end.

(** [TabUtils.sendMessageToContent] of the options page. *)
Definition sendMessageToContent {R} (outcome : nat → Outcome R) : Sent R :=
  attemptsFrom maxRetries 1 outcome.

(** The attempts that lost the connection. *)
Definition lostAt {R} (outcome : nat → Outcome R) (attempt : nat) : bool :=
  match outcome attempt with
  | Rejected message => connectionLost message
  | Resolved _ => false
  end.

(** ** Scrolling through a container *)

Section ScrollDefs.
Local Open Scope Z_scope.

Definition scrollStep : Z := 50.

(** The first loop of [rapidScrollThrough]: the values given to
    [scrollTop] from [pos] on. *)
Fixpoint scrollDown (fuel : nat) (pos scrollHeight : Z) : list Z :=
  match fuel with
  | O => []
  | S fuel' =>
      if bool_decide (pos ≤ scrollHeight)
      then pos :: scrollDown fuel' (pos + scrollStep) scrollHeight
      else []
  end.

(** The second loop. *)
Fixpoint scrollUp (fuel : nat) (pos : Z) : list Z :=
  match fuel with
  | O => []
  | S fuel' =>
      if bool_decide (0 ≤ pos)
      then pos :: scrollUp fuel' (pos - scrollStep)
      else []
  end.

(** [rapidScrollThrough]: the values it gives to [scrollTop], in order, for
    a container of the given [scrollHeight]; each is followed by a wait of
    10 ms. *)
Definition rapidScrollThrough (scrollHeight : Z) : list Z :=
  let fuel := Z.to_nat (scrollHeight + 1) in
  scrollDown fuel 0 scrollHeight ++ scrollUp fuel scrollHeight.

End ScrollDefs.

Section LoopLemmas.
Context {Dom Elt : Type} `{Host Dom Elt} `{EqDecision Elt}.

Local Abbreviation World := (@World Dom Elt).

Lemma sameScan_refl (d : Dom) : sameScan d d.
Proof. split; [done | by intros]. Qed.

Lemma sameScan_trans (d1 d2 d3 : Dom) :
  sameScan d1 d2 → sameScan d2 d3 → sameScan d1 d3.
Proof.
  intros [E12 P12] [E23 P23]. split; [congruence |].
  intros e He. destruct (P12 e He) as [I12 C12].
  assert (He2 : e ∈ getCalendarElements d2) by (by rewrite E12).
  destruct (P23 e He2) as [I23 C23]. split; congruence.
Qed.

Lemma hideCalendar_applyWanted (w : World) (e : Elt) :
  hideCalendar w e = applyWanted (λ _, Some false) w e.
Proof.
  unfold hideCalendar, applyWanted.
  destruct (getCheckboxElement (dom w) e); [| done].
  by destruct (isCalendarChecked (dom w) e).
Qed.

Lemma showCalendar_applyWanted (calendarIds : list string) (w : World) (e : Elt) :
  showCalendar calendarIds w e =
  applyWanted (λ id, if bool_decide (id ∈ calendarIds) then Some true else None) w e.
Proof.
  unfold showCalendar, applyWanted.
  destruct (bool_decide _); destruct (getCheckboxElement (dom w) e); try done.
  by destruct (isCalendarChecked (dom w) e).
Qed.

Lemma restoreCalendar_applyWanted (states : gmap string bool) (w : World) (e : Elt) :
  restoreCalendar states w e = applyWanted (λ id, states !! id) w e.
Proof. done. Qed.

Lemma foldl_ext_in {A B} (f g : A → B → A) (l : list B) (a : A) :
  (∀ a b, b ∈ l → f a b = g a b) → foldl f a l = foldl g a l.
Proof.
  revert a. induction l as [| b l IH]; intros a Hfg; [done |].
  simpl. rewrite Hfg by left. apply IH. intros. apply Hfg. by right.
Qed.

(** One step of the loop on a page where toggles converge. *)
Lemma applyWanted_step (want : string → option bool) (w : World) (e0 : Elt) :
  Converges → e0 ∈ getCalendarElements (dom w) →
  let w' := applyWanted want w e0 in
  sameScan (dom w) (dom w')
  ∧ ∀ e, e ∈ getCalendarElements (dom w) →
      isCalendarChecked (dom w') e =
      if decide (e = e0) then aim want (dom w) e else isCalendarChecked (dom w) e.
Proof.
  intros Hc He0. unfold applyWanted, aim. simpl.
  destruct (getCheckboxElement (dom w) e0) as [c |] eqn:Hcb.
  2:{ split; [apply sameScan_refl |]. intros e _. case_decide; [subst; by rewrite Hcb | done]. }
  destruct (want (getCalendarId (dom w) e0)) as [v |] eqn:Hw.
  2:{ split; [apply sameScan_refl |]. intros e _.
      case_decide; [subst; by rewrite Hcb, Hw | done]. }
  case_bool_decide as Hv.
  2:{ split; [apply sameScan_refl |]. intros e _.
      case_decide; [subst; by rewrite Hcb, Hw | done]. }
  unfold toggleCalendarVisibility. rewrite (click_returns Hc). simpl.
  split; [apply (click_same_scan Hc) |].
  intros e He. case_decide as Hee.
  - subst e. rewrite Hcb, Hw. rewrite (click_toggles Hc) by done.
    destruct v, (isCalendarChecked (dom w) e0); done.
  - by apply (click_frame Hc) with e0.
Qed.

(** The whole loop: every calendar of the list ends at its aim, every other
    calendar where it was. *)
Lemma applyWanted_loop (want : string → option bool) (l : list Elt) (w : World) :
  Converges → (∀ e, e ∈ l → e ∈ getCalendarElements (dom w)) →
  let w' := foldl (applyWanted want) w l in
  sameScan (dom w) (dom w')
  ∧ ∀ e, e ∈ getCalendarElements (dom w) →
      isCalendarChecked (dom w') e =
      if decide (e ∈ l) then aim want (dom w) e else isCalendarChecked (dom w) e.
Proof.
  intros Hc. revert w. induction l as [| e0 l IH]; intros w Hl; cbn [foldl]; cbv zeta.
  { split; [apply sameScan_refl |]. intros e _.
    destruct (decide _) as [Hin |]; [by apply not_elem_of_nil in Hin | done]. }
  assert (He0 : e0 ∈ getCalendarElements (dom w)) by (apply Hl; left).
  destruct (applyWanted_step want w e0 Hc He0) as [S1 V1].
  set (w1 := applyWanted want w e0) in *.
  destruct S1 as [E1 P1].
  destruct (IH w1) as [S2 V2].
  { intros e He. rewrite E1. apply Hl. by right. }
  split; [by apply sameScan_trans with (dom w1) |].
  intros e He.
  assert (He1 : e ∈ getCalendarElements (dom w1)) by (by rewrite E1).
  rewrite (V2 e He1). destruct (P1 e He) as [I1 C1].
  assert (Haim : aim want (dom w1) e =
                 if decide (e = e0) then aim want (dom w) e
                 else match getCheckboxElement (dom w) e, want (getCalendarId (dom w) e) with
                      | Some _, Some v => v
                      | _, _ => isCalendarChecked (dom w) e
                      end).
  { unfold aim at 1. rewrite I1, C1, (V1 e He). unfold aim. case_decide; [| done].
    destruct (getCheckboxElement (dom w) e); [| done].
    by destruct (want (getCalendarId (dom w) e)). }
  rewrite Haim, (V1 e He).
  destruct (decide (e = e0)) as [-> | Hne].
  - rewrite (decide_True (P := e0 ∈ e0 :: l)) by left. by case_decide.
  - destruct (decide (e ∈ l)) as [Hin | Hnin].
    + rewrite (decide_True (P := e ∈ e0 :: l)) by (by right). done.
    + rewrite (decide_False (P := e ∈ e0 :: l)); [done |].
      intros Hin. apply elem_of_cons in Hin as [? | ?]; done.
Qed.

End LoopLemmas.

Section ManagerLemmas.
Context {Dom Elt : Type} `{Host Dom Elt} `{EqDecision Elt}.

Local Abbreviation World := (@World Dom Elt).

(** Loops that agree on the ids of the page do the same thing. *)
Lemma applyWanted_loop_ext (want1 want2 : string → option bool) (l : list Elt) (w : World) :
  Converges → (∀ e, e ∈ l → e ∈ getCalendarElements (dom w)) →
  (∀ e, e ∈ l → want1 (getCalendarId (dom w) e) = want2 (getCalendarId (dom w) e)) →
  foldl (applyWanted want1) w l = foldl (applyWanted want2) w l.
Proof.
  intros Hc. revert w. induction l as [| e0 l IH]; intros w Hl Hw; [done |].
  cbn [foldl].
  assert (He0 : e0 ∈ getCalendarElements (dom w)) by (apply Hl; left).
  assert (E : applyWanted want1 w e0 = applyWanted want2 w e0).
  { unfold applyWanted. by rewrite (Hw e0) by left. }
  destruct (applyWanted_step want1 w e0 Hc He0) as [[E1 P1] _].
  rewrite <- E. apply IH.
  - intros e He. rewrite E1. apply Hl. by right.
  - intros e He. destruct (P1 e) as [-> _]; [apply Hl; by right |]. apply Hw. by right.
Qed.

(** After [hideAllCalendars] no calendar of the page is visible. *)
Lemma hideAllCalendars_spec (w : World) :
  Converges →
  sameScan (dom w) (dom (hideAllCalendars w))
  ∧ ∀ e, e ∈ getCalendarElements (dom w) →
      isCalendarChecked (dom (hideAllCalendars w)) e = false.
Proof.
  intros Hc. unfold hideAllCalendars.
  rewrite (foldl_ext_in hideCalendar (applyWanted (λ _, Some false)))
    by (intros; apply hideCalendar_applyWanted).
  destruct (applyWanted_loop (λ _, Some false) (getCalendarElements (dom w)) w Hc) as [S V];
    [done |].
  split; [done |]. intros e He. rewrite (V e He), decide_True by done.
  unfold aim, isCalendarChecked. by destruct (getCheckboxElement (dom w) e).
Qed.

(** After [showCalendarsInGroup] the calendars of the group that have a
    checkbox are visible, the others are as they were. *)
Lemma showCalendarsInGroup_spec (calendarIds : list string) (w : World) :
  Converges →
  sameScan (dom w) (dom (showCalendarsInGroup calendarIds w))
  ∧ ∀ e, e ∈ getCalendarElements (dom w) →
      isCalendarChecked (dom (showCalendarsInGroup calendarIds w)) e =
      if bool_decide (getCalendarId (dom w) e ∈ calendarIds)
      then bool_decide (is_Some (getCheckboxElement (dom w) e))
      else isCalendarChecked (dom w) e.
Proof.
  intros Hc. unfold showCalendarsInGroup.
  rewrite (foldl_ext_in (showCalendar calendarIds) (applyWanted _))
    by (intros; apply showCalendar_applyWanted).
  match goal with |- context [applyWanted ?f] => set (want := f) end.
  destruct (applyWanted_loop want (getCalendarElements (dom w)) w Hc) as [S V]; [done |].
  split; [done |]. intros e He. rewrite (V e He), decide_True by done.
  unfold aim, want, isCalendarChecked.
  destruct (getCheckboxElement (dom w) e); by destruct (bool_decide (_ ∈ _)).
Qed.

(** After the loop of [showAllCalendars] every calendar with a saved state
    and a checkbox has that state, the others are as they were. *)
Lemma restore_loop_spec (states : gmap string bool) (w : World) :
  Converges →
  let w' := foldl (restoreCalendar states) w (getCalendarElements (dom w)) in
  sameScan (dom w) (dom w')
  ∧ ∀ e, e ∈ getCalendarElements (dom w) →
      isCalendarChecked (dom w') e = aim (λ id, states !! id) (dom w) e.
Proof.
  intros Hc w'.
  destruct (applyWanted_loop (λ id, states !! id) (getCalendarElements (dom w)) w Hc)
    as [S V]; [done |].
  split; [done |]. intros e He. unfold w'.
  change (restoreCalendar states) with (applyWanted (λ id, states !! id)).
  by rewrite (V e He), decide_True.
Qed.

(** What [saveCurrentCalendarStates] records for the id of a calendar of the
    page: the visibility of a calendar with that id (the last one scanned). *)
Lemma saveCurrentCalendarStates_lookup (w : World) (states : gmap string bool) (e : Elt) :
  e ∈ getCalendarElements (dom w) →
  ∃ e', e' ∈ getCalendarElements (dom w)
        ∧ getCalendarId (dom w) e' = getCalendarId (dom w) e
        ∧ saveCurrentCalendarStates w states !! getCalendarId (dom w) e
          = Some (isCalendarChecked (dom w) e').
Proof.
  unfold saveCurrentCalendarStates.
  generalize (getCalendarElements (dom w)) as l. intros l. revert states.
  induction l as [| e0 l IH] using rev_ind; intros states He.
  { by apply not_elem_of_nil in He. }
  rewrite foldl_app. cbn [foldl].
  destruct (decide (getCalendarId (dom w) e0 = getCalendarId (dom w) e)) as [Heq | Hne].
  - exists e0. split; [apply elem_of_app; right; left |]. split; [done |].
    rewrite Heq. apply lookup_insert_eq.
  - apply elem_of_app in He as [He | He%list_elem_of_singleton]; [| by subst].
    destruct (IH states He) as (e' & He' & Hid & Hl).
    exists e'. split; [apply elem_of_app; by left |]. split; [done |].
    by rewrite lookup_insert_ne.
Qed.

(** An id of no calendar of the page keeps what the map held for it. *)
Lemma saveCurrentCalendarStates_other (w : World) (states : gmap string bool) (k : string) :
  (∀ e, e ∈ getCalendarElements (dom w) → getCalendarId (dom w) e ≠ k) →
  saveCurrentCalendarStates w states !! k = states !! k.
Proof.
  unfold saveCurrentCalendarStates.
  generalize (getCalendarElements (dom w)) as l. intros l. revert states.
  induction l as [| e0 l IH]; intros states Hk; [done |].
  cbn [foldl]. rewrite IH by (intros; apply Hk; by right).
  apply lookup_insert_ne, Hk. left.
Qed.

(** [toggleGroup] of a group found in storage. *)
Lemma toggleGroup_stored (stored : option (gmap string Group)) (groupId : string)
    (group : Group) (m : Manager) (w : World) :
  default ∅ stored !! groupId = Some group →
  toggleGroup stored groupId (m, w) =
  if bool_decide (currentActiveGroup m = Some groupId)
  then (Returned, showAllCalendars (m, w))
  else (Returned,
        ({| currentActiveGroup := Some groupId;
            originalCalendarStates :=
              if bool_decide (size (originalCalendarStates m) = 0)
              then saveCurrentCalendarStates w (originalCalendarStates m)
              else originalCalendarStates m;
            isInitialized := isInitialized m |},
         showCalendarsInGroup (calendars group) (hideAllCalendars w))).
Proof.
  intros Hg. unfold toggleGroup, getProperty. rewrite Hg. cbn [calendarsOf showCalendarsOf].
  done.
Qed.

End ManagerLemmas.

(** ** The pending verifications *)

Section TimerLemmas.
Context {Dom Elt : Type} `{Host Dom Elt} `{EqDecision Elt}.

Local Abbreviation World := (@World Dom Elt).

Lemma expected_snoc (pending : list (Elt * bool)) (c c' : Elt) (v : bool) :
  expected (pending ++ [(c, v)]) c'
  = if decide (c = c') then Some v else expected pending c'.
Proof.
  unfold expected. rewrite filter_app, filter_cons, filter_nil. cbn [fst].
  case_decide as Hc.
  - by rewrite last_snoc.
  - by rewrite app_nil_r.
Qed.

Lemma expected_nil (c : Elt) : expected [] c = None.
Proof. done. Qed.

(** Two calendars of a page where toggles converge do not share a
    checkbox. *)
Lemma converges_no_alias (d : Dom) (e e' : Elt) (c : Elt) :
  Converges →
  e ∈ getCalendarElements d → e' ∈ getCalendarElements d →
  getCheckboxElement d e = Some c → getCheckboxElement d e' = Some c → e = e'.
Proof.
  intros Hc He He' Hcb Hcb'. destruct (decide (e = e')) as [| Hne]; [done |].
  pose proof (click_toggles Hc d e' c He' Hcb') as Ht.
  rewrite (click_frame Hc d e e' c He He' Hcb) in Ht by done.
  by destruct (isCalendarChecked d e').
Qed.

(** A step of the loops keeps the verifications in step. *)
Lemma applyWanted_step_InStep (want : string → option bool) (w : World) (e0 : Elt) :
  Converges → e0 ∈ getCalendarElements (dom w) → InStep w →
  InStep (applyWanted want w e0).
Proof.
  intros Hc He0 [Hmem Hexp].
  destruct (applyWanted_step want w e0 Hc He0) as [[E P] V].
  revert E P V. unfold applyWanted, aim.
  destruct (getCheckboxElement (dom w) e0) as [c |] eqn:Hcb; [| done].
  destruct (want (getCalendarId (dom w) e0)) as [v |] eqn:Hw; [| done].
  case_bool_decide as Hv; [| done].
  unfold toggleCalendarVisibility. rewrite (click_returns Hc).
  unfold InStep. cbn [setTimeout interact dom timers]. intros E P V. split.
  - intros t [Ht | ->%list_elem_of_singleton]%elem_of_app.
    + destruct (Hmem t Ht) as (e & He & Hcbe). exists e. rewrite E. split; [done |].
      by destruct (P e He) as [_ ->].
    + exists e0. rewrite E. split; [done |]. by destruct (P e0 He0) as [_ ->].
  - intros e c' v' He Hcbe. rewrite E in He. destruct (P e He) as [_ Hcb'].
    rewrite Hcb' in Hcbe. rewrite expected_snoc, (V e He).
    case_decide as Hcc.
    + subst c'. intros [= <-].
      rewrite (converges_no_alias (dom w) e e0 c Hc He He0 Hcbe Hcb).
      rewrite decide_True by done. by rewrite Hcb, Hw.
    + intros Hexp'. rewrite decide_False by (intros ->; congruence).
      by apply (Hexp e c' v').
Qed.

(** What a loop adds to the log: clicks, each on the checkbox of a calendar
    of the list for whose id a visibility is wanted. *)
Lemma applyWanted_loop_log (want : string → option bool) (l : list Elt) (w : World) :
  Converges → (∀ e, e ∈ l → e ∈ getCalendarElements (dom w)) →
  ∃ clicks, log (foldl (applyWanted want) w l) = log w ++ (IClick <$> clicks)
    ∧ ∀ c, c ∈ clicks →
        ∃ e, e ∈ l ∧ getCheckboxElement (dom w) e = Some c
             ∧ is_Some (want (getCalendarId (dom w) e)).
Proof.
  intros Hc. revert w. induction l as [| e0 l IH]; intros w Hl.
  { exists []. split; [by rewrite app_nil_r | by intros c ?%not_elem_of_nil]. }
  cbn [foldl].
  assert (He0 : e0 ∈ getCalendarElements (dom w)) by (apply Hl; left).
  destruct (applyWanted_step want w e0 Hc He0) as [[E P] _].
  destruct (IH (applyWanted want w e0)) as (clicks & Hlog & Hclicks).
  { intros e He. rewrite E. apply Hl. by right. }
  assert (Hrest : ∀ c, c ∈ clicks →
            ∃ e, e ∈ e0 :: l ∧ getCheckboxElement (dom w) e = Some c
                 ∧ is_Some (want (getCalendarId (dom w) e))).
  { intros c Hin. destruct (Hclicks c Hin) as (e & He & Hcb & Hw).
    exists e. split; [by right |].
    destruct (P e) as [<- <-]; [apply Hl; by right | done]. }
  assert (Hstep : applyWanted want w e0 = w
            ∨ ∃ c0, getCheckboxElement (dom w) e0 = Some c0
                ∧ is_Some (want (getCalendarId (dom w) e0))
                ∧ log (applyWanted want w e0) = log w ++ [IClick c0]).
  { unfold applyWanted.
    destruct (getCheckboxElement (dom w) e0) as [c0 |] eqn:Hcb0; [| by left].
    destruct (want (getCalendarId (dom w) e0)) as [v |] eqn:Hw0; [| by left].
    case_bool_decide as Hv; [| by left].
    right. exists c0. split; [done |]. split; [done |].
    unfold toggleCalendarVisibility. by rewrite (click_returns Hc). }
  destruct Hstep as [Hsame | (c0 & Hcb0 & Hw0 & Hlog0)].
  - rewrite Hsame in Hlog |- *. by exists clicks.
  - exists (c0 :: clicks). split.
    + rewrite Hlog, Hlog0. cbn [fmap list_fmap]. by rewrite <- (assoc_L (++)).
    + intros c [-> | Hin]%elem_of_cons; [| by apply Hrest].
      exists e0. split; [left | done].
Qed.

Lemma applyWanted_loop_InStep (want : string → option bool) (l : list Elt) (w : World) :
  Converges → (∀ e, e ∈ l → e ∈ getCalendarElements (dom w)) → InStep w →
  InStep (foldl (applyWanted want) w l).
Proof.
  intros Hc. revert w. induction l as [| e0 l IH]; intros w Hl Hin; [done |].
  cbn [foldl].
  assert (He0 : e0 ∈ getCalendarElements (dom w)) by (apply Hl; left).
  destruct (applyWanted_step want w e0 Hc He0) as [[E _] _].
  apply IH.
  - intros e He. rewrite E. apply Hl. by right.
  - by apply applyWanted_step_InStep.
Qed.

Lemma hideAllCalendars_InStep (w : World) :
  Converges → InStep w → InStep (hideAllCalendars w).
Proof.
  intros Hc Hin. unfold hideAllCalendars.
  rewrite (foldl_ext_in hideCalendar (applyWanted (λ _, Some false)))
    by (intros; apply hideCalendar_applyWanted).
  by apply applyWanted_loop_InStep.
Qed.

Lemma showCalendarsInGroup_InStep (calendarIds : list string) (w : World) :
  Converges → InStep w → InStep (showCalendarsInGroup calendarIds w).
Proof.
  intros Hc Hin. unfold showCalendarsInGroup.
  rewrite (foldl_ext_in (showCalendar calendarIds) (applyWanted _))
    by (intros; apply showCalendar_applyWanted).
  by apply applyWanted_loop_InStep.
Qed.

Lemma restore_loop_InStep (states : gmap string bool) (w : World) :
  Converges → InStep w →
  InStep (foldl (restoreCalendar states) w (getCalendarElements (dom w))).
Proof.
  intros Hc Hin.
  change (restoreCalendar states) with (applyWanted (λ id, states !! id)).
  by apply applyWanted_loop_InStep.
Qed.

(** Running a list of verifications: every calendar ends in the state the
    last verification of its checkbox expects, or where it was when none
    is about it. *)
Lemma verify_loop (pending : list (Elt * bool)) (w : World) :
  ForceConverges →
  (∀ t, t ∈ pending →
     ∃ e, e ∈ getCalendarElements (dom w) ∧ getCheckboxElement (dom w) e = Some t.1) →
  let w' := foldl (λ w callback, verifyToggle callback w) w pending in
  sameScan (dom w) (dom w')
  ∧ timers w' = timers w
  ∧ ∀ e c, e ∈ getCalendarElements (dom w) → getCheckboxElement (dom w) e = Some c →
      isCalendarChecked (dom w') e
      = default (isCalendarChecked (dom w) e) (expected pending c).
Proof.
  intros Hf. induction pending as [| [c v] pending IH] using rev_ind; intros Hmem.
  { cbn. split; [apply sameScan_refl |]. done. }
  rewrite foldl_app. cbn [foldl].
  destruct IH as ([E1 P1] & T1 & V1).
  { intros t Ht. apply Hmem, elem_of_app. by left. }
  set (w1 := foldl (λ w callback, verifyToggle callback w) w pending) in *.
  destruct (Hmem (c, v)) as (e0 & He0 & Hcb0); [apply elem_of_app; right; left |].
  cbn [fst] in Hcb0.
  assert (He01 : e0 ∈ getCalendarElements (dom w1)) by (by rewrite E1).
  assert (Hcb01 : getCheckboxElement (dom w1) e0 = Some c)
    by (by destruct (P1 e0 He0) as [_ ->]).
  unfold verifyToggle. case_bool_decide as Hstate.
  - split; [| split].
    + apply sameScan_trans with (dom w1); [done | apply (force_same_scan Hf)].
    + rewrite <- T1. unfold forceCalendarState, setStateDirectly, dispatchKeyEvent,
        dispatchMouseEvents. cbn [foldl].
      repeat (match goal with |- context [if ?b then _ else _] => destruct b end);
        reflexivity.
    + intros e c' He Hcbe. rewrite expected_snoc.
      assert (He1 : e ∈ getCalendarElements (dom w1)) by (by rewrite E1).
      assert (Hcbe1 : getCheckboxElement (dom w1) e = Some c')
        by (by destruct (P1 e He) as [_ ->]).
      case_decide as Hcc.
      * subst c'. cbn [default]. by apply (force_sets Hf).
      * rewrite (force_frame Hf w1 e0 e c v) by (done || (intros ->; congruence)).
        by apply V1.
  - split; [done |]. split; [done |].
    intros e c' He Hcbe. rewrite expected_snoc. case_decide as Hcc; [| by apply V1].
    subst c'. cbn [default].
    assert (Hcbe1 : getCheckboxElement (dom w1) e = Some c)
      by (by destruct (P1 e He) as [_ ->]).
    unfold isCalendarChecked. rewrite Hcbe1.
    destruct (checkboxState (dom w1) c), v; done.
Qed.

(** When the verifications are in step, running them changes the visibility
    of no calendar and leaves none pending. *)
Lemma runTimers_spec (w : World) :
  ForceConverges → InStep w →
  sameScan (dom w) (dom (runTimers w))
  ∧ timers (runTimers w) = []
  ∧ (∀ e, e ∈ getCalendarElements (dom w) →
       isCalendarChecked (dom (runTimers w)) e = isCalendarChecked (dom w) e)
  ∧ InStep (runTimers w).
Proof.
  intros Hf [Hmem Hexp]. unfold runTimers.
  pose proof (verify_loop (timers w) {| dom := dom w; timers := []; log := log w |}
                Hf Hmem) as ([E P] & T & V).
  cbn [dom timers] in E, P, T, V.
  set (w' := foldl _ _ _) in *.
  assert (Hvis : ∀ e, e ∈ getCalendarElements (dom w) →
            isCalendarChecked (dom w') e = isCalendarChecked (dom w) e).
  { intros e He. destruct (getCheckboxElement (dom w) e) as [c |] eqn:Hcb.
    - rewrite (V e c He Hcb).
      destruct (expected (timers w) c) as [v |] eqn:Hex; [| done].
      cbn [default]. symmetry. by apply (Hexp e c v).
    - destruct (P e He) as [_ Hcb']. rewrite Hcb in Hcb'.
      unfold isCalendarChecked. by rewrite Hcb', Hcb. }
  split; [done |]. split; [done |]. split; [done |].
  split; [by rewrite T; intros t ?%not_elem_of_nil |].
  intros e c v _ _. by rewrite T.
Qed.

Lemma settle_spec (run : bool) (w : World) :
  ForceConverges → InStep w →
  sameScan (dom w) (dom (settle run w))
  ∧ (∀ e, e ∈ getCalendarElements (dom w) →
       isCalendarChecked (dom (settle run w)) e = isCalendarChecked (dom w) e)
  ∧ InStep (settle run w).
Proof.
  intros Hf Hin. destruct run; cbn [settle].
  - destruct (runTimers_spec w Hf Hin) as (S & _ & V & I). done.
  - split; [apply sameScan_refl | done].
Qed.

Lemma InStep_no_timers (w : World) : timers w = [] → InStep w.
Proof.
  intros Ht. split; rewrite Ht; [by intros t ?%not_elem_of_nil | done].
Qed.

End TimerLemmas.

(** ** The sidebar page is a page on which toggles converge *)

Section SidebarLemmas.
Import Sidebar.

Lemma rowState_flip (r : Row) : rowState (flip r) = negb (rowState r).
Proof.
  unfold rowState at 1. unfold flip; cbn [aria_checked input aria_pressed].
  destruct (rowState r); cbn [negb boolToString].
  - destruct (input r) as [[] |], (aria_pressed r); done.
  - done.
Qed.

Lemma checkboxState_row (listens : list string) (d : list Row) (i : nat) :
  checkboxState (H := host listens) d i = from_option rowState false (d !! i).
Proof.
  unfold checkboxState. cbn [getAttribute checkedProp host].
  destruct (d !! i) as [r |]; [| done]. done.
Qed.

Lemma isCalendarChecked_row (listens : list string) (d : list Row) (i : nat) :
  isCalendarChecked (H := host listens) d i = from_option rowState false (d !! i).
Proof.
  unfold isCalendarChecked. cbn [getCheckboxElement host].
  destruct (d !! i) as [r |] eqn:Hr; cbn [fmap option_fmap option_map from_option]; [| done].
  by rewrite checkboxState_row, Hr.
Qed.

Lemma click_alters (listens : list string) (d : list Row) (c : nat) :
  "click" ∈ listens →
  react (Host := host listens) (IClick c) d = alter flip c d.
Proof. intros Hin. cbn. by rewrite bool_decide_true. Qed.

(** A page that listens to [click] satisfies [Converges]. *)
Lemma sidebar_converges (listens : list string) :
  "click" ∈ listens → Converges (H := host listens).
Proof.
  intros Hin. split.
  - done.
  - intros d c. rewrite click_alters by done. split.
    + cbn. by rewrite length_alter.
    + intros e _. cbn.
      destruct (decide (e = c)) as [-> | Hne].
      * rewrite list_lookup_alter_eq. by destruct (d !! c).
      * by rewrite list_lookup_alter_ne.
  - intros d e c _ Hcb. rewrite click_alters by done.
    cbn in Hcb. destruct (d !! e) as [r |] eqn:Hr; [| done].
    injection Hcb as <-.
    rewrite !isCalendarChecked_row, list_lookup_alter_eq, Hr. apply rowState_flip.
  - intros d e e' c _ _ Hcb Hne. rewrite click_alters by done.
    cbn in Hcb. destruct (d !! e) as [r |] eqn:Hr; [| done].
    injection Hcb as <-.
    by rewrite !isCalendarChecked_row, list_lookup_alter_ne.
Qed.

Lemma alter_absent {A} (f : A → A) (l : list A) (i : nat) :
  l !! i = None → alter f i l = l.
Proof.
  revert i. induction l as [| x l IH]; intros [| i] Hi; try done.
  cbn in *. f_equal. by apply IH.
Qed.

Lemma rowState_forced (v : bool) (r : Row) : rowState (forced v r) = v.
Proof.
  unfold rowState, forced; cbn [aria_checked input aria_pressed].
  destruct v; cbn [boolToString]; [done |].
  by destruct (input r), (aria_pressed r).
Qed.

Lemma react_other_event (c : nat) (e : DomEvent) (d : list Row) :
  e ∈ [MouseEvent "mousedown"; MouseEvent "mouseup"; KeyboardEvent "keydown" " " "Space"] →
  react (Host := clickHost) (IDispatch c e) d = d.
Proof.
  intros He. cbn [react clickHost host pageReact].
  repeat (apply elem_of_cons in He as [-> | He]); [| | | by apply not_elem_of_nil in He];
    cbn [eventType]; case_bool_decide as Hin; try done; set_solver.
Qed.

Lemma react_click_event (c : nat) (d : list Row) :
  react (Host := clickHost) (IDispatch c (MouseEvent "click")) d = alter flip c d.
Proof.
  cbn [react clickHost host pageReact eventType target].
  case_bool_decide as Hin; [done | set_solver].
Qed.

Lemma dom_dispatchMouseEvents (c : nat) (w : @World (list Row) nat) :
  dom (dispatchMouseEvents (H := clickHost) c w) = alter flip c (dom w).
Proof.
  unfold dispatchMouseEvents. cbn [foldl interact dom].
  rewrite react_click_event, !react_other_event by set_solver. done.
Qed.

Lemma dom_dispatchKeyEvent (c : nat) (w : @World (list Row) nat) :
  dom (dispatchKeyEvent (H := clickHost) c w) = dom w.
Proof.
  unfold dispatchKeyEvent. cbn [interact dom]. by rewrite react_other_event by set_solver.
Qed.

(** The direct mutations on a row that has the [aria-checked] attribute. *)
Lemma dom_setStateDirectly (c : nat) (v : bool) (w : @World (list Row) nat) (r : Row) :
  dom w !! c = Some r → is_Some (aria_checked r) →
  dom (setStateDirectly (H := clickHost) c v w) = alter (forced v) c (dom w).
Proof.
  intros Hr [a Ha]. destruct r as [rid rname ac [p |] [b |]]; cbn in Ha; subst ac.
  all: unfold setStateDirectly, hasAttribute.
  all: cbn [getAttribute typeProp clickHost host].
  all: rewrite Hr; cbn -[alter].
  all: rewrite ?list_lookup_alter_eq, ?Hr; cbn -[alter].
  all: rewrite ?list_lookup_alter_eq, ?Hr; cbn -[alter].
  all: rewrite ?list_lookup_alter_eq, ?Hr; cbn -[alter].
  all: first [rewrite bool_decide_true by done | rewrite bool_decide_false by done].
  all: cbn -[alter].
  all: rewrite ?list_alter_alter_eq.
  all: apply list_alter_ext; [| done].
  all: intros r' Hr'; rewrite Hr in Hr'; injection Hr' as <-.
  all: done.
Qed.

Lemma dom_setStateDirectly_absent (c : nat) (v : bool) (w : @World (list Row) nat) :
  dom w !! c = None → dom (setStateDirectly (H := clickHost) c v w) = dom w.
Proof.
  intros Hr. unfold setStateDirectly, hasAttribute.
  cbn [getAttribute typeProp clickHost host]. rewrite Hr. cbn. rewrite ?Hr. cbn.
  rewrite ?Hr. by cbn.
Qed.

(** The document [forceCalendarState] leaves on the page that toggles on
    [click]. *)
Lemma force_alters (c : nat) (v : bool) (w : @World (list Row) nat) :
  dom (forceCalendarState (H := clickHost) c v w) = alter (forced v) c (dom w).
Proof.
  unfold forceCalendarState.
  set (w2 := dispatchKeyEvent c (dispatchMouseEvents c w)).
  assert (H2 : dom w2 = alter flip c (dom w))
    by (unfold w2; by rewrite dom_dispatchKeyEvent, dom_dispatchMouseEvents).
  destruct (dom w !! c) as [r |] eqn:Hr.
  - rewrite (dom_setStateDirectly c v w2 (flip r)).
    + rewrite H2, list_alter_alter_eq. apply list_alter_ext; [| done].
      intros [rid rname ac [p |] [b |]] _; reflexivity.
    + by rewrite H2, list_lookup_alter_eq, Hr.
    + by eexists.
  - rewrite (alter_absent _ _ _ Hr). rewrite (alter_absent _ _ _ Hr) in H2.
    rewrite dom_setStateDirectly_absent; [done | by rewrite H2].
Qed.

(** On that page the fallback converges. *)
Lemma sidebar_force_converges : ForceConverges (H := clickHost).
Proof.
  split.
  - intros w c v. rewrite force_alters. split.
    + cbn. by rewrite length_alter.
    + intros e _. cbn.
      destruct (decide (e = c)) as [-> | Hne].
      * rewrite list_lookup_alter_eq. by destruct (dom w !! c).
      * by rewrite list_lookup_alter_ne.
  - intros w e c v _ Hcb. rewrite force_alters.
    cbn in Hcb. destruct (dom w !! e) as [r |] eqn:Hr; [| done].
    injection Hcb as <-.
    rewrite (isCalendarChecked_row ["click"]), list_lookup_alter_eq, Hr. apply rowState_forced.
  - intros w e e' c v _ _ Hcb Hne. rewrite force_alters.
    cbn in Hcb. destruct (dom w !! e) as [r |] eqn:Hr; [| done].
    injection Hcb as <-.
    by rewrite !(isCalendarChecked_row ["click"]), list_lookup_alter_ne.
Qed.

(** Every row has its checkbox. *)
Lemma sidebar_has_checkbox (listens : list string) : ScanHasCheckbox (H := host listens).
Proof.
  intros d e He. cbn in *. apply elem_of_seq in He as [_ He].
  destruct (lookup_lt_is_Some_2 d e) as [r ->]; [lia | by eexists].
Qed.

End SidebarLemmas.

(** ** The scan of a document *)

Section DocumentLemmas.
Import Html.

(** Induction on a node, with the property known of the child nodes. *)
Lemma Node_children_ind (P : Node → Prop) :
  (∀ data, P (Text data)) →
  (∀ tag attrs c cs, Forall P cs → P (Element tag attrs c cs)) →
  ∀ n, P n.
Proof.
  intros Htext Helement. fix IH 1. intros [data | tag attrs c cs]; [apply Htext |].
  apply Helement. induction cs as [| x cs IHcs]; constructor; [apply IH | apply IHcs].
Qed.

Lemma nodeAt_app (n : Node) (p r : Path) :
  nodeAt n (p ++ r) = nodeAt n p ≫= λ m, nodeAt m r.
Proof.
  revert n. induction p as [| i p IH]; intros n; [done |].
  cbn [app nodeAt]. destruct (childNodesOf n !! i) as [c |]; [apply IH | done].
Qed.

(** The entries of [childDescendants]: a child element itself, or an element
    below a child. *)
Lemma elem_of_childDescendants (below : Node → list (Path * Node)) (i : nat)
    (cs : list Node) (r : Path) (n : Node) :
  (r, n) ∈ childDescendants below i cs ↔
  ∃ j c, cs !! j = Some c
         ∧ ((r = [i + j] ∧ n = c ∧ isElement c = true)
            ∨ ∃ r', r = (i + j) :: r' ∧ (r', n) ∈ below c).
Proof.
  revert i. induction cs as [| c cs IH]; intros i.
  { split; [by intros ?%not_elem_of_nil | by intros (j & c & ? & _)]. }
  cbn [childDescendants]. rewrite !elem_of_app, list_elem_of_fmap, IH. split.
  - intros [Hself | [(pn & Heq & Hin) | (j & c' & Hj & Hcase)]].
    + exists 0, c. split; [done |]. left. rewrite Nat.add_0_r.
      destruct (isElement c); [| by apply not_elem_of_nil in Hself].
      apply list_elem_of_singleton in Hself. by injection Hself as -> ->.
    + exists 0, c. split; [done |]. right. rewrite Nat.add_0_r.
      destruct pn as [r' n']. injection Heq as -> ->. by exists r'.
    + exists (S j), c'. split; [done |]. by rewrite Nat.add_succ_r.
  - intros ([| j] & c' & Hj & Hcase).
    + cbn in Hj. injection Hj as <-. rewrite Nat.add_0_r in Hcase.
      destruct Hcase as [(-> & -> & Hel) | (r' & -> & Hin)].
      * left. rewrite Hel. by apply list_elem_of_singleton.
      * right; left. by exists (r', n).
    + right; right. exists j, c'. split; [done |]. by rewrite Nat.add_succ_r in Hcase.
Qed.

(** The descendants of a node are the elements its non-empty paths lead
    to. *)
Lemma elem_of_descendants (m : Node) (r : Path) (n : Node) :
  (r, n) ∈ descendants m ↔ nodeAt m r = Some n ∧ isElement n = true ∧ r ≠ [].
Proof.
  revert r n. induction m as [data | tag attrs c cs IH] using Node_children_ind; intros r n.
  { cbn. split; [by intros ?%not_elem_of_nil |].
    intros (Hn & _ & Hr). destruct r as [| i r]; [done |]. cbn in Hn. done. }
  cbn [descendants]. rewrite elem_of_childDescendants. split.
  - intros (j & c' & Hj & [(-> & -> & Hel) | (r' & -> & Hin)]); cbn [nodeAt childNodesOf Nat.add].
    + rewrite Hj. done.
    + rewrite Hj. cbn. rewrite Forall_lookup in IH. apply (IH j c' Hj) in Hin as (? & ? & ?). done.
  - intros (Hn & Hel & Hr). destruct r as [| j r']; [done |].
    cbn [nodeAt childNodesOf] in Hn.
    destruct (cs !! j) as [c' |] eqn:Hj; [| done]. cbn in Hn.
    exists j, c'. split; [done |]. cbn [Nat.add].
    destruct r' as [| k r''].
    + left. cbn in Hn. injection Hn as ->. done.
    + right. exists (k :: r''). split; [done |].
      rewrite Forall_lookup in IH. by apply (IH j c' Hj).
Qed.

Lemma elem_of_elementsOf (document : Node) (q : Path) (n : Node) :
  (q, n) ∈ elementsOf document ↔ nodeAt document q = Some n ∧ isElement n = true.
Proof.
  unfold elementsOf. rewrite elem_of_app, elem_of_descendants. split.
  - intros [Hroot | (? & ? & _)]; [| done].
    destruct (isElement document) eqn:Hel; [| by apply not_elem_of_nil in Hroot].
    apply list_elem_of_singleton in Hroot. by injection Hroot as -> ->.
  - intros [Hn Hel]. destruct q as [| i q]; [| by right].
    left. cbn in Hn. injection Hn as ->. rewrite Hel. by apply list_elem_of_singleton.
Qed.

Lemma elem_of_documentQuerySelectorAll (document : Node) (sel : Selector) (q : Path) :
  q ∈ documentQuerySelectorAll document sel ↔
  ∃ n, nodeAt document q = Some n ∧ isElement n = true ∧ matches sel n = true.
Proof.
  unfold documentQuerySelectorAll. rewrite list_elem_of_fmap. split.
  - intros ([q' n] & -> & Hin). apply list_elem_of_filter in Hin as [Hm Hin].
    apply elem_of_elementsOf in Hin as [Hn Hel]. exists n. cbn in *.
    by rewrite (Is_true_true_1 _ Hm).
  - intros (n & Hn & Hel & Hm). exists (q, n). split; [done |].
    apply list_elem_of_filter. split; [cbn; by rewrite Hm | by apply elem_of_elementsOf].
Qed.

Lemma elem_of_querySelectorAllAt (document : Node) (element : Path) (sel : Selector) (q : Path) :
  q ∈ querySelectorAllAt document element sel ↔
  ∃ m r n, nodeAt document element = Some m ∧ q = element ++ r
           ∧ (r, n) ∈ descendants m ∧ matches sel n = true.
Proof.
  unfold querySelectorAllAt. destruct (nodeAt document element) as [m |].
  - rewrite list_elem_of_fmap. split.
    + intros ([r n] & -> & Hin). apply list_elem_of_filter in Hin as [Hm Hin].
      exists m, r, n. cbn in *. by rewrite (Is_true_true_1 _ Hm).
    + intros (m' & r & n & [= <-] & -> & Hin & Hm). exists (r, n). split; [done |].
      apply list_elem_of_filter. split; [cbn; by rewrite Hm | done].
  - split; [by intros ?%not_elem_of_nil | by intros (? & ? & ? & ? & _)].
Qed.

(** What an element finds below itself, the document finds too. *)
Lemma querySelectorAllAt_document (document : Node) (element : Path) (sel : Selector) (q : Path) :
  q ∈ querySelectorAllAt document element sel → q ∈ documentQuerySelectorAll document sel.
Proof.
  intros (m & r & n & Hm & -> & Hin & Hsel)%elem_of_querySelectorAllAt.
  apply elem_of_descendants in Hin as (Hn & Hel & _).
  apply elem_of_documentQuerySelectorAll. exists n.
  by rewrite nodeAt_app, Hm.
Qed.

Lemma querySelectorAt_document (document : Node) (element : Path) (sel : Selector) (q : Path) :
  querySelectorAt document element sel = Some q → q ∈ documentQuerySelectorAll document sel.
Proof.
  unfold querySelectorAt. intros Hq.
  apply querySelectorAllAt_document with element.
  destruct (querySelectorAllAt document element sel) as [| x l]; [done |].
  cbn in Hq. injection Hq as ->. left.
Qed.

End DocumentLemmas.

Section ScanLemmas.
Import Html CalendarDOM.

Lemma extends_refl (document : Node) (elements : list Path) :
  extends document elements elements.
Proof. by repeat split. Qed.

Lemma extends_trans (document : Node) (e1 e2 e3 : list Path) :
  extends document e1 e2 → extends document e2 e3 → extends document e1 e3.
Proof.
  intros (M1 & C1 & N1 & S1) (M2 & C2 & N2 & S2). repeat split; auto.
  intros Hall. rewrite S2, S1; [done | done |].
  rewrite S1; done.
Qed.

Lemma foldl_extends {B} (document : Node) (f : list Path → B → list Path)
    (l : list B) (elements : list Path) :
  (∀ a b, b ∈ l → extends document a (f a b)) →
  extends document elements (foldl f elements l).
Proof.
  revert elements. induction l as [| b l IH]; intros elements Hf; [apply extends_refl |].
  cbn [foldl]. apply extends_trans with (f elements b).
  - apply Hf. left.
  - apply IH. intros a b' Hb'. apply Hf. by right.
Qed.

Lemma elem_of_setAdd (x container : Path) (elements : list Path) :
  x ∈ setAdd container elements ↔ x ∈ elements ∨ x = container.
Proof.
  unfold setAdd. case_bool_decide as Hin.
  - split; [by left | by intros [? | ->]].
  - by rewrite elem_of_app, list_elem_of_singleton.
Qed.

Lemma NoDup_setAdd (container : Path) (elements : list Path) :
  NoDup elements → NoDup (setAdd container elements).
Proof.
  intros Hnd. unfold setAdd. case_bool_decide as Hin; [done |].
  apply NoDup_app. split; [done |]. split; [| apply NoDup_singleton].
  intros x Hx ->%list_elem_of_singleton. done.
Qed.

Lemma elem_of_addCalendarOf (document : Node) (elements : list Path) (checkbox x : Path) :
  x ∈ addCalendarOf document elements checkbox ↔
  x ∈ elements
  ∨ (findCalendarContainer document checkbox = Some x ∧ isCalendarItem document x = true).
Proof.
  unfold addCalendarOf.
  destruct (findCalendarContainer document checkbox) as [container |];
    [| split; [by left | by intros [? | [? _]]]].
  destruct (isCalendarItem document container) eqn:Hitem.
  - rewrite elem_of_setAdd. split.
    + intros [? | ->]; [by left | by right].
    + intros [? | [[= ->] _]]; [by left | by right].
  - split; [by left |]. intros [? | [[= ->] ?]]; [done | congruence].
Qed.

Lemma addCalendarOf_extends (document : Node) (elements : list Path) (checkbox : Path) :
  checkbox ∈ documentQuerySelectorAll document checkboxSelector →
  extends document elements (addCalendarOf document elements checkbox).
Proof.
  intros Hcb. repeat split.
  - intros x Hx. apply elem_of_addCalendarOf. by left.
  - intros Hall x [Hx | [Hc Ha]]%elem_of_addCalendarOf; [by apply Hall |].
    by exists checkbox.
  - intros Hnd. unfold addCalendarOf.
    destruct (findCalendarContainer document checkbox); [| done].
    destruct (isCalendarItem document _); [by apply NoDup_setAdd | done].
  - intros Hall. unfold addCalendarOf.
    destruct (findCalendarContainer document checkbox) as [container |] eqn:Hc; [| done].
    destruct (isCalendarItem document container) eqn:Ha; [| done].
    unfold setAdd. rewrite bool_decide_true; [done |].
    apply Hall. by exists checkbox.
Qed.

Lemma addCalendarsBelow_extends (document : Node) (element : Path) (elements : list Path) :
  extends document elements
    (foldl (addCalendarOf document) elements
           (querySelectorAllAt document element checkboxSelector)).
Proof.
  apply foldl_extends. intros a cb Hcb. apply addCalendarOf_extends.
  by apply querySelectorAllAt_document with element.
Qed.

Lemma findCalendarsInSections_extends (document : Node) (elements : list Path) :
  extends document elements (findCalendarsInSections document elements).
Proof.
  apply foldl_extends. intros a selector _.
  destruct (documentQuerySelector document selector);
    [apply addCalendarsBelow_extends | apply extends_refl].
Qed.

Lemma findCalendarsFromCheckboxes_extends (document : Node) (elements : list Path) :
  extends document elements (findCalendarsFromCheckboxes document elements).
Proof.
  apply foldl_extends. intros a cb Hcb. by apply addCalendarOf_extends.
Qed.

Lemma findCalendarsInSidebar_extends (document : Node) (elements : list Path) :
  extends document elements (findCalendarsInSidebar document elements).
Proof.
  apply foldl_extends. intros a selector _.
  destruct (documentQuerySelector document selector);
    [apply addCalendarsBelow_extends | apply extends_refl].
Qed.

Lemma findCalendarsWithGooglePatterns_extends (snapshotOrder : list Path → list Path)
    (document : Node) (elements : list Path) :
  extends document elements
    (findCalendarsWithGooglePatterns snapshotOrder document elements).
Proof.
  unfold findCalendarsWithGooglePatterns. cbv zeta.
  match goal with
  | |- extends _ _ (foldl _ (foldl ?g ?e ?l) _) => apply extends_trans with (foldl g e l)
  end.
  - apply foldl_extends. intros a pattern _. apply foldl_extends. intros a' element _.
    destruct (querySelectorAt document element checkboxSelector) as [cb |] eqn:Hcb;
      [| apply extends_refl].
    apply addCalendarOf_extends. by apply querySelectorAt_document with element.
  - apply foldl_extends. intros a pattern _. apply foldl_extends. intros a' element _.
    destruct (parentElement element);
      [apply addCalendarsBelow_extends | apply extends_refl].
Qed.

Lemma foldl_addCalendarOf_keeps (document : Node) (l elements : list Path) (x : Path) :
  x ∈ elements → x ∈ foldl (addCalendarOf document) elements l.
Proof.
  revert elements. induction l as [| cb l IH]; intros elements Hx; [done |].
  cbn [foldl]. apply IH, elem_of_addCalendarOf. by left.
Qed.

(** The second approach finds every calendar of the document. *)
Lemma findCalendarsFromCheckboxes_complete (document : Node) (elements : list Path) (x : Path) :
  calendarOf document x → x ∈ findCalendarsFromCheckboxes document elements.
Proof.
  intros (cb & Hcb & Hc & Ha). unfold findCalendarsFromCheckboxes.
  revert elements. induction (documentQuerySelectorAll document checkboxSelector)
    as [| cb' l IH]; intros elements; [by apply not_elem_of_nil in Hcb |].
  cbn [foldl]. apply elem_of_cons in Hcb as [<- | Hcb]; [| by apply IH].
  apply foldl_addCalendarOf_keeps, elem_of_addCalendarOf. by right.
Qed.

(** The scan returns the calendars of the document, each once, whatever the
    order of the XPath snapshots. *)
Lemma getCalendarElements_spec (snapshotOrder : list Path → list Path) (document : Node) :
  NoDup (getCalendarElements snapshotOrder document)
  ∧ ∀ x, x ∈ getCalendarElements snapshotOrder document ↔ calendarOf document x.
Proof.
  unfold getCalendarElements. cbv zeta.
  set (e1 := findCalendarsInSections document []).
  set (e2 := findCalendarsFromCheckboxes document e1).
  set (e3 := findCalendarsInSidebar document e2).
  set (e4 := findCalendarsWithGooglePatterns snapshotOrder document e3).
  assert (H12 : extends document [] e2).
  { eapply extends_trans; [apply findCalendarsInSections_extends |].
    apply findCalendarsFromCheckboxes_extends. }
  assert (H24 : extends document e2 e4).
  { eapply extends_trans; [apply findCalendarsInSidebar_extends |].
    apply findCalendarsWithGooglePatterns_extends. }
  destruct (extends_trans _ _ _ _ H12 H24) as (_ & C & N & _).
  split; [apply N, NoDup_nil_2 |]. intros x. split.
  - apply C. by intros y ?%not_elem_of_nil.
  - intros Hx. destruct H24 as (M & _ & _). apply M.
    by apply findCalendarsFromCheckboxes_complete.
Qed.

(** The sweep of every checkbox of the page has found every calendar when
    the third and the fourth approach run: they add nothing, and the scan is
    what the first two approaches return. *)
Lemma getCalendarElements_first_two (snapshotOrder : list Path → list Path) (document : Node) :
  getCalendarElements snapshotOrder document =
  findCalendarsFromCheckboxes document (findCalendarsInSections document []).
Proof.
  unfold getCalendarElements. cbv zeta.
  set (e2 := findCalendarsFromCheckboxes document (findCalendarsInSections document [])).
  assert (H24 : extends document e2
            (findCalendarsWithGooglePatterns snapshotOrder document
               (findCalendarsInSidebar document e2))).
  { eapply extends_trans; [apply findCalendarsInSidebar_extends |].
    apply findCalendarsWithGooglePatterns_extends. }
  destruct H24 as (_ & _ & _ & S). apply S.
  intros x Hx. by apply findCalendarsFromCheckboxes_complete.
Qed.

(** The order in which the XPath snapshots list their nodes does not show
    in the scan. *)
Lemma getCalendarElements_order (order1 order2 : list Path → list Path) (document : Node) :
  getCalendarElements order1 document = getCalendarElements order2 document.
Proof. by rewrite !getCalendarElements_first_two. Qed.

Lemma head_filter_is_Some {A} (P : A → Prop) `{∀ x, Decision (P x)} (l : list A) :
  is_Some (head (filter P l)) ↔ ∃ x, x ∈ l ∧ P x.
Proof.
  split.
  - intros [x Hx]. exists x.
    assert (Hf : x ∈ filter P l).
    { destruct (filter P l) as [| y l']; [done |]. cbn in Hx. injection Hx as ->. left. }
    apply list_elem_of_filter in Hf as [? ?]. done.
  - intros (x & Hin & Hx).
    assert (Hf : x ∈ filter P l) by (by apply list_elem_of_filter).
    destruct (filter P l); [by apply not_elem_of_nil in Hf | by eexists].
Qed.

Lemma querySelectorAt_is_Some (document : Node) (element : Path) (el : Node) (sel : Selector) :
  nodeAt document element = Some el →
  is_Some (querySelectorAt document element sel) ↔ is_Some (querySelector el sel).
Proof.
  intros Hel. unfold querySelectorAt, querySelectorAllAt, querySelector. rewrite Hel.
  destruct (querySelectorAll el sel); cbn; split; intros [? ?]; done || by eexists.
Qed.

(** An element [isCalendarItem] accepts has a checkbox for
    [getCheckboxElement]. *)
Lemma isCalendarItem_has_checkbox (document : Node) (element : Path) :
  isCalendarItem document element = true →
  is_Some (getCheckboxElement document element).
Proof.
  unfold isCalendarItem. destruct (nodeAt document element) as [el |] eqn:Hel; [| done].
  destruct (matches checkboxSelector el
            || bool_decide (is_Some (querySelector el checkboxSelector))) eqn:Hhas;
    [| done].
  intros _. unfold getCheckboxElement.
  destruct (querySelectorAt document element [[ByAttrEq "role" "checkbox"]]) as [c |] eqn:H1;
    [by eexists |].
  destruct (querySelectorAt document element [[ByTag "input"; ByAttrEq "type" "checkbox"]])
    as [c |] eqn:H2; [by eexists |].
  assert (Hself : matchesAt document element checkboxSelector = true).
  { unfold matchesAt. rewrite Hel.
    apply orb_true_iff in Hhas as [Hm | Hq]; [done |].
    apply bool_decide_eq_true in Hq. unfold querySelector, querySelectorAll in Hq.
    apply head_filter_is_Some in Hq as ([r n] & Hin & Hm). cbn [snd] in Hm.
    apply Is_true_true_1 in Hm. unfold matches, checkboxSelector in Hm.
    cbn [existsb] in Hm. rewrite orb_false_r in Hm.
    apply orb_true_iff in Hm as [Hinput | Hrole].
    - assert (Hsome : is_Some (querySelectorAt document element
                                 [[ByTag "input"; ByAttrEq "type" "checkbox"]])).
      { apply (querySelectorAt_is_Some _ _ el); [done |].
        apply head_filter_is_Some. exists (r, n). split; [done |].
        cbn [snd]. unfold matches. cbn [existsb]. by rewrite Hinput. }
      rewrite H2 in Hsome. by destruct Hsome.
    - assert (Hsome : is_Some (querySelectorAt document element
                                 [[ByAttrEq "role" "checkbox"]])).
      { apply (querySelectorAt_is_Some _ _ el); [done |].
        apply head_filter_is_Some. exists (r, n). split; [done |].
        cbn [snd]. unfold matches. cbn [existsb]. by rewrite Hrole. }
      rewrite H1 in Hsome. by destruct Hsome. }
  rewrite Hself. by eexists.
Qed.

(** Whatever the page does, every element its scan returns has a
    checkbox. *)
Lemma page_has_checkbox (snapshotOrder : list Path → list Path)
    (reaction : Interaction Path → Node → Node) :
  ScanHasCheckbox (H := Page.host snapshotOrder reaction).
Proof.
  intros document e He. cbn [getCalendarElements Page.host] in He.
  apply getCalendarElements_spec in He as (_ & _ & _ & Hitem).
  by apply isCalendarItem_has_checkbox.
Qed.

End ScanLemmas.

(** ** The group state machine *)

Section ManagerClaims.
Context {Dom Elt : Type} `{Host Dom Elt} `{EqDecision Elt}.

Local Abbreviation World := (@World Dom Elt).

Lemma isCalendarChecked_no_checkbox (d : Dom) (e : Elt) :
  getCheckboxElement d e = None → isCalendarChecked d e = false.
Proof. unfold isCalendarChecked. by intros ->. Qed.

(** The two loops of an activation, one after the other. *)
Lemma hide_then_show_spec (calendarIds : list string) (w : World) :
  Converges →
  let w2 := showCalendarsInGroup calendarIds (hideAllCalendars w) in
  sameScan (dom w) (dom w2)
  ∧ ∀ e, e ∈ getCalendarElements (dom w) →
      isCalendarChecked (dom w2) e =
      bool_decide (getCalendarId (dom w) e ∈ calendarIds)
      && bool_decide (is_Some (getCheckboxElement (dom w) e)).
Proof.
  intros Hc w2.
  destruct (hideAllCalendars_spec w Hc) as [S1 V1].
  destruct (showCalendarsInGroup_spec calendarIds (hideAllCalendars w) Hc) as [S2 V2].
  split; [by apply sameScan_trans with (dom (hideAllCalendars w)) |].
  intros e He. destruct S1 as [E1 P1]. destruct (P1 e He) as [I1 C1].
  unfold w2. rewrite V2 by (by rewrite E1). rewrite I1, C1, (V1 e He).
  by destruct (bool_decide (_ ∈ _)).
Qed.

(** A [groupId] that is neither a key of the stored groups nor a property
    name of [Object.prototype] gets the error response [Group not found],
    and the call changes nothing: the manager (active group, saved states),
    the document, the pending verifications and the log of interactions are
    the ones it started with. *)
Theorem unknown_group_is_rejected (stored : option (gmap string Group))
    (groupId : string) (st : Manager * World) :
  default ∅ stored !! groupId = None →
  groupId ∉ objectPrototypeKeys →
  handleToggleGroup stored groupId st = (Error "Group not found", st).
Proof.
  intros Hnone Hown. unfold handleToggleGroup, toggleGroup, getProperty.
  by rewrite Hnone, bool_decide_false.
Qed.

(** C5 fails for a [groupId] that names a property of [Object.prototype]:
    [groups[groupId]] is then a value of the prototype, the guard lets it
    through, and on a page with a calendar the call saves the states (when
    none are saved), hides every calendar and is answered with the
    [TypeError] of [showCalendarsInGroup]. *)
Theorem inherited_key_is_activated (stored : option (gmap string Group))
    (groupId : string) (m : Manager) (w : World) :
  Converges →
  default ∅ stored !! groupId = None →
  groupId ∈ objectPrototypeKeys →
  currentActiveGroup m ≠ Some groupId →
  getCalendarElements (dom w) ≠ [] →
  handleToggleGroup stored groupId (m, w)
  = (Error "Cannot read properties of undefined (reading 'includes')",
     ({| currentActiveGroup := currentActiveGroup m;
         originalCalendarStates :=
           if bool_decide (size (originalCalendarStates m) = 0)
           then saveCurrentCalendarStates w (originalCalendarStates m)
           else originalCalendarStates m;
         isInitialized := isInitialized m |},
      hideAllCalendars w))
  ∧ ∀ e, e ∈ getCalendarElements (dom w) →
      isCalendarChecked (dom (hideAllCalendars w)) e = false.
Proof.
  intros Hc Hnone Hkey Hother Hcal. split.
  - unfold handleToggleGroup, toggleGroup, getProperty.
    rewrite Hnone, bool_decide_true, bool_decide_false by done.
    cbn [calendarsOf showCalendarsOf].
    destruct (hideAllCalendars_spec w Hc) as [[E _] _]. rewrite E.
    by destruct (getCalendarElements (dom w)).
  - intros e He. destruct (hideAllCalendars_spec w Hc) as [_ V]. by apply V.
Qed.

(** C4.  For a stored group that is the active one, [toggleGroup] does what
    [showAllCalendars] does and nothing else: the restore loop runs, the
    saved states are cleared and no group is active; the popup is told
    [activeGroup: null].  Hence a second [toggleGroup] of the group just
    activated is a [showAllCalendars]. *)
Theorem toggle_active_group_is_restore (stored : option (gmap string Group))
    (groupId : string) (group : Group) (m : Manager) (w : World) :
  default ∅ stored !! groupId = Some group →
  (currentActiveGroup m = Some groupId →
     toggleGroup stored groupId (m, w) = (Returned, showAllCalendars (m, w))
     ∧ handleToggleGroup stored groupId (m, w)
       = (ToggleSuccess None, (handleShowAllCalendars (m, w)).2)
     ∧ currentActiveGroup (showAllCalendars (m, w)).1 = None
     ∧ originalCalendarStates (showAllCalendars (m, w)).1 = ∅)
  ∧ (currentActiveGroup m ≠ Some groupId →
     let st1 := (toggleGroup stored groupId (m, w)).2 in
     currentActiveGroup st1.1 = Some groupId
     ∧ toggleGroup stored groupId st1 = (Returned, showAllCalendars st1)).
Proof.
  intros Hg. split.
  - intros Hactive.
    assert (E : toggleGroup stored groupId (m, w) = (Returned, showAllCalendars (m, w))).
    { rewrite (toggleGroup_stored _ _ _ _ _ Hg). by rewrite bool_decide_true. }
    split; [done |]. split; [| done].
    unfold handleToggleGroup. by rewrite E.
  - intros Hother st1.
    assert (E1 : currentActiveGroup st1.1 = Some groupId).
    { unfold st1. rewrite (toggleGroup_stored _ _ _ _ _ Hg). by rewrite bool_decide_false. }
    split; [done |]. destruct st1 as [m1 w1]. rewrite (toggleGroup_stored _ _ _ _ _ Hg).
    by rewrite bool_decide_true.
Qed.

(** For a stored group, an answer that names it as the active group comes
    from the activation branch: the group was not the active one. *)
Lemma activation_answer (stored : option (gmap string Group)) (groupId : string)
    (group : Group) (st st' : Manager * World) :
  default ∅ stored !! groupId = Some group →
  handleToggleGroup stored groupId st = (ToggleSuccess (Some groupId), st') →
  currentActiveGroup st.1 ≠ Some groupId.
Proof.
  intros Hg. unfold handleToggleGroup. destruct st as [m w].
  rewrite (toggleGroup_stored _ _ _ _ _ Hg).
  case_bool_decide as Hactive; [done | by intros _].
Qed.


(** C1, as the code has it.  On a page where toggles and their fallback
    converge and calendars that share an id are equally visible, activating
    a stored group from the idle state and then calling [showAllCalendars]
    on the unchanged page returns every calendar of the page to the
    visibility it had before the activation, and leaves the manager idle with
    no saved state.  This holds whether the pending verifications run
    between the two calls or after them, or not yet. *)
Theorem activate_then_restore (stored : option (gmap string Group))
    (groupId : string) (group : Group) (m : Manager) (w : World) (run1 run2 : bool) :
  Converges → ForceConverges →
  currentActiveGroup m = None → originalCalendarStates m = ∅ → InStep w →
  default ∅ stored !! groupId = Some group →
  (∀ e1 e2, e1 ∈ getCalendarElements (dom w) → e2 ∈ getCalendarElements (dom w) →
     getCalendarId (dom w) e1 = getCalendarId (dom w) e2 →
     isCalendarChecked (dom w) e1 = isCalendarChecked (dom w) e2) →
  let st1 := (toggleGroup stored groupId (m, w)).2 in
  let st2 := showAllCalendars (st1.1, settle run1 st1.2) in
  (∀ e, e ∈ getCalendarElements (dom w) →
     isCalendarChecked (dom (settle run2 st2.2)) e = isCalendarChecked (dom w) e)
  ∧ currentActiveGroup st2.1 = None
  ∧ originalCalendarStates st2.1 = ∅.
Proof.
  intros Hc Hf Hidle Hempty Hstep Hg Hids st1 st2.
  unfold st2, st1. rewrite (toggleGroup_stored _ _ _ _ _ Hg), Hidle, bool_decide_false by done.
  rewrite Hempty, map_size_empty, bool_decide_true by done.
  cbn [snd fst showAllCalendars originalCalendarStates currentActiveGroup].
  split; [| done].
  set (w1 := showCalendarsInGroup (calendars group) (hideAllCalendars w)).
  destruct (hide_then_show_spec (calendars group) w Hc) as [[E1 P1] V1].
  fold w1 in E1, P1, V1.
  assert (I1 : InStep w1)
    by (by apply showCalendarsInGroup_InStep; [| apply hideAllCalendars_InStep]).
  destruct (settle_spec run1 w1 Hf I1) as ([E2 P2] & V2 & I2).
  set (w2 := settle run1 w1) in *.
  destruct (restore_loop_spec (saveCurrentCalendarStates w ∅) w2 Hc) as [[E3 P3] V3].
  pose proof (restore_loop_InStep (saveCurrentCalendarStates w ∅) w2 Hc I2) as I3.
  set (w3 := foldl _ w2 _) in *.
  destruct (settle_spec run2 w3 Hf I3) as (_ & V4 & _).
  intros e He.
  assert (He1 : e ∈ getCalendarElements (dom w1)) by (by rewrite E1).
  assert (He2 : e ∈ getCalendarElements (dom w2)) by (by rewrite E2).
  assert (He3 : e ∈ getCalendarElements (dom w3)) by (by rewrite E3).
  rewrite (V4 e He3), (V3 e He2). unfold aim.
  destruct (P2 e He1) as [-> ->]. destruct (P1 e He) as [-> ->].
  destruct (getCheckboxElement (dom w) e) as [c |] eqn:Hcb.
  - destruct (saveCurrentCalendarStates_lookup w ∅ e He) as (e' & He' & Hid & ->).
    by apply Hids.
  - rewrite (isCalendarChecked_no_checkbox (dom w) e Hcb).
    rewrite (V2 e He1), (V1 e He), Hcb. apply andb_false_r.
Qed.



End ManagerClaims.

(** ** The visibility controller *)

Section ControllerClaims.
Context {Dom Elt : Type} `{Host Dom Elt}.

Local Abbreviation World := (@World Dom Elt).

(** C6, as the code has it.  [isCalendarChecked] reports a calendar visible
    exactly when its element has a checkbox and at least one of the three
    signals says so: the [aria-checked] attribute is [true], the [checked]
    property is [true], or the [aria-pressed] attribute is [true].  No
    signal takes precedence: whenever the first signal present says visible,
    so does the code, and the code also says visible when a later one does. *)
Theorem isCalendarChecked_any_signal (d : Dom) (calendarElement : Elt) :
  (isCalendarChecked d calendarElement = true ↔
     ∃ checkbox, getCheckboxElement d calendarElement = Some checkbox
       ∧ (getAttribute d checkbox "aria-checked" = Some "true"
          ∨ checkedProp d checkbox = Some true
          ∨ getAttribute d checkbox "aria-pressed" = Some "true"))
  ∧ (firstPresentSignal d calendarElement = true →
     isCalendarChecked d calendarElement = true).
Proof.
  unfold isCalendarChecked, firstPresentSignal, checkboxState. split.
  - destruct (getCheckboxElement d calendarElement) as [c |]; split.
    + intros Hor. exists c. split; [done |].
      apply orb_true_iff in Hor as [Hor | Hp]; [apply orb_true_iff in Hor as [Ha | Hc] |].
      * left. by apply bool_decide_eq_true in Ha.
      * right; left. by apply bool_decide_eq_true in Hc.
      * right; right. by apply bool_decide_eq_true in Hp.
    + intros (c' & [= <-] & [Ha | [Hc | Hp]]).
      * by rewrite Ha.
      * rewrite Hc. apply orb_true_iff. left. apply orb_true_r.
      * rewrite Hp. apply orb_true_r.
    + done.
    + by intros (c' & ? & _).
  - destruct (getCheckboxElement d calendarElement) as [c |]; [| done].
    destruct (checkedProp d c) as [[] |]; [by rewrite orb_true_r | done |].
    destruct (getAttribute d c "aria-checked") as [a |].
    + intros ->%bool_decide_eq_true. done.
    + destruct (getAttribute d c "aria-pressed") as [p |]; [| done].
      intros ->%bool_decide_eq_true. done.
Qed.

Lemma setStateDirectly_log (checkbox : Elt) (visible : bool) (w : World) :
  ∃ direct, log (setStateDirectly checkbox visible w) = log w ++ direct
            ∧ direct `sublist_of` directMutations checkbox visible.
Proof.
  unfold setStateDirectly, directMutations.
  set (w1 := if hasAttribute (dom w) checkbox "aria-checked" then _ else _).
  set (w2 := if hasAttribute (dom w1) checkbox "aria-pressed" then _ else _).
  exists ((if hasAttribute (dom w) checkbox "aria-checked"
           then [ISetAttribute checkbox "aria-checked" (boolToString visible)] else [])
          ++ (if hasAttribute (dom w1) checkbox "aria-pressed"
              then [ISetAttribute checkbox "aria-pressed" (boolToString visible)] else [])
          ++ (if bool_decide (typeProp (dom w2) checkbox = Some "checkbox")
              then [ISetChecked checkbox visible] else [])).
  subst w2.
  destruct (bool_decide (typeProp _ checkbox = Some "checkbox"));
    destruct (hasAttribute (dom w1) checkbox "aria-pressed"); subst w1;
    destruct (hasAttribute (dom w) checkbox "aria-checked");
    cbn [interact log app]; rewrite <- ?(assoc_L (++)), ?app_nil_r; cbn [app];
    (split; [reflexivity |]);
    repeat first [apply sublist_nil | apply sublist_skip | apply sublist_cons].
Qed.


End ControllerClaims.

Section ControllerExamples.
Import Sidebar.

(** C6 as stated fails on that row: the property is present and says not
    visible, so the first present signal is [false]; the code reports the
    calendar visible. *)
Lemma later_signal_wins :
  firstPresentSignal (H := clickHost) [mixedRow] 0 = false
  ∧ isCalendarChecked (H := clickHost) [mixedRow] 0 = true.
Proof. vm_compute. done. Qed.


End ControllerExamples.

(** ** The name of a calendar *)

Section ResolverClaims.
Import Html CalendarDOM.

Lemma nonBlank_Some (v : string) :
  Js.trim v ≠ "" → nonBlank (Some v) = Some (Js.trim v).
Proof.
  intros Hv. unfold nonBlank, Js.truthy. cbn.
  by rewrite bool_decide_false.
Qed.


End ResolverClaims.

Section ResolverExamples.
Import Html CalendarDOM Page.



End ResolverExamples.

(** ** The list of calendars *)

Section ScanClaims.
Context {Dom Elt : Type} `{Host Dom Elt}.

Local Abbreviation World := (@World Dom Elt).

(** [handleGetCalendars] performs no interaction with the page and registers
    no callback, and its answer is the id, name and visibility of each
    scanned element: a function of the document, not of the manager. *)
Lemma handleGetCalendars_reads (m : Manager) (w : World) :
  (handleGetCalendars (m, w)).2.2 = w
  ∧ (handleGetCalendars (m, w)).1 =
    Calendars ((λ element,
                  {| calendar_id := getCalendarId (dom w) element;
                     calendar_name := getCalendarName (dom w) element;
                     calendar_visible := isCalendarChecked (dom w) element |})
               <$> getCalendarElements (dom w)).
Proof. by unfold handleGetCalendars. Qed.

End ScanClaims.

Section DocumentScanClaims.
Import Html.

(** C9.  Two [getCalendars] requests on a document, with nothing done to the
    page in between, are answered alike: the first leaves the page, its
    pending callbacks and its log as they are, and the second answers with
    the same list of ids, names and visibilities, whatever the state of the
    manager, whatever the order in which the browser lists the nodes of the
    XPath snapshots either time, and however the page would react to an
    interaction. *)
Theorem getCalendars_is_repeatable
    (order1 order2 : list Path → list Path)
    (reaction1 reaction2 : Interaction Path → Node → Node)
    (m1 m2 : Manager) (w : @World Node Path) :
  let r1 := handleGetCalendars (H := Page.host order1 reaction1) (m1, w) in
  let r2 := handleGetCalendars (H := Page.host order2 reaction2) (m2, r1.2.2) in
  r1.2.2 = w ∧ r2.2.2 = w ∧ r2.1 = r1.1.
Proof.
  intros r1 r2.
  destruct (handleGetCalendars_reads (H := Page.host order1 reaction1) m1 w) as [W1 A1].
  fold r1 in W1, A1.
  destruct (handleGetCalendars_reads (H := Page.host order2 reaction2) m2 r1.2.2)
    as [W2 A2].
  fold r2 in W2, A2. rewrite W1 in W2, A2.
  split; [done |]. split; [done |]. rewrite A1, A2.
  cbn [getCalendarElements getCalendarId getCalendarName Page.host].
  rewrite (getCalendarElements_order order2 order1). done.
Qed.

End DocumentScanClaims.

(** ** Further properties of the manager and the scan *)

Section FurtherManager.
Context {Dom Elt : Type} `{Host Dom Elt} `{EqDecision Elt}.

Local Abbreviation World := (@World Dom Elt).

(** On a page where toggles and their fallback converge, the verifications
    an activation leaves pending change nothing when they run: each calendar
    keeps the visibility the activation gave it, and none is pending
    afterwards. *)
Theorem verifications_keep_activation (stored : option (gmap string Group))
    (groupId : string) (group : Group) (m : Manager) (w : World) :
  Converges → ForceConverges → InStep w →
  default ∅ stored !! groupId = Some group →
  currentActiveGroup m ≠ Some groupId →
  let st1 := (toggleGroup stored groupId (m, w)).2 in
  timers (runTimers st1.2) = []
  ∧ ∀ e, e ∈ getCalendarElements (dom w) →
      isCalendarChecked (dom (runTimers st1.2)) e = isCalendarChecked (dom st1.2) e.
Proof.
  intros Hc Hf Hstep Hg Hother st1. unfold st1.
  rewrite (toggleGroup_stored _ _ _ _ _ Hg), bool_decide_false by done. cbn [snd].
  set (w1 := showCalendarsInGroup (calendars group) (hideAllCalendars w)).
  destruct (hide_then_show_spec (calendars group) w Hc) as [[E1 _] _]. fold w1 in E1.
  assert (I1 : InStep w1)
    by (by apply showCalendarsInGroup_InStep; [| apply hideAllCalendars_InStep]).
  destruct (runTimers_spec w1 Hf I1) as (_ & T & V & _).
  split; [done |]. intros e He. apply V. by rewrite E1.
Qed.


End FurtherManager.

Section FurtherScan.
Import Html.

(** The scan of a document is what its first two approaches find: the
    sweep of every checkbox is complete, so the sidebar and the pattern
    approaches add nothing.  It lists, each once, the containers of the
    checkboxes of the document that [isCalendarItem] accepts. *)
Theorem scan_is_the_checkbox_sweep (snapshotOrder : list Path → list Path)
    (document : Node) :
  CalendarDOM.getCalendarElements snapshotOrder document
  = CalendarDOM.findCalendarsFromCheckboxes document
      (CalendarDOM.findCalendarsInSections document [])
  ∧ NoDup (CalendarDOM.getCalendarElements snapshotOrder document)
  ∧ ∀ x, x ∈ CalendarDOM.getCalendarElements snapshotOrder document
         ↔ calendarOf document x.
Proof.
  split; [apply getCalendarElements_first_two | apply getCalendarElements_spec].
Qed.

(** The calendars the scan finds in the sample sidebar have a checkbox. *)
Lemma page_has_checkbox_witness :
  is_Some (CalendarDOM.getCheckboxElement Page.sidebar [1; 1; 0; 0]).
Proof.
  apply (page_has_checkbox (λ l, l) Page.widgets Page.sidebar [1; 1; 0; 0]).
  apply (bool_decide_unpack _). vm_compute. exact I.
Defined.

End FurtherScan.

(** ** The state machine at work on the sidebar page *)

Section ManagerExamples.
Import Sidebar.

Local Abbreviation run1 g st := ((toggleGroup (H := clickHost) (Some groups) g st).2).

(** The scenario of a session that switches groups: from A and C visible,
    group g1 shows A and B, group g2 then shows C alone, and the restore
    brings back A and C. *)
Example switch_session :
  let st0 := (newManager, page threeRows) in
  let st1 := run1 "g1" st0 in
  let st2 := run1 "g2" st1 in
  let st3 := showAllCalendars (H := clickHost) st2 in
  visibilities ["click"] st1.2 = [true; true; false]
  ∧ visibilities ["click"] st2.2 = [false; false; true]
  ∧ visibilities ["click"] st3.2 = [true; false; true]
  ∧ st3.1 = newManager.
Proof. vm_compute. done. Qed.

Lemma unknown_group_is_rejected_witness :
  handleToggleGroup (H := clickHost) (Some groups) "g9" (newManager, page threeRows)
  = (Error "Group not found", (newManager, page threeRows)).
Proof.
  apply unknown_group_is_rejected; [vm_compute; reflexivity |].
  apply (bool_decide_unpack _). vm_compute. exact I.
Defined.

(** The group id [constructor] on a page that stores no group of that
    name: the three calendars are hidden, their states are saved, no group
    is active, and the answer is the [TypeError]. *)
Lemma inherited_key_is_activated_witness :
  let r := handleToggleGroup (H := clickHost) (Some groups) "constructor"
             (newManager, page threeRows) in
  groups !! "constructor" = None
  ∧ r.1 = Error "Cannot read properties of undefined (reading 'includes')"
  ∧ visibilities ["click"] (page threeRows) = [true; false; true]
  ∧ visibilities ["click"] r.2.2 = [false; false; false]
  ∧ currentActiveGroup r.2.1 = None
  ∧ originalCalendarStates r.2.1 = {[ "A" := true; "B" := false; "C" := true ]}
  ∧ log r.2.2 = [IClick 0; IClick 2].
Proof.
  intros r.
  destruct (inherited_key_is_activated (H := clickHost) (Some groups) "constructor"
              newManager (page threeRows)
              (sidebar_converges ["click"] ltac:(set_solver))
              ltac:(vm_compute; reflexivity)
              ltac:(apply (bool_decide_unpack _); vm_compute; exact I)
              ltac:(discriminate) ltac:(discriminate)) as [E _].
  fold r in E. rewrite E. vm_compute. done.
Defined.

Lemma toggle_active_group_is_restore_witness :
  let m := (run1 "g1" (newManager, page threeRows)).1 in
  let w := (run1 "g1" (newManager, page threeRows)).2 in
  currentActiveGroup m = Some "g1"
  ∧ toggleGroup (H := clickHost) (Some groups) "g1" (m, w)
    = (Returned, showAllCalendars (H := clickHost) (m, w)).
Proof.
  intros m w. split; [vm_compute; reflexivity |].
  refine (proj1 (proj1 (toggle_active_group_is_restore (H := clickHost)
            (Some groups) "g1" {| groupName := "Morning"; calendars := ["A"; "B"] |}
            m w _) _)); vm_compute; reflexivity.
Defined.


(** The selection with the ghost id and the selection without it. *)
Example ghost_id_is_ignored :
  handleToggleGroup (H := clickHost) (Some groups) "g4" (newManager, page threeRows)
  = (ToggleSuccess (Some "g4"),
     ((toggleGroup (H := clickHost)
         (Some (<["g4" := {| groupName := "Ghost"; calendars := ["A"] |}]> groups))
         "g4" (newManager, page threeRows)).2)).
Proof. vm_compute. reflexivity. Qed.

Lemma activate_then_restore_witness :
  let st1 := run1 "g1" (newManager, page threeRows) in
  let st2 := showAllCalendars (H := clickHost) (st1.1, settle (H := clickHost) true st1.2) in
  (∀ e, e ∈ getCalendarElements (Host := clickHost) threeRows →
     isCalendarChecked (H := clickHost) (dom (settle (H := clickHost) true st2.2)) e
     = isCalendarChecked (H := clickHost) threeRows e)
  ∧ currentActiveGroup st2.1 = None
  ∧ originalCalendarStates st2.1 = ∅.
Proof.
  apply (activate_then_restore (H := clickHost) (Some groups) "g1"
           {| groupName := "Morning"; calendars := ["A"; "B"] |}
           newManager (page threeRows) true true
           (sidebar_converges ["click"] ltac:(set_solver))
           sidebar_force_converges
           eq_refl eq_refl (InStep_no_timers (H := clickHost) (page threeRows) eq_refl)
           ltac:(vm_compute; reflexivity)).
  intros e1 e2 H1 H2.
  apply elem_of_seq in H1 as [_ H1], H2 as [_ H2]. cbn in H1, H2.
  destruct e1 as [| [| [| e1]]]; [| | | lia];
    (destruct e2 as [| [| [| e2]]]; [| | | lia]); vm_compute; congruence.
Defined.

(** The pending verifications of that session, when they run: a calendar
    that was hidden and shown again is forced to hidden by the first of its
    two verifications and back to visible by the second. *)
Example verifications_after_activation :
  let st1 := run1 "g1" (newManager, page threeRows) in
  timers st1.2 = [(0, false); (2, false); (0, true); (1, true)]
  ∧ visibilities ["click"] (runTimers (H := clickHost) st1.2) = [true; true; false]
  ∧ log (runTimers (H := clickHost) st1.2)
    = [IClick 0; IClick 2; IClick 0; IClick 1]
      ++ forcedEvents 0 ++ [ISetAttribute 0 "aria-checked" "false"]
      ++ forcedEvents 0 ++ [ISetAttribute 0 "aria-checked" "true"].
Proof. vm_compute. done. Qed.

(** C1 as stated fails when two calendars share an id.  The two rows called
    Work have the same generated id; the first is visible, the second is not.
    The page satisfies [Converges] and [ForceConverges] and does not change,
    the group selects nothing, and after activation and restore the first
    row is hidden, before and after the pending verifications have run: the
    one saved state for the id is that of the second row.  The same on a
    document: [getCalendarId] derives one id for the two items called Work
    of the sample sidebar, the first items of their lists, and activating
    the group of Home and restoring leaves the first of them hidden. *)
Lemma round_trip_fails_on_shared_id :
  let st2 := showAllCalendars (H := clickHost) (run1 "g3" (newManager, page twoWork)) in
  let work1 := [1; 0; 0; 0] in
  let work2 := [1; 1; 0; 0] in
  let dt1 := (toggleGroup (H := Page.widgetHost) (Some Page.sidebarGroups) "home"
                (newManager, Page.atRest Page.sidebar)).2 in
  let dt2 := showAllCalendars (H := Page.widgetHost) dt1 in
  (Converges (H := clickHost) ∧ ForceConverges (H := clickHost)
   ∧ isCalendarChecked (H := clickHost) twoWork 0 = true
   ∧ isCalendarChecked (H := clickHost) (dom st2.2) 0 = false
   ∧ isCalendarChecked (H := clickHost) (dom (runTimers (H := clickHost) st2.2)) 0 = false)
  ∧ (getCalendarElements (Host := Page.widgetHost) Page.sidebar
       = [work1; [1; 0; 0; 1]; work2]
     ∧ getCalendarId (Host := Page.widgetHost) Page.sidebar work1 = "cal_work_work_0"
     ∧ getCalendarId (Host := Page.widgetHost) Page.sidebar work2 = "cal_work_work_0"
     ∧ currentActiveGroup dt1.1 = Some "home"
     ∧ isCalendarChecked (H := Page.widgetHost) Page.sidebar work1 = true
     ∧ isCalendarChecked (H := Page.widgetHost) (dom dt2.2) work1 = false
     ∧ isCalendarChecked (H := Page.widgetHost)
         (dom (runTimers (H := Page.widgetHost) dt2.2)) work1 = false).
Proof.
  split.
  - split; [apply sidebar_converges; set_solver |].
    split; [apply sidebar_force_converges |]. vm_compute. done.
  - vm_compute. done.
Qed.




Lemma verifications_keep_activation_witness :
  let st1 := run1 "g1" (newManager, page threeRows) in
  timers (runTimers (H := clickHost) st1.2) = []
  ∧ ∀ e, e ∈ getCalendarElements (Host := clickHost) threeRows →
      isCalendarChecked (H := clickHost) (dom (runTimers (H := clickHost) st1.2)) e
      = isCalendarChecked (H := clickHost) (dom st1.2) e.
Proof.
  apply (verifications_keep_activation (H := clickHost) (Some groups) "g1"
           {| groupName := "Morning"; calendars := ["A"; "B"] |}
           newManager (page threeRows)
           (sidebar_converges ["click"] ltac:(set_solver))
           sidebar_force_converges
           (InStep_no_timers (H := clickHost) (page threeRows) eq_refl)
           ltac:(vm_compute; reflexivity) ltac:(discriminate)).
Defined.


End ManagerExamples.

(** ** What the loops click *)

Section ClickLemmas.
Context {Dom Elt : Type} `{Host Dom Elt} `{EqDecision Elt}.
Local Abbreviation World := (@World Dom Elt).

Lemma applyWanted_clickOf (want : string → option bool) (w : World) (e : Elt) :
  Converges →
  applyWanted want w e =
  match clickOf want (dom w) e with
  | Some c => setTimeout (c, default false (want (getCalendarId (dom w) e)))
                (interact (IClick c) w)
  | None => w
  end.
Proof.
  intros Hc. unfold applyWanted, clickOf.
  destruct (getCheckboxElement (dom w) e) as [c |]; [| done].
  destruct (want (getCalendarId (dom w) e)) as [v |]; [| done].
  case_bool_decide; [| done].
  unfold toggleCalendarVisibility. by rewrite (click_returns Hc).
Qed.

Lemma applyWanted_loop_clicks (want : string → option bool) (l : list Elt) (w : World) :
  Converges → NoDup l → (∀ e, e ∈ l → e ∈ getCalendarElements (dom w)) →
  let w' := foldl (applyWanted want) w l in
  log w' = log w ++ (IClick <$> omap (clickOf want (dom w)) l)
  ∧ timers w' = timers w
      ++ omap (λ e, (λ c, (c, default false (want (getCalendarId (dom w) e))))
                      <$> clickOf want (dom w) e) l.
Proof.
  intros Hc. revert w. induction l as [| e0 l IH]; intros w Hnd Hl.
  { cbn. by rewrite !app_nil_r. }
  apply NoDup_cons in Hnd as [Hnotin Hnd].
  cbn [foldl].
  assert (He0 : e0 ∈ getCalendarElements (dom w)) by (apply Hl; left).
  destruct (applyWanted_step want w e0 Hc He0) as [[E P] V].
  assert (Hl' : ∀ e, e ∈ l → e ∈ getCalendarElements (dom (applyWanted want w e0))).
  { intros e He. rewrite E. apply Hl. by right. }
  destruct (IH (applyWanted want w e0) Hnd Hl') as [Hlog Htim].
  assert (Hsame : ∀ e, e ∈ l →
            clickOf want (dom (applyWanted want w e0)) e = clickOf want (dom w) e
            ∧ getCalendarId (dom (applyWanted want w e0)) e = getCalendarId (dom w) e).
  { intros e He. assert (Hin : e ∈ getCalendarElements (dom w)) by (apply Hl; by right).
    destruct (P e Hin) as [Hid Hcb]. split; [| done].
    unfold clickOf. rewrite Hid, Hcb, (V e Hin).
    rewrite decide_False; [done |]. intros ->. done. }
  assert (Hom1 : omap (clickOf want (dom (applyWanted want w e0))) l
                 = omap (clickOf want (dom w)) l).
  { clear -Hsame. induction l as [| e l IHl]; [done |]. cbn [omap list_omap].
    destruct (Hsame e) as [-> _]; [left |]. rewrite IHl; [done |].
    intros e' He'. apply Hsame. by right. }
  assert (Hom2 : omap (λ e, (λ c, (c, default false
                     (want (getCalendarId (dom (applyWanted want w e0)) e))))
                     <$> clickOf want (dom (applyWanted want w e0)) e) l
                 = omap (λ e, (λ c, (c, default false (want (getCalendarId (dom w) e))))
                     <$> clickOf want (dom w) e) l).
  { clear -Hsame. induction l as [| e l IHl]; [done |]. cbn [omap list_omap].
    destruct (Hsame e) as [-> ->]; [left |]. rewrite IHl; [done |].
    intros e' He'. apply Hsame. by right. }
  rewrite Hlog, Htim, Hom1, Hom2. rewrite (applyWanted_clickOf want w e0 Hc).
  cbn [omap list_omap].
  destruct (clickOf want (dom w) e0) as [c |]; cbn [fmap list_fmap option_fmap option_map];
    cbn [setTimeout interact log timers]; [| done].
  by rewrite <- !(assoc_L (++)).
Qed.

Lemma restore_nothing (w : World) (l : list Elt) :
  foldl (restoreCalendar ∅) w l = w.
Proof.
  induction l as [| e l IH]; [done |]. cbn [foldl].
  replace (restoreCalendar ∅ w e) with w; [done |].
  unfold restoreCalendar. rewrite lookup_empty.
  by destruct (getCheckboxElement (dom w) e).
Qed.

(** [showAllCalendars] with nothing saved touches nothing, and so a second
    [showAllCalendars] in a row does nothing more than the first. *)
Theorem showAllCalendars_idle (active : option string) (initialized : bool)
    (m : Manager) (w : World) :
  showAllCalendars ({| currentActiveGroup := active; originalCalendarStates := ∅;
                       isInitialized := initialized |}, w)
  = ({| currentActiveGroup := None; originalCalendarStates := ∅;
        isInitialized := initialized |}, w)
  ∧ showAllCalendars (showAllCalendars (m, w)) = showAllCalendars (m, w).
Proof.
  split.
  - unfold showAllCalendars. cbn [originalCalendarStates isInitialized].
    by rewrite restore_nothing.
  - unfold showAllCalendars at 1 2. cbn [originalCalendarStates isInitialized].
    by rewrite restore_nothing.
Qed.

Lemma isCalendarChecked_has_checkbox (d : Dom) (e : Elt) :
  isCalendarChecked d e = true → is_Some (getCheckboxElement d e).
Proof.
  unfold isCalendarChecked. destruct (getCheckboxElement d e); [by eexists | done].
Qed.

Lemma clickOf_hide (d : Dom) (e : Elt) :
  clickOf (λ _, Some false) d e = hideClick d e.
Proof.
  unfold clickOf, hideClick.
  destruct (getCheckboxElement d e) as [c |] eqn:Hcb.
  - destruct (isCalendarChecked d e); by case_bool_decide.
  - destruct (isCalendarChecked d e) eqn:Hv; [| done].
    apply isCalendarChecked_has_checkbox in Hv as [c Hc]. congruence.
Qed.

Lemma omap_ext_in {A B} (f g : A → option B) (l : list A) :
  (∀ x, x ∈ l → f x = g x) → omap f l = omap g l.
Proof.
  induction l as [| x l IH]; intros Hfg; [done |]. cbn [omap list_omap].
  rewrite (Hfg x) by left. rewrite IH; [done |]. intros y Hy. apply Hfg. by right.
Qed.

Lemma omap_fmap_inner {A B C} (f : A → option B) (g : B → C) (l : list A) :
  omap (λ x, g <$> f x) l = g <$> omap f l.
Proof.
  induction l as [| x l IH]; [done |]. cbn [omap list_omap].
  destruct (f x); cbn; by rewrite IH.
Qed.

Lemma hideAllCalendars_clicks (w : World) :
  Converges → NoDup (getCalendarElements (dom w)) →
  log (hideAllCalendars w)
    = log w ++ (IClick <$> omap (hideClick (dom w)) (getCalendarElements (dom w)))
  ∧ timers (hideAllCalendars w)
    = timers w ++ ((λ c, (c, false)) <$> omap (hideClick (dom w)) (getCalendarElements (dom w))).
Proof.
  intros Hc Hnd. unfold hideAllCalendars. cbv zeta.
  rewrite (foldl_ext_in hideCalendar (applyWanted (λ _, Some false)))
    by (intros; apply hideCalendar_applyWanted).
  destruct (applyWanted_loop_clicks (λ _, Some false) (getCalendarElements (dom w)) w Hc Hnd)
    as [Hlog Htim]; [done |].
  rewrite Hlog, Htim. cbn [default].
  rewrite (omap_fmap_inner (clickOf _ (dom w)) (λ c, (c, false))).
  rewrite (omap_ext_in (clickOf _ (dom w)) (hideClick (dom w)))
    by (intros; apply clickOf_hide).
  done.
Qed.

Lemma foldl_fixed {A B} (f : A → B → A) (a : A) (l : list B) :
  (∀ b, b ∈ l → f a b = a) → foldl f a l = a.
Proof.
  induction l as [| b l IH]; intros Hf; [done |]. cbn [foldl].
  rewrite (Hf b) by left. apply IH. intros b' Hb'. apply Hf. by right.
Qed.

(** [hideAllCalendars] clicks the checkbox of every visible calendar, once,
    in scan order, and registers one verification per click; nothing else
    happens.  On a page already hidden it does nothing. *)
Theorem hideAllCalendars_exact (w : World) :
  Converges → NoDup (getCalendarElements (dom w)) →
  log (hideAllCalendars w)
    = log w ++ (IClick <$> omap (hideClick (dom w)) (getCalendarElements (dom w)))
  ∧ timers (hideAllCalendars w)
    = timers w ++ ((λ c, (c, false)) <$> omap (hideClick (dom w)) (getCalendarElements (dom w)))
  ∧ hideAllCalendars (hideAllCalendars w) = hideAllCalendars w.
Proof.
  intros Hc Hnd. destruct (hideAllCalendars_clicks w Hc Hnd) as [Hlog Htim].
  split; [done |]. split; [done |].
  destruct (hideAllCalendars_spec w Hc) as [[E P] V].
  set (w1 := hideAllCalendars w) in *. unfold hideAllCalendars at 1. cbv zeta.
  apply foldl_fixed. intros e He. rewrite E in He.
  unfold hideCalendar. rewrite (V e He). by destruct (getCheckboxElement (dom w1) e).
Qed.

Lemma clickOf_show (calendarIds : list string) (d : Dom) (e : Elt) :
  isCalendarChecked d e = false →
  clickOf (λ id, if bool_decide (id ∈ calendarIds) then Some true else None) d e
  = showClick calendarIds d e.
Proof.
  intros Hv. unfold clickOf, showClick. rewrite Hv.
  destruct (getCheckboxElement d e) as [c |]; [| by case_bool_decide].
  case_bool_decide; [| done]. by rewrite bool_decide_true.
Qed.

(** An activation interacts with the page by clicks only: one on the
    checkbox of every visible calendar, then one on the checkbox of every
    calendar of the selection, each followed later by its verification.  A
    calendar of the selection that was visible is clicked twice. *)
Theorem activation_clicks (stored : option (gmap string Group)) (groupId : string)
    (group : Group) (m : Manager) (w : World) :
  Converges → NoDup (getCalendarElements (dom w)) →
  default ∅ stored !! groupId = Some group →
  currentActiveGroup m ≠ Some groupId →
  let w' := (toggleGroup stored groupId (m, w)).2.2 in
  let hidden := omap (hideClick (dom w)) (getCalendarElements (dom w)) in
  let shown := omap (showClick (calendars group) (dom w)) (getCalendarElements (dom w)) in
  log w' = log w ++ (IClick <$> hidden ++ shown)
  ∧ timers w' = timers w ++ ((λ c, (c, false)) <$> hidden) ++ ((λ c, (c, true)) <$> shown).
Proof.
  intros Hc Hnd Hg Hother w' hidden shown. unfold w'.
  rewrite (toggleGroup_stored _ _ _ _ _ Hg), bool_decide_false by done. cbn [snd].
  destruct (hideAllCalendars_clicks w Hc Hnd) as [Hlog1 Htim1].
  destruct (hideAllCalendars_spec w Hc) as [[E P] V].
  set (w1 := hideAllCalendars w) in *.
  unfold showCalendarsInGroup. cbv zeta.
  rewrite (foldl_ext_in (showCalendar _) (applyWanted _))
    by (intros; apply showCalendar_applyWanted).
  rewrite E.
  destruct (applyWanted_loop_clicks
              (λ id, if bool_decide (id ∈ calendars group) then Some true else None)
              (getCalendarElements (dom w)) w1 Hc Hnd) as [Hlog2 Htim2].
  { intros e He. by rewrite E. }
  assert (Hshow : omap (clickOf (λ id, if bool_decide (id ∈ calendars group)
                                       then Some true else None) (dom w1))
                       (getCalendarElements (dom w)) = shown).
  { apply omap_ext_in. intros e He. rewrite clickOf_show by (by apply V).
    unfold showClick. by destruct (P e He) as [-> ->]. }
  rewrite Hlog2, Hlog1, Hshow. split.
  - by rewrite fmap_app, <- (assoc_L (++)).
  - rewrite Htim2, Htim1, <- (assoc_L (++)). f_equal. f_equal.
    rewrite <- Hshow.
    rewrite <- (omap_fmap_inner (clickOf _ (dom w1)) (λ c, (c, true))).
    apply omap_ext_in. intros e He.
    destruct (clickOf _ (dom w1) e) as [c |] eqn:Hclick; [| done].
    cbn. do 2 f_equal. revert Hclick. unfold clickOf.
    destruct (getCheckboxElement (dom w1) e); [| done].
    by case_bool_decide.
Qed.

(** What [saveCurrentCalendarStates] leaves under a key: the visibility of
    the last scanned calendar with that id, or what was there. *)
Theorem saveCurrentCalendarStates_last (w : World) (states : gmap string bool) (k : string) :
  saveCurrentCalendarStates w states !! k =
  match last (filter (λ e, getCalendarId (dom w) e = k) (getCalendarElements (dom w))) with
  | Some e => Some (isCalendarChecked (dom w) e)
  | None => states !! k
  end.
Proof.
  unfold saveCurrentCalendarStates. cbv zeta.
  revert states. induction (getCalendarElements (dom w)) as [| e l IH]; intros states; [done |].
  cbn [foldl]. rewrite IH. rewrite filter_cons. case_decide as Hk.
  - rewrite last_cons. destruct (last (filter _ l)); [done |].
    by rewrite Hk, lookup_insert_eq.
  - destruct (last (filter _ l)); [done |]. by rewrite lookup_insert_ne.
Qed.
End ClickLemmas.

(** ** Names and ids *)

Section StringLemmas.

Lemma append_cons (a : ascii) (s t : string) : String a s +:+ t = String a (s +:+ t).
Proof. reflexivity. Qed.

Lemma append_nil_l (t : string) : "" +:+ t = t.
Proof. reflexivity. Qed.

Lemma append_nil_r (s : string) : s +:+ "" = s.
Proof. induction s as [| a s IH]; [done |]. by rewrite append_cons, IH. Qed.

Lemma append_assoc (s t u : string) : (s +:+ t) +:+ u = s +:+ (t +:+ u).
Proof. induction s as [| a s IH]; [done |]. by rewrite !append_cons, IH. Qed.

Lemma rev_app_append (s t u : string) :
  String.rev_app s (t +:+ u) = String.rev_app s t +:+ u.
Proof.
  revert t. induction s as [| a s IH]; intros t; [done |].
  cbn [String.rev_app]. by rewrite <- IH.
Qed.

Lemma rev_app_rev (s t : string) : String.rev_app s t = String.rev s +:+ t.
Proof. unfold String.rev. by rewrite <- rev_app_append. Qed.

Lemma rev_app_rev_app (s t u : string) :
  String.rev_app (String.rev_app s t) u = String.rev_app t (s +:+ u).
Proof.
  revert t u. induction s as [| a s IH]; intros t u; [done |].
  cbn [String.rev_app]. by rewrite IH, append_cons.
Qed.

Lemma rev_involutive (s : string) : String.rev (String.rev s) = s.
Proof. unfold String.rev. rewrite rev_app_rev_app. cbn [String.rev_app]. apply append_nil_r. Qed.

Lemma rev_cons (a : ascii) (s : string) :
  String.rev (String a s) = String.rev s +:+ String a "".
Proof. unfold String.rev at 1. cbn [String.rev_app]. apply rev_app_rev. Qed.

Lemma rev_append (s t : string) : String.rev (s +:+ t) = String.rev t +:+ String.rev s.
Proof.
  induction s as [| a s IH]; [by rewrite append_nil_l, append_nil_r |].
  by rewrite append_cons, !rev_cons, IH, append_assoc.
Qed.

Lemma noLead_trimStart (s : string) : noLead (Js.trimStart s).
Proof.
  induction s as [| a s IH]; [done |]. cbn [Js.trimStart].
  by destruct (Ascii.is_space a) eqn:Ha.
Qed.

Lemma trimStart_noLead (s : string) : noLead s → Js.trimStart s = s.
Proof. destruct s as [| a s]; [done |]. cbn. by intros ->. Qed.

Lemma trimStart_snoc (x : string) (a : ascii) :
  Ascii.is_space a = false →
  ∃ y, Js.trimStart (x +:+ String a "") = y +:+ String a "".
Proof.
  intros Ha. induction x as [| b x IH].
  - rewrite append_nil_l. cbn [Js.trimStart]. rewrite Ha. by exists "".
  - rewrite append_cons. cbn [Js.trimStart].
    destruct (Ascii.is_space b); [done |]. by exists (String b x).
Qed.

Lemma noLead_trimEnd (t : string) :
  noLead t → noLead (String.rev (Js.trimStart (String.rev t))).
Proof.
  destruct t as [| a t]; [done |]. cbn [noLead]. intros Ha.
  rewrite rev_cons. destruct (trimStart_snoc (String.rev t) a Ha) as [y ->].
  rewrite rev_append, rev_cons. by cbn.
Qed.

(** Trimming a trimmed string changes nothing. *)
Lemma trim_trim (s : string) : Js.trim (Js.trim s) = Js.trim s.
Proof.
  unfold Js.trim. set (t := Js.trimStart s).
  assert (Ht : noLead t) by apply noLead_trimStart.
  set (u := String.rev (Js.trimStart (String.rev t))).
  assert (Hu : Js.trimStart u = u) by apply trimStart_noLead, noLead_trimEnd, Ht.
  rewrite Hu. unfold u at 1. rewrite rev_involutive.
  by rewrite (trimStart_noLead (Js.trimStart _)) by apply noLead_trimStart.
Qed.

Lemma truthy_nonempty (s : string) : Js.truthy s = true ↔ s ≠ "".
Proof. unfold Js.truthy. case_bool_decide; naive_solver. Qed.

Lemma Trimmed_trim (s : string) : Js.truthy (Js.trim s) = true → Trimmed (Js.trim s).
Proof. intros Hs. split; [by apply truthy_nonempty | apply trim_trim]. Qed.

Lemma length_pos_nonempty (s : string) : 0 < String.length s ↔ s ≠ "".
Proof. destruct s; cbn; split; (done || lia). Qed.

Lemma allChars_append (test : ascii → bool) (s t : string) :
  allChars test (s +:+ t) = allChars test s && allChars test t.
Proof.
  induction s as [| a s IH]; [done |]. rewrite append_cons. cbn [allChars].
  by rewrite IH, andb_assoc.
Qed.

Lemma pretty_N_char_digit (x : N) : Js.isDigit (pretty_N_char x) = true.
Proof. unfold pretty_N_char. by repeat case_match. Qed.

Lemma pretty_N_go_digits (x : N) (s : string) :
  ∃ p, pretty_N_go x s = p +:+ s ∧ allChars Js.isDigit p = true ∧ ((0 < x)%N → p ≠ "").
Proof.
  revert s. induction (N.lt_wf_0 x) as [x _ IH]; intros s.
  assert (x = 0 ∨ 0 < x)%N as [-> | Hx] by lia.
  { rewrite pretty_N_go_0. exists "". split; [done |]. split; [done | lia]. }
  rewrite pretty_N_go_step by done.
  destruct (IH (x `div` 10)%N) with (s := String (pretty_N_char (x `mod` 10)) s)
    as (p & -> & Hp & _); [by apply N.div_lt |].
  exists (p +:+ String (pretty_N_char (x `mod` 10)) ""). split; [by rewrite append_assoc |].
  split.
  - rewrite allChars_append, Hp. cbn [allChars]. by rewrite pretty_N_char_digit.
  - intros _. by destruct p.
Qed.

Lemma pretty_nat_digits (n : nat) :
  allChars Js.isDigit (pretty n) = true ∧ pretty n ≠ "".
Proof.
  unfold pretty, pretty_nat, pretty, pretty_N. case_decide as Hn; [done |].
  destruct (pretty_N_go_digits (N.of_nat n) "") as (p & -> & Hp & Hne).
  rewrite append_nil_r. split; [done |]. apply Hne. lia.
Qed.

End StringLemmas.

Section Names.
Import Html.

Lemma allChars_rev (test : ascii → bool) (s : string) :
  allChars test (String.rev s) = allChars test s.
Proof.
  induction s as [| a s IH]; [done |].
  rewrite rev_cons, allChars_append, IH. cbn [allChars]. by rewrite andb_true_r, andb_comm.
Qed.

Lemma digit_not_space (a : ascii) : Js.isDigit a = true → Ascii.is_space a = false.
Proof. destruct a as [[] [] [] [] [] [] [] []]; by vm_compute. Qed.

Lemma noLead_digits (s : string) : allChars Js.isDigit s = true → noLead s.
Proof.
  destruct s as [| a s]; [done |]. cbn [allChars noLead].
  intros [Ha _]%andb_true_iff. by apply digit_not_space.
Qed.

Lemma rev_nonempty (s : string) : s ≠ "" → String.rev s ≠ "".
Proof.
  destruct s as [| a s]; [done |]. intros _. rewrite rev_cons.
  by destruct (String.rev s).
Qed.

Lemma noLead_append (s t : string) : s ≠ "" → noLead s → noLead (s +:+ t).
Proof. by destruct s. Qed.

Lemma Trimmed_nameFromPosition (d : Node) (e : Path) :
  Trimmed (CalendarDOM.nameFromPosition d e).
Proof.
  unfold CalendarDOM.nameFromPosition. set (k := elementIndex d e + 1).
  destruct (pretty_nat_digits k) as [Hdigits Hne].
  split; [done |]. unfold Js.trim.
  rewrite (trimStart_noLead ("Calendar " +:+ pretty k)) by done.
  rewrite rev_append, trimStart_noLead.
  - by rewrite <- rev_append, rev_involutive.
  - apply noLead_append; [by apply rev_nonempty |].
    apply noLead_digits. by rewrite allChars_rev.
Qed.

Lemma Trimmed_nonBlank (x : option string) (name : string) :
  CalendarDOM.nonBlank x = Some name → Trimmed name.
Proof.
  destruct x as [s |]; [| done]. cbn.
  destruct (Js.truthy (Js.trim s)) eqn:Hs; [| done]. intros [= <-]. by apply Trimmed_trim.
Qed.

Lemma Trimmed_nameFromTextElement (el : Node) (name : string) :
  CalendarDOM.nameFromTextElement el = Some name → Trimmed name.
Proof.
  unfold CalendarDOM.nameFromTextElement. intros Hhead.
  assert (Hin : name ∈ filter (λ text, Js.truthy text
                                      && bool_decide (String.length text < 100))
                  ((λ textEl, Js.trim (textContent textEl.2))
                     <$> querySelectorAll el [[ByTag "span"]; [ByTag "div"]])).
  { destruct (filter _ _) as [| y l]; [done |]. cbn in Hhead. injection Hhead as ->. left. }
  apply list_elem_of_filter in Hin as [Hok Hin].
  apply list_elem_of_fmap in Hin as (textEl & -> & _).
  apply Is_true_true_1, andb_true_iff in Hok as [Hok _]. by apply Trimmed_trim.
Qed.

Lemma Trimmed_nameFromFirstLine (el : Node) (name : string) :
  CalendarDOM.nameFromFirstLine el = Some name → Trimmed name.
Proof.
  unfold CalendarDOM.nameFromFirstLine. cbv zeta.
  destruct (Js.truthy _); [| done].
  destruct (filter _ _) as [| line lines] eqn:Hlines; [done |].
  case_bool_decide; [| done]. intros [= <-].
  assert (Hin : line ∈ filter (λ line, 0 < String.length line)
                  (Js.trim <$> Js.split Js.LF (Js.trim (textContent el))))
    by (rewrite Hlines; left).
  apply list_elem_of_filter in Hin as [Hlen Hin].
  apply list_elem_of_fmap in Hin as (piece & -> & _).
  split; [by apply length_pos_nonempty | apply trim_trim].
Qed.


End Names.

Section Ids.
Import Html.

Lemma idFromAttribute_truthy (el : Node) (attr value : string) :
  CalendarDOM.idFromAttribute el attr = Some value → value ≠ "".
Proof.
  unfold CalendarDOM.idFromAttribute. intros Hid.
  assert (Hchild : (querySelector el [[ByAttr attr]] ≫= λ child,
                     attribute child.2 attr ≫= λ v, if Js.truthy v then Some v else None)
                   = Some value → value ≠ "").
  { destruct (querySelector el [[ByAttr attr]]) as [child |]; [| done]. cbn.
    destruct (attribute child.2 attr) as [v |]; [| done]. cbn.
    destruct (Js.truthy v) eqn:Hv; [| done]. intros [= <-]. by apply truthy_nonempty. }
  destruct (attribute el attr) as [v |]; [| by apply Hchild].
  destruct (Js.truthy v) eqn:Hv; [| by apply Hchild].
  injection Hid as <-. by apply truthy_nonempty.
Qed.


Lemma digit_notUnderscore (s : string) :
  allChars Js.isDigit s = true → allChars notUnderscore s = true.
Proof.
  induction s as [| a s IH]; [done |]. cbn [allChars].
  intros [Ha Hs]%andb_true_iff. rewrite IH by done. rewrite andb_true_r.
  unfold notUnderscore. case_bool_decide as Hu; [| done]. subst a. by vm_compute in Ha.
Qed.

(** What follows the last underscore of a string is determined by the
    string. *)
Lemma allChars_underscore (x p : string) :
  allChars notUnderscore (x +:+ String "_" p) = false.
Proof. rewrite allChars_append. cbn [allChars]. by rewrite andb_false_r. Qed.

Lemma after_last_underscore (x1 x2 p1 p2 : string) :
  allChars notUnderscore p1 = true → allChars notUnderscore p2 = true →
  x1 +:+ String "_" p1 = x2 +:+ String "_" p2 → p1 = p2.
Proof.
  intros H1 H2. revert x2. induction x1 as [| a x1 IH]; intros [| b x2].
  - rewrite !append_nil_l. by intros [= ->].
  - rewrite append_nil_l, append_cons. intros [= <- ->].
    by rewrite allChars_underscore in H1.
  - rewrite append_nil_l, append_cons. intros [= -> <-].
    by rewrite allChars_underscore in H2.
  - rewrite !append_cons. intros [= _ Heq]. by apply IH with x2.
Qed.

Lemma filter_take_lt {A} (P : A → Prop) `{∀ x, Decision (P x)} (l : list A) (i j : nat) (c : A) :
  i < j → l !! i = Some c → P c →
  length (filter P (take i l)) < length (filter P (take j l)).
Proof.
  revert i j. induction l as [| x l IH]; intros i j Hij Hi Hc; [done |].
  destruct j as [| j]; [lia |]. destruct i as [| i].
  - cbn in Hi. injection Hi as ->. cbn [take]. rewrite filter_cons_True by done.
    cbn [filter list_filter length]. lia.
  - cbn in Hi. cbn [take]. rewrite !(filter_cons _ x).
    assert (Hlt : length (filter P (take i l)) < length (filter P (take j l)))
      by (apply IH; [lia | done | done]).
    destruct (decide (P x)); cbn [length]; lia.
Qed.

Lemma elementIndex_child (d : Node) (p : Path) (i : nat) :
  elementIndex d (p ++ [i])
  = match nodeAt d p with
    | Some parent => length (filter (λ c, isElement c = true) (take i (childNodesOf parent)))
    | None => 0
    end.
Proof. unfold elementIndex. by rewrite reverse_snoc, reverse_involutive. Qed.

Lemma elementIndex_siblings (d : Node) (p : Path) (i j : nat) (c1 c2 : Node) :
  nodeAt d (p ++ [i]) = Some c1 → isElement c1 = true →
  nodeAt d (p ++ [j]) = Some c2 → isElement c2 = true →
  elementIndex d (p ++ [i]) = elementIndex d (p ++ [j]) → i = j.
Proof.
  rewrite !elementIndex_child, !nodeAt_app.
  destruct (nodeAt d p) as [parent |]; [| done]. cbn [mbind option_bind nodeAt].
  destruct (childNodesOf parent !! i) as [x1 |] eqn:Hi; [| done].
  destruct (childNodesOf parent !! j) as [x2 |] eqn:Hj; [| done].
  cbn. intros [= ->] H1 [= ->] H2 Heq.
  destruct (Nat.lt_trichotomy i j) as [Hlt | [-> | Hgt]]; [| done |].
  - pose proof (filter_take_lt (λ c, isElement c = true) _ i j c1 Hlt Hi H1). lia.
  - pose proof (filter_take_lt (λ c, isElement c = true) _ j i c2 Hgt Hj H2). lia.
Qed.

Lemma generatedId_suffix (d : Node) (e : Path) :
  ∃ x, CalendarDOM.generatedId d e = x +:+ String "_" (pretty (elementIndex d e)).
Proof.
  unfold CalendarDOM.generatedId. cbv zeta.
  match goal with
  | |- ∃ x, "cal_" +:+ ?b +:+ "_" +:+ ?h +:+ "_" +:+ ?p = _ =>
      exists ("cal_" +:+ b +:+ "_" +:+ h)
  end.
  by rewrite !append_assoc.
Qed.

(** Two elements with the same generated id stand at the same position
    among their siblings: the generated ids of two elements of one parent
    differ. *)
Theorem generated_id_fixes_position (d : Node) (e1 e2 : Path) :
  CalendarDOM.generatedId d e1 = CalendarDOM.generatedId d e2 →
  elementIndex d e1 = elementIndex d e2
  ∧ ∀ p i j c1 c2,
      e1 = p ++ [i] → e2 = p ++ [j] →
      nodeAt d e1 = Some c1 → isElement c1 = true →
      nodeAt d e2 = Some c2 → isElement c2 = true →
      e1 = e2.
Proof.
  intros Hid.
  destruct (generatedId_suffix d e1) as [x1 H1], (generatedId_suffix d e2) as [x2 H2].
  rewrite H1, H2 in Hid.
  assert (Hindex : elementIndex d e1 = elementIndex d e2).
  { apply (inj pretty). apply (after_last_underscore x1 x2); [| | done];
      apply digit_notUnderscore, pretty_nat_digits. }
  split; [done |]. intros p i j c1 c2 -> -> Hc1 Hel1 Hc2 Hel2.
  f_equal. f_equal. by apply (elementIndex_siblings d p i j c1 c2).
Qed.

End Ids.

(** ** The scan does not look at the state *)

Section StateLemmas.
Import Html.

Lemma lookupAttribute_filter (name : string) (attrs : list (string * string)) :
  name ∉ stateAttributes →
  lookupAttribute name (filter (λ nv, nv.1 ∉ stateAttributes) attrs) = lookupAttribute name attrs.
Proof.
  intros Hname. induction attrs as [| [n v] attrs IH]; [done |].
  rewrite filter_cons. cbn [fst lookupAttribute]. case_decide as Hn.
  - cbn [lookupAttribute]. by rewrite IH.
  - rewrite IH. rewrite bool_decide_false; [done |]. intros ->. done.
Qed.

Lemma attribute_withoutState (n : Node) (name : string) :
  name ∉ stateAttributes → attribute (withoutState n) name = attribute n name.
Proof. intros Hname. destruct n; [done |]. by apply lookupAttribute_filter. Qed.

Lemma isElement_withoutState (n : Node) : isElement (withoutState n) = isElement n.
Proof. by destruct n. Qed.

Lemma tagNameOf_withoutState (n : Node) : tagNameOf (withoutState n) = tagNameOf n.
Proof. by destruct n. Qed.

Lemma childNodesOf_withoutState (n : Node) :
  childNodesOf (withoutState n) = withoutState <$> childNodesOf n.
Proof. by destruct n. Qed.

Lemma textContent_withoutState (n : Node) : textContent (withoutState n) = textContent n.
Proof.
  induction n as [data | tag attrs c cs IH] using Node_children_ind; [done |].
  cbn [withoutState textContent]. induction IH as [| x cs Hx _ IHcs]; [done |].
  cbn [fmap list_fmap]. by rewrite Hx, IHcs.
Qed.

Lemma nodeAt_withoutState (n : Node) (p : Path) :
  nodeAt (withoutState n) p = withoutState <$> nodeAt n p.
Proof.
  revert n. induction p as [| i p IH]; intros n; [done |].
  cbn [nodeAt]. rewrite childNodesOf_withoutState, list_lookup_fmap.
  destruct (childNodesOf n !! i) as [c |]; [apply IH | done].
Qed.

Lemma firstText_withoutState (n : Node) : firstText (withoutState n) = firstText n.
Proof.
  unfold firstText. rewrite childNodesOf_withoutState.
  induction (childNodesOf n) as [| c cs IH]; [done |].
  cbn [fmap list_fmap]. rewrite !filter_cons, isElement_withoutState.
  case_decide; [| done]. by destruct c.
Qed.

Lemma childDescendants_withoutState (i : nat) (cs : list Node) :
  Forall (λ c, descendants (withoutState c) = erased (descendants c)) cs →
  childDescendants descendants i (withoutState <$> cs)
  = erased (childDescendants descendants i cs).
Proof.
  intros Hcs. revert i. induction Hcs as [| c cs Hc _ IH]; intros i; [done |].
  cbn [fmap list_fmap childDescendants]. unfold erased in *.
  rewrite !fmap_app, isElement_withoutState, Hc, IH.
  f_equal; [by destruct (isElement c) |]. f_equal.
  rewrite <- !list_fmap_compose. done.
Qed.

Lemma descendants_withoutState (n : Node) :
  descendants (withoutState n) = erased (descendants n).
Proof.
  induction n as [data | tag attrs c cs IH] using Node_children_ind; [done |].
  cbn [withoutState descendants]. by apply childDescendants_withoutState.
Qed.

Lemma matchesSimple_withoutState (n : Node) (t : Simple) :
  stateFreeSimple t = true → matchesSimple (withoutState n) t = matchesSimple n t.
Proof.
  destruct t as [tag | name | name value | name part | token]; cbn [stateFreeSimple matchesSimple].
  - intros _. by rewrite isElement_withoutState, tagNameOf_withoutState.
  - intros Hname%bool_decide_eq_true. by rewrite attribute_withoutState.
  - intros Hname%bool_decide_eq_true. by rewrite attribute_withoutState.
  - intros Hname%bool_decide_eq_true. by rewrite attribute_withoutState.
  - intros _. rewrite attribute_withoutState; [done |]. unfold stateAttributes. set_solver.
Qed.

Lemma matches_withoutState (sel : Selector) (n : Node) :
  stateFree sel = true → matches sel (withoutState n) = matches sel n.
Proof.
  unfold stateFree, matches. induction sel as [| alt sel IH]; [done |].
  cbn [forallb existsb]. intros [Halt Hsel]%andb_true_iff. rewrite IH by done. f_equal.
  clear IH Hsel. induction alt as [| t alt IH]; [done |].
  cbn [forallb] in *. apply andb_true_iff in Halt as [Ht Halt].
  by rewrite matchesSimple_withoutState, IH.
Qed.

Lemma filter_erased (P : Path * Node → Prop) `{∀ x, Decision (P x)} (l : list (Path * Node)) :
  (∀ pn, P (pn.1, withoutState pn.2) ↔ P pn) →
  filter P (erased l) = erased (filter P l).
Proof.
  intros HP. unfold erased. induction l as [| pn l IH]; [done |].
  cbn [fmap list_fmap]. rewrite !filter_cons.
  destruct (decide (P (pn.1, withoutState pn.2))) as [Hy | Hn];
    destruct (decide (P pn)) as [Hy' | Hn']; cbn [fmap list_fmap]; rewrite ?IH; try done.
  - by apply (proj1 (HP pn)) in Hy.
  - by apply (proj2 (HP pn)) in Hy'.
Qed.

Lemma querySelectorAll_withoutState (n : Node) (sel : Selector) :
  stateFree sel = true →
  querySelectorAll (withoutState n) sel = erased (querySelectorAll n sel).
Proof.
  intros Hsel. unfold querySelectorAll. rewrite descendants_withoutState.
  apply filter_erased. intros pn. cbn [snd]. by rewrite matches_withoutState.
Qed.

Lemma head_erased (l : list (Path * Node)) :
  head (erased l) = (λ pn, (pn.1, withoutState pn.2)) <$> head l.
Proof. by destruct l. Qed.

Lemma querySelector_withoutState (n : Node) (sel : Selector) :
  stateFree sel = true →
  querySelector (withoutState n) sel
  = (λ pn, (pn.1, withoutState pn.2)) <$> querySelector n sel.
Proof.
  intros Hsel. unfold querySelector. by rewrite querySelectorAll_withoutState, head_erased.
Qed.

Lemma fst_erased (l : list (Path * Node)) : fst <$> erased l = fst <$> l.
Proof. unfold erased. rewrite <- list_fmap_compose. done. Qed.

Lemma elementsOf_withoutState (d : Node) : elementsOf (withoutState d) = erased (elementsOf d).
Proof.
  unfold elementsOf, erased. rewrite fmap_app, isElement_withoutState, descendants_withoutState.
  by destruct (isElement d).
Qed.

Lemma documentQuerySelectorAll_withoutState (d : Node) (sel : Selector) :
  stateFree sel = true →
  documentQuerySelectorAll (withoutState d) sel = documentQuerySelectorAll d sel.
Proof.
  intros Hsel. unfold documentQuerySelectorAll. rewrite elementsOf_withoutState.
  rewrite filter_erased, fst_erased; [done |].
  intros pn. cbn [snd]. by rewrite matches_withoutState.
Qed.

Lemma documentQuerySelector_withoutState (d : Node) (sel : Selector) :
  stateFree sel = true →
  documentQuerySelector (withoutState d) sel = documentQuerySelector d sel.
Proof.
  intros Hsel. unfold documentQuerySelector. by rewrite documentQuerySelectorAll_withoutState.
Qed.

Lemma querySelectorAllAt_withoutState (d : Node) (e : Path) (sel : Selector) :
  stateFree sel = true →
  querySelectorAllAt (withoutState d) e sel = querySelectorAllAt d e sel.
Proof.
  intros Hsel. unfold querySelectorAllAt. rewrite nodeAt_withoutState.
  destruct (nodeAt d e) as [n |]; [| done]. cbn [fmap option_fmap option_map].
  rewrite querySelectorAll_withoutState by done. unfold erased.
  rewrite <- list_fmap_compose. done.
Qed.

Lemma querySelectorAt_withoutState (d : Node) (e : Path) (sel : Selector) :
  stateFree sel = true →
  querySelectorAt (withoutState d) e sel = querySelectorAt d e sel.
Proof.
  intros Hsel. unfold querySelectorAt. by rewrite querySelectorAllAt_withoutState.
Qed.

Lemma matchesAt_withoutState (d : Node) (e : Path) (sel : Selector) :
  stateFree sel = true → matchesAt (withoutState d) e sel = matchesAt d e sel.
Proof.
  intros Hsel. unfold matchesAt. rewrite nodeAt_withoutState.
  destruct (nodeAt d e) as [n |]; [| done]. by apply matches_withoutState.
Qed.

Lemma closest_withoutState (d : Node) (e : Path) (sel : Selector) :
  stateFree sel = true → closest (withoutState d) e sel = closest d e sel.
Proof.
  intros Hsel. unfold closest. f_equal. apply list_filter_iff. intros p.
  by rewrite matchesAt_withoutState.
Qed.

Lemma elementIndex_withoutState (d : Node) (e : Path) :
  elementIndex (withoutState d) e = elementIndex d e.
Proof.
  unfold elementIndex. destruct (reverse e) as [| i parent]; [done |].
  rewrite nodeAt_withoutState. destruct (nodeAt d (reverse parent)) as [p |]; [| done].
  cbn [fmap option_fmap option_map]. rewrite childNodesOf_withoutState, <- fmap_take.
  induction (take i (childNodesOf p)) as [| c cs IH]; [done |].
  cbn [fmap list_fmap]. rewrite !filter_cons, isElement_withoutState.
  case_decide; cbn [length]; by rewrite IH.
Qed.

Lemma body_withoutState (d : Node) : body (withoutState d) = body d.
Proof.
  unfold body. rewrite childNodesOf_withoutState.
  generalize 0. induction (childNodesOf d) as [| c cs IH]; intros k; [done |].
  cbn. rewrite tagNameOf_withoutState. case_decide; [done |].
  cbn. specialize (IH k). cbn in IH.
  destruct (list_find _ (withoutState <$> cs)) as [[j x] |] eqn:E1;
    destruct (list_find _ cs) as [[j' x'] |] eqn:E2; cbn in *; congruence.
Qed.

End StateLemmas.

Section StateScan.
Import Html.

Local Ltac state_free := first [reflexivity | by vm_compute].

Lemma querySelector_bind_withoutState {B} (el : Node) (sel : Selector) (g : Node → option B) :
  stateFree sel = true → (∀ n, g (withoutState n) = g n) →
  (querySelector (withoutState el) sel ≫= λ x, g x.2) = (querySelector el sel ≫= λ x, g x.2).
Proof.
  intros Hsel Hg. rewrite querySelector_withoutState by done.
  destruct (querySelector el sel) as [[p n] |]; [apply Hg | done].
Qed.

Lemma querySelector_is_Some_withoutState (el : Node) (sel : Selector) :
  stateFree sel = true →
  is_Some (querySelector (withoutState el) sel) ↔ is_Some (querySelector el sel).
Proof.
  intros Hsel. rewrite querySelector_withoutState by done. apply fmap_is_Some.
Qed.

Lemma nameFromTitle_withoutState (el : Node) :
  CalendarDOM.nameFromTitle (withoutState el) = CalendarDOM.nameFromTitle el.
Proof.
  unfold CalendarDOM.nameFromTitle.
  apply (querySelector_bind_withoutState el _ (λ n, CalendarDOM.nonBlank (attribute n "title")));
    [state_free |].
  intros n. rewrite attribute_withoutState; [done |]. unfold stateAttributes. set_solver.
Qed.

Lemma nameFromDescendantLabel_withoutState (el : Node) :
  CalendarDOM.nameFromDescendantLabel (withoutState el) = CalendarDOM.nameFromDescendantLabel el.
Proof.
  unfold CalendarDOM.nameFromDescendantLabel.
  apply (querySelector_bind_withoutState el _
           (λ n, CalendarDOM.nonBlank (attribute n "aria-label"))); [state_free |].
  intros n. rewrite attribute_withoutState; [done |]. unfold stateAttributes. set_solver.
Qed.

Lemma nameFromOwnLabel_withoutState (el : Node) :
  CalendarDOM.nameFromOwnLabel (withoutState el) = CalendarDOM.nameFromOwnLabel el.
Proof.
  unfold CalendarDOM.nameFromOwnLabel.
  rewrite attribute_withoutState; [done |]. unfold stateAttributes. set_solver.
Qed.

Lemma nameFromTextElement_withoutState (el : Node) :
  CalendarDOM.nameFromTextElement (withoutState el) = CalendarDOM.nameFromTextElement el.
Proof.
  unfold CalendarDOM.nameFromTextElement.
  rewrite querySelectorAll_withoutState by state_free. unfold erased.
  rewrite <- list_fmap_compose. do 2 f_equal. apply list_fmap_ext. intros i pn _. cbn.
  by rewrite textContent_withoutState.
Qed.

Lemma nameFromFirstLine_withoutState (el : Node) :
  CalendarDOM.nameFromFirstLine (withoutState el) = CalendarDOM.nameFromFirstLine el.
Proof. unfold CalendarDOM.nameFromFirstLine. by rewrite textContent_withoutState. Qed.

Lemma getCalendarName_withoutState (d : Node) (e : Path) :
  CalendarDOM.getCalendarName (withoutState d) e = CalendarDOM.getCalendarName d e.
Proof.
  unfold CalendarDOM.getCalendarName, CalendarDOM.nameFromPosition.
  rewrite nodeAt_withoutState, elementIndex_withoutState.
  destruct (nodeAt d e) as [el |]; [| done]. cbn [fmap option_fmap option_map].
  by rewrite nameFromTitle_withoutState, nameFromDescendantLabel_withoutState,
    nameFromOwnLabel_withoutState, nameFromTextElement_withoutState,
    nameFromFirstLine_withoutState.
Qed.

Lemma getCheckboxElement_withoutState (d : Node) (e : Path) :
  CalendarDOM.getCheckboxElement (withoutState d) e = CalendarDOM.getCheckboxElement d e.
Proof.
  unfold CalendarDOM.getCheckboxElement.
  rewrite !querySelectorAt_withoutState, matchesAt_withoutState by state_free.
  destruct (parentElement e) as [parent |]; [| done].
  by rewrite querySelectorAt_withoutState by state_free.
Qed.

Lemma idFromAttribute_withoutState (el : Node) (attr : string) :
  attr ∉ stateAttributes →
  CalendarDOM.idFromAttribute (withoutState el) attr = CalendarDOM.idFromAttribute el attr.
Proof.
  intros Hattr. unfold CalendarDOM.idFromAttribute.
  rewrite attribute_withoutState by done.
  assert (Hq : (querySelector (withoutState el) [[ByAttr attr]] ≫= λ child,
                  attribute child.2 attr ≫= λ v, if Js.truthy v then Some v else None)
               = (querySelector el [[ByAttr attr]] ≫= λ child,
                  attribute child.2 attr ≫= λ v, if Js.truthy v then Some v else None)).
  { apply (querySelector_bind_withoutState el _
             (λ n, attribute n attr ≫= λ v, if Js.truthy v then Some v else None)).
    - cbn. by rewrite bool_decide_true.
    - intros n. by rewrite attribute_withoutState. }
  by rewrite Hq.
Qed.

Lemma getCalendarId_withoutState (d : Node) (e : Path) :
  CalendarDOM.getCalendarId (withoutState d) e = CalendarDOM.getCalendarId d e.
Proof.
  unfold CalendarDOM.getCalendarId, CalendarDOM.generatedId.
  rewrite getCalendarName_withoutState, elementIndex_withoutState, nodeAt_withoutState.
  destruct (nodeAt d e) as [el |]; [| done]. cbn [fmap option_fmap option_map mbind option_bind].
  rewrite textContent_withoutState.
  assert (Hids : omap (CalendarDOM.idFromAttribute (withoutState el)) CalendarDOM.possibleAttributes
                 = omap (CalendarDOM.idFromAttribute el) CalendarDOM.possibleAttributes).
  { unfold CalendarDOM.possibleAttributes. cbn [omap list_omap].
    rewrite !idFromAttribute_withoutState; [done | ..]; unfold stateAttributes; set_solver. }
  by rewrite Hids.
Qed.

Lemma findCalendarContainer_withoutState (d : Node) (checkbox : Path) :
  CalendarDOM.findCalendarContainer (withoutState d) checkbox
  = CalendarDOM.findCalendarContainer d checkbox.
Proof.
  unfold CalendarDOM.findCalendarContainer. cbv zeta.
  rewrite !closest_withoutState by state_free.
  rewrite body_withoutState.
  match goal with
  | |- match filter ?P ?l with _ => _ end = match filter ?Q ?l with _ => _ end =>
      rewrite (list_filter_iff P Q l); [done |]
  end.
  intros c. rewrite nodeAt_withoutState.
  destruct (nodeAt d c) as [n |]; [| done]. cbn [fmap option_fmap option_map].
  by rewrite textContent_withoutState.
Qed.

Lemma isCalendarItem_withoutState (d : Node) (e : Path) :
  CalendarDOM.isCalendarItem (withoutState d) e = CalendarDOM.isCalendarItem d e.
Proof.
  unfold CalendarDOM.isCalendarItem. rewrite nodeAt_withoutState.
  destruct (nodeAt d e) as [el |]; [| done]. cbn [fmap option_fmap option_map]. cbv zeta.
  rewrite matches_withoutState by state_free.
  rewrite (bool_decide_ext _ _ (querySelector_is_Some_withoutState el
             CalendarDOM.checkboxSelector eq_refl)).
  rewrite (bool_decide_ext _ _ (querySelector_is_Some_withoutState el
             CalendarDOM.calendarAttributeSelector eq_refl)).
  rewrite textContent_withoutState.
  rewrite !(attribute_withoutState el) by (unfold stateAttributes; set_solver).
  rewrite !closest_withoutState by state_free.
  done.
Qed.

Lemma addCalendarOf_withoutState (d : Node) (elements : list Path) (checkbox : Path) :
  CalendarDOM.addCalendarOf (withoutState d) elements checkbox
  = CalendarDOM.addCalendarOf d elements checkbox.
Proof.
  unfold CalendarDOM.addCalendarOf. rewrite findCalendarContainer_withoutState.
  destruct (CalendarDOM.findCalendarContainer d checkbox) as [c |]; [| done].
  by rewrite isCalendarItem_withoutState.
Qed.

Lemma foldl_addCalendarOf_withoutState (d : Node) (l elements : list Path) :
  foldl (CalendarDOM.addCalendarOf (withoutState d)) elements l
  = foldl (CalendarDOM.addCalendarOf d) elements l.
Proof.
  apply foldl_ext_in. intros a b _. apply addCalendarOf_withoutState.
Qed.

Lemma findCalendarsFromCheckboxes_withoutState (d : Node) (elements : list Path) :
  CalendarDOM.findCalendarsFromCheckboxes (withoutState d) elements
  = CalendarDOM.findCalendarsFromCheckboxes d elements.
Proof.
  unfold CalendarDOM.findCalendarsFromCheckboxes.
  rewrite documentQuerySelectorAll_withoutState by state_free.
  apply foldl_addCalendarOf_withoutState.
Qed.

Lemma findCalendarsInSections_withoutState (d : Node) (elements : list Path) :
  CalendarDOM.findCalendarsInSections (withoutState d) elements
  = CalendarDOM.findCalendarsInSections d elements.
Proof.
  unfold CalendarDOM.findCalendarsInSections, CalendarDOM.sectionSelectors.
  cbn [foldl].
  rewrite !documentQuerySelector_withoutState by state_free.
  repeat match goal with
  | |- context [documentQuerySelector d ?sel] =>
      destruct (documentQuerySelector d sel);
      rewrite ?querySelectorAllAt_withoutState, ?foldl_addCalendarOf_withoutState by state_free
  end; done.
Qed.

Lemma getCalendarElements_withoutState (snapshotOrder : list Path → list Path) (d : Node) :
  CalendarDOM.getCalendarElements snapshotOrder (withoutState d)
  = CalendarDOM.getCalendarElements snapshotOrder d.
Proof.
  rewrite !getCalendarElements_first_two.
  by rewrite findCalendarsInSections_withoutState, findCalendarsFromCheckboxes_withoutState.
Qed.

End StateScan.

Section StateTheorems.
Import Html.

Lemma sameButState_scan (snapshotOrder : list Path → list Path) (d d' : Node) :
  sameButState d d' →
  CalendarDOM.getCalendarElements snapshotOrder d
  = CalendarDOM.getCalendarElements snapshotOrder d'.
Proof.
  unfold sameButState. intros Hsame.
  by rewrite <- (getCalendarElements_withoutState _ d), Hsame,
    getCalendarElements_withoutState.
Qed.

Lemma sameButState_element (d d' : Node) (e : Path) :
  sameButState d d' →
  CalendarDOM.getCalendarId d e = CalendarDOM.getCalendarId d' e
  ∧ CalendarDOM.getCalendarName d e = CalendarDOM.getCalendarName d' e
  ∧ CalendarDOM.getCheckboxElement d e = CalendarDOM.getCheckboxElement d' e.
Proof.
  unfold sameButState. intros Hsame. split; [| split].
  - by rewrite <- (getCalendarId_withoutState d), Hsame, getCalendarId_withoutState.
  - by rewrite <- (getCalendarName_withoutState d), Hsame, getCalendarName_withoutState.
  - by rewrite <- (getCheckboxElement_withoutState d), Hsame,
      getCheckboxElement_withoutState.
Qed.

(** The scan, the ids, the names and the checkboxes do not depend on the
    state of the checkboxes: two documents that differ only in
    [aria-checked], [aria-pressed] and [checked] have the same calendars,
    with the same id, name and checkbox. *)
Theorem identity_ignores_state (snapshotOrder : list Path → list Path) (d d' : Node) :
  sameButState d d' →
  CalendarDOM.getCalendarElements snapshotOrder d
  = CalendarDOM.getCalendarElements snapshotOrder d'
  ∧ ∀ e, CalendarDOM.getCalendarId d e = CalendarDOM.getCalendarId d' e
         ∧ CalendarDOM.getCalendarName d e = CalendarDOM.getCalendarName d' e
         ∧ CalendarDOM.getCheckboxElement d e = CalendarDOM.getCheckboxElement d' e.
Proof.
  intros Hsame. split; [by apply sameButState_scan |].
  intros e. by apply sameButState_element.
Qed.

Lemma withoutState_updateAt (f : Node → Node) (c : Path) (d : Node) :
  (∀ n, withoutState (f n) = withoutState n) →
  withoutState (Page.updateAt f c d) = withoutState d.
Proof.
  intros Hf. revert d. induction c as [| i c IH]; intros d; [apply Hf |].
  destruct d as [data | tag attrs ch cs]; [done |].
  cbn [Page.updateAt withoutState]. f_equal.
  apply list_eq. intros j. rewrite !list_lookup_fmap.
  destruct (decide (j = i)) as [-> | Hne].
  - rewrite list_lookup_alter_eq. destruct (cs !! i) as [x |]; [| done].
    cbn. by rewrite IH.
  - by rewrite list_lookup_alter_ne.
Qed.

Lemma withoutState_setAttribute (name value : string) (n : Node) :
  name ∈ stateAttributes →
  withoutState (Page.setAttribute name value n) = withoutState n.
Proof.
  intros Hname. destruct n as [data | tag attrs ch cs]; [done |].
  cbn [Page.setAttribute withoutState]. f_equal.
  induction attrs as [| [n v] attrs IH]; cbn [Page.setAttributeIn].
  - rewrite filter_cons. cbn [fst]. by rewrite decide_False by (by intros []).
  - case_bool_decide as Hn.
    + subst n. rewrite !filter_cons. cbn [fst]. by rewrite !decide_False by (by intros []).
    + rewrite !filter_cons. cbn [fst]. by rewrite IH.
Qed.

Lemma withoutState_setChecked (value : bool) (n : Node) :
  withoutState (Page.setChecked value n) = withoutState n.
Proof. by destruct n. Qed.

Lemma withoutState_toggleAriaChecked (n : Node) :
  withoutState (Page.toggleAriaChecked n) = withoutState n.
Proof.
  unfold Page.toggleAriaChecked. apply withoutState_setAttribute.
  unfold stateAttributes. set_solver.
Qed.

Lemma widgets_StateOnly : StateOnly Page.widgets.
Proof.
  intros i d Hi. unfold sameButState. symmetry.
  destruct i as [c | c [t | t k co] | c name value | c value]; cbn [Page.widgets].
  - apply withoutState_updateAt, withoutState_toggleAriaChecked.
  - repeat (destruct t as [| [[] [] [] [] [] [] [] []] t]; try done);
      apply withoutState_updateAt, withoutState_toggleAriaChecked.
  - done.
  - apply withoutState_updateAt. intros n. apply withoutState_setAttribute. by eapply Hi.
  - apply withoutState_updateAt. intros n. apply withoutState_setChecked.
Qed.

End StateTheorems.

Section StateOnlyPages.
Import Html.
Context (snapshotOrder : list Path → list Path) (reaction : Interaction Path → Node → Node).

Local Abbreviation pageHost := (Page.host snapshotOrder reaction).

Lemma sameButState_trans (d1 d2 d3 : Node) :
  sameButState d1 d2 → sameButState d2 d3 → sameButState d1 d3.
Proof. unfold sameButState. congruence. Qed.

Lemma interact_sameButState (i : Interaction Path) (w : @World Node Path) :
  StateOnly reaction →
  (∀ c name value, i = ISetAttribute c name value → name ∈ stateAttributes) →
  sameButState (dom w) (dom (interact (H := pageHost) i w)).
Proof. intros Hr Hi. by apply Hr. Qed.

Lemma sameButState_refl (d : Node) : sameButState d d.
Proof. done. Qed.

Lemma dispatchMouseEvents_sameButState (c : Path) (w : @World Node Path) :
  StateOnly reaction →
  sameButState (dom w) (dom (dispatchMouseEvents (H := pageHost) c w)).
Proof.
  intros Hr. unfold dispatchMouseEvents. cbn [foldl].
  eapply sameButState_trans; [| by apply interact_sameButState].
  eapply sameButState_trans; [| by apply interact_sameButState].
  by apply interact_sameButState.
Qed.

Lemma guarded_sameButState (guard : bool) (i : Interaction Path) (w : @World Node Path) :
  StateOnly reaction →
  (∀ c name value, i = ISetAttribute c name value → name ∈ stateAttributes) →
  sameButState (dom w) (dom (if guard then interact (H := pageHost) i w else w)).
Proof.
  intros Hr Hi. destruct guard; [by apply interact_sameButState | apply sameButState_refl].
Qed.

Lemma setStateDirectly_sameButState (c : Path) (v : bool) (w : @World Node Path) :
  StateOnly reaction →
  sameButState (dom w) (dom (setStateDirectly (H := pageHost) c v w)).
Proof.
  intros Hr. unfold setStateDirectly. cbv zeta.
  eapply sameButState_trans; [| by apply guarded_sameButState].
  eapply sameButState_trans; [| apply guarded_sameButState; [done |]].
  - apply guarded_sameButState; [done |].
    intros ? ? ? [= _ <- _]. unfold stateAttributes. set_solver.
  - intros ? ? ? [= _ <- _]. unfold stateAttributes. set_solver.
Qed.

Lemma forceCalendarState_sameButState (c : Path) (v : bool) (w : @World Node Path) :
  StateOnly reaction →
  sameButState (dom w) (dom (forceCalendarState (H := pageHost) c v w)).
Proof.
  intros Hr. unfold forceCalendarState, dispatchKeyEvent.
  eapply sameButState_trans; [| by apply setStateDirectly_sameButState].
  eapply sameButState_trans; [| by apply interact_sameButState].
  by apply dispatchMouseEvents_sameButState.
Qed.

Lemma toggleCalendarVisibility_sameButState (c : Path) (v : bool) (w : @World Node Path) :
  StateOnly reaction →
  sameButState (dom w) (dom (toggleCalendarVisibility (H := pageHost) c v w)).
Proof.
  intros Hr. unfold toggleCalendarVisibility. cbn [clickThrows Page.host setTimeout dom].
  by apply interact_sameButState.
Qed.

Lemma sameButState_sameScan (d d' : Node) :
  sameButState d d' → sameScan (H := pageHost) d d'.
Proof.
  intros Hsame. split; [by apply sameButState_scan |].
  intros e _. destruct (sameButState_element d d' e Hsame) as (Hid & _ & Hcb).
  cbn [getCalendarId getCheckboxElement Page.host]. by rewrite Hid, Hcb.
Qed.

(** On a document whose page reacts to the script's interactions by changing
    the state of checkboxes only, neither a toggle nor the forced state
    changes which calendars the scan finds, nor their ids, names and
    checkboxes. *)
Theorem toggles_keep_identity (c : Path) (v : bool) (w : @World Node Path) :
  StateOnly reaction →
  let keeps (w' : @World Node Path) :=
    sameScan (H := pageHost) (dom w) (dom w')
    ∧ ∀ e, getCalendarName (Host := pageHost) (dom w') e
           = getCalendarName (Host := pageHost) (dom w) e in
  keeps (toggleCalendarVisibility (H := pageHost) c v w)
  ∧ keeps (forceCalendarState (H := pageHost) c v w)
  ∧ keeps (verifyToggle (H := pageHost) (c, v) w).
Proof.
  intros Hr keeps.
  assert (Hkeeps : ∀ w', sameButState (dom w) (dom w') → keeps w').
  { intros w' Hsame. split; [by apply sameButState_sameScan |].
    intros e. destruct (sameButState_element _ _ e Hsame) as (_ & Hname & _).
    cbn [getCalendarName Page.host]. by rewrite Hname. }
  split; [| split]; apply Hkeeps.
  - by apply toggleCalendarVisibility_sameButState.
  - by apply forceCalendarState_sameButState.
  - unfold verifyToggle. case_bool_decide; [| apply sameButState_refl].
    by apply forceCalendarState_sameButState.
Qed.

End StateOnlyPages.

(** ** What the scan returns *)

Section Shape.
Import Html.

Lemma removelast_prefix {A} (l : list A) : removelast l `prefix_of` l.
Proof.
  induction l as [| x l IH]; [done |]. cbn [removelast].
  destruct l as [| y l]; [apply prefix_nil |]. by apply prefix_cons.
Qed.

Lemma parentElement_prefix (e p : Path) : parentElement e = Some p → p `prefix_of` e.
Proof.
  destruct e as [| i e]; [done |]. intros Hp.
  replace p with (removelast (i :: e)) by (unfold parentElement in Hp; congruence).
  apply removelast_prefix.
Qed.

Lemma parentOf_prefix (x : option Path) (e p : Path) :
  (∀ y, x = Some y → y `prefix_of` e) → CalendarDOM.parentOf x = Some p → p `prefix_of` e.
Proof.
  destruct x as [y |]; [| done]. cbn. intros Hy Hp.
  etrans; [by apply parentElement_prefix | by apply Hy].
Qed.

Lemma ancestorsOrSelf_go_prefix (n : nat) (e p : Path) :
  p ∈ ancestorsOrSelf_go n e → p `prefix_of` e.
Proof.
  revert e. induction n as [| n IH]; intros e; cbn [ancestorsOrSelf_go].
  - by intros ->%list_elem_of_singleton.
  - intros [-> | Hin]%elem_of_cons; [done |].
    destruct (parentElement e) as [parent |] eqn:Hp; [| by apply not_elem_of_nil in Hin].
    etrans; [by apply IH | by apply parentElement_prefix].
Qed.

Lemma head_filter_elem {A} (P : A → Prop) `{∀ x, Decision (P x)} (l : list A) (x : A) :
  head (filter P l) = Some x → x ∈ l ∧ P x.
Proof.
  intros Hx. assert (Hin : x ∈ filter P l).
  { destruct (filter P l) as [| y l']; [done |]. cbn in Hx. injection Hx as ->. left. }
  by apply list_elem_of_filter in Hin as [? ?].
Qed.

Lemma closest_prefix (d : Node) (e p : Path) (sel : Selector) :
  closest d e sel = Some p → p `prefix_of` e ∧ matchesAt d p sel = true.
Proof.
  unfold closest. intros [Hin Hm]%head_filter_elem. split; [| done].
  by apply ancestorsOrSelf_go_prefix in Hin.
Qed.

(** The container of a checkbox is the checkbox or one of its ancestors. *)
Lemma findCalendarContainer_prefix (d : Node) (checkbox x : Path) :
  CalendarDOM.findCalendarContainer d checkbox = Some x → x `prefix_of` checkbox.
Proof.
  unfold CalendarDOM.findCalendarContainer. cbv zeta.
  match goal with |- context [filter ?P (CalendarDOM.filterBoolean ?l)] =>
    set (suitable := P); set (candidates := l) end.
  assert (Hcand : ∀ c, Some c ∈ candidates → c `prefix_of` checkbox).
  { intros c Hc. unfold candidates in Hc.
    repeat (apply elem_of_cons in Hc as [Hc | Hc];
            [symmetry in Hc; try (by apply closest_prefix in Hc as [? _]) |]).
    - by apply parentElement_prefix.
    - apply (parentOf_prefix _ checkbox c) in Hc; [done |].
      intros y. apply parentElement_prefix.
    - apply (parentOf_prefix _ checkbox c) in Hc; [done |].
      intros y Hy. apply (parentOf_prefix _ checkbox y) in Hy; [done |].
      intros z. apply parentElement_prefix.
    - by apply not_elem_of_nil in Hc. }
  destruct (filter suitable (CalendarDOM.filterBoolean candidates)) as [| c l] eqn:Hf.
  - apply parentElement_prefix.
  - intros [= <-]. assert (Hin : c ∈ filter suitable (CalendarDOM.filterBoolean candidates))
      by (rewrite Hf; left).
    apply list_elem_of_filter in Hin as [_ Hin]. unfold CalendarDOM.filterBoolean in Hin.
    apply list_elem_of_omap in Hin as (oc & Hoc & Heq). cbn in Heq. subst oc. by apply Hcand.
Qed.


Lemma matches_alternative (alt : list Simple) (sel : Selector) (n : Node) :
  alt ∈ sel → matches [alt] n = true → matches sel n = true.
Proof.
  unfold matches. cbn [existsb]. rewrite orb_false_r. intros Hin Hm.
  apply existsb_exists. exists alt. split; [by apply list_elem_of_In | done].
Qed.

Lemma documentQuerySelectorAll_alternative (d : Node) (alt : list Simple) (sel : Selector)
    (q : Path) :
  alt ∈ sel → q ∈ documentQuerySelectorAll d [alt] → q ∈ documentQuerySelectorAll d sel.
Proof.
  intros Hin (n & Hn & Hel & Hm)%elem_of_documentQuerySelectorAll.
  apply elem_of_documentQuerySelectorAll. exists n. split; [done |]. split; [done |].
  by apply matches_alternative with alt.
Qed.

Lemma querySelectorAt_below (d : Node) (e q : Path) (sel : Selector) :
  querySelectorAt d e sel = Some q → e `prefix_of` q ∧ q ∈ documentQuerySelectorAll d sel.
Proof.
  intros Hq. split; [| by apply querySelectorAt_document with e].
  unfold querySelectorAt in Hq.
  assert (Hin : q ∈ querySelectorAllAt d e sel).
  { destruct (querySelectorAllAt d e sel) as [| x l]; [done |].
    cbn in Hq. injection Hq as ->. left. }
  apply elem_of_querySelectorAllAt in Hin as (m & r & n & _ & -> & _). by exists r.
Qed.

Lemma matches_checkbox_isElement (n : Node) :
  matches CalendarDOM.checkboxSelector n = true → isElement n = true.
Proof. destruct n; [by vm_compute | done]. Qed.

(** What [getCheckboxElement] returns is a checkbox of the document: the
    element itself, or an element below it, or an element below its
    parent. *)
Lemma getCheckboxElement_is_checkbox (d : Node) (e c : Path) :
  CalendarDOM.getCheckboxElement d e = Some c →
  c ∈ documentQuerySelectorAll d CalendarDOM.checkboxSelector
  ∧ (e `prefix_of` c ∨ ∃ parent, parentElement e = Some parent ∧ parent `prefix_of` c).
Proof.
  unfold CalendarDOM.getCheckboxElement.
  destruct (querySelectorAt d e [[ByAttrEq "role" "checkbox"]]) as [c1 |] eqn:H1.
  { intros [= <-]. apply querySelectorAt_below in H1 as [Hp Hin]. split; [| by left].
    apply documentQuerySelectorAll_alternative with [ByAttrEq "role" "checkbox"]; [| done].
    unfold CalendarDOM.checkboxSelector. set_solver. }
  destruct (querySelectorAt d e [[ByTag "input"; ByAttrEq "type" "checkbox"]]) as [c2 |] eqn:H2.
  { intros [= <-]. apply querySelectorAt_below in H2 as [Hp Hin]. split; [| by left].
    apply documentQuerySelectorAll_alternative
      with [ByTag "input"; ByAttrEq "type" "checkbox"]; [| done].
    unfold CalendarDOM.checkboxSelector. set_solver. }
  destruct (matchesAt d e CalendarDOM.checkboxSelector) eqn:Hself.
  { intros [= <-]. split; [| by left]. unfold matchesAt in Hself.
    destruct (nodeAt d e) as [n |] eqn:Hn; [| done].
    apply elem_of_documentQuerySelectorAll. exists n.
    split; [done |]. split; [by apply matches_checkbox_isElement | done]. }
  destruct (parentElement e) as [parent |] eqn:Hparent; [| done].
  intros [Hp Hin]%querySelectorAt_below. split; [done |]. right. by exists parent.
Qed.

Lemma isCalendarItem_nodeAt (d : Node) (e : Path) :
  CalendarDOM.isCalendarItem d e = true → is_Some (nodeAt d e).
Proof. unfold CalendarDOM.isCalendarItem. destruct (nodeAt d e); [by eexists | done]. Qed.


(** For an element [isCalendarItem] accepts, [getCheckboxElement] finds the
    checkbox in the element: the parent is not searched. *)
Lemma isCalendarItem_own_checkbox (d : Node) (e : Path) :
  CalendarDOM.isCalendarItem d e = true →
  ∃ c, CalendarDOM.getCheckboxElement d e = Some c ∧ e `prefix_of` c.
Proof.
  unfold CalendarDOM.isCalendarItem. destruct (nodeAt d e) as [el |] eqn:Hel; [| done].
  destruct (matches CalendarDOM.checkboxSelector el
            || bool_decide (is_Some (querySelector el CalendarDOM.checkboxSelector))) eqn:Hhas;
    [| done].
  intros _. unfold CalendarDOM.getCheckboxElement.
  destruct (querySelectorAt d e [[ByAttrEq "role" "checkbox"]]) as [c |] eqn:H1.
  { exists c. split; [done |]. by apply querySelectorAt_below in H1 as [? _]. }
  destruct (querySelectorAt d e [[ByTag "input"; ByAttrEq "type" "checkbox"]])
    as [c |] eqn:H2.
  { exists c. split; [done |]. by apply querySelectorAt_below in H2 as [? _]. }
  assert (Hself : matchesAt d e CalendarDOM.checkboxSelector = true).
  { unfold matchesAt. rewrite Hel.
    apply orb_true_iff in Hhas as [Hm | Hq]; [done |].
    apply bool_decide_eq_true in Hq. unfold querySelector, querySelectorAll in Hq.
    apply head_filter_is_Some in Hq as ([r n] & Hin & Hm). cbn [snd] in Hm.
    apply Is_true_true_1 in Hm. unfold matches, CalendarDOM.checkboxSelector in Hm.
    cbn [existsb] in Hm. rewrite orb_false_r in Hm.
    apply orb_true_iff in Hm as [Hinput | Hrole].
    - assert (Hsome : is_Some (querySelectorAt d e
                                 [[ByTag "input"; ByAttrEq "type" "checkbox"]])).
      { apply (querySelectorAt_is_Some _ _ el); [done |].
        apply head_filter_is_Some. exists (r, n). split; [done |].
        cbn [snd]. unfold matches. cbn [existsb]. by rewrite Hinput. }
      rewrite H2 in Hsome. by destruct Hsome.
    - assert (Hsome : is_Some (querySelectorAt d e [[ByAttrEq "role" "checkbox"]])).
      { apply (querySelectorAt_is_Some _ _ el); [done |].
        apply head_filter_is_Some. exists (r, n). split; [done |].
        cbn [snd]. unfold matches. cbn [existsb]. by rewrite Hrole. }
      rewrite H1 in Hsome. by destruct Hsome. }
  rewrite Hself. by exists e.
Qed.

Lemma existsb_false {A} (f : A → bool) (l : list A) (x : A) :
  existsb f l = false → x ∈ l → f x = false.
Proof.
  intros Hf Hx. destruct (f x) eqn:Hfx; [| done].
  assert (existsb f l = true); [| congruence].
  apply existsb_exists. exists x. split; [by apply list_elem_of_In | done].
Qed.

(** What [isCalendarItem] has checked of an element it accepts. *)
Lemma isCalendarItem_accepts (d : Node) (e : Path) :
  CalendarDOM.isCalendarItem d e = true →
  ∃ el, nodeAt d e = Some el
    ∧ (Js.truthy (Js.trim (textContent el)) = true
       ∨ Js.truthy (default "" (attribute el "aria-label")) = true
       ∨ Js.truthy (default "" (attribute el "title")) = true)
    ∧ ∀ item s, item ∈ CalendarDOM.systemItems →
        s ∈ [textContent el; default "" (attribute el "aria-label");
             default "" (attribute el "title")] →
        Js.trim (Js.toLowerCase s) ≠ item
        ∧ Js.wordBounded item (Js.trim (Js.toLowerCase s)) = false.
Proof.
  unfold CalendarDOM.isCalendarItem. destruct (nodeAt d e) as [el |] eqn:Hel; [| done].
  cbv zeta.
  destruct (negb _); [done |].
  set (text := textContent el).
  set (label := default "" (attribute el "aria-label")).
  set (title := default "" (attribute el "title")).
  destruct (negb (Js.truthy (Js.trim text)) && negb (Js.truthy label) && negb (Js.truthy title))
    eqn:Hblank; [done |].
  destruct (existsb _ CalendarDOM.systemItems) eqn:Hsys; [done |].
  intros _. exists el. split; [done |]. subst text label title. split.
  - destruct (Js.truthy (Js.trim (textContent el))); [by left |].
    destruct (Js.truthy (default "" (attribute el "aria-label"))); [by right; left |].
    destruct (Js.truthy (default "" (attribute el "title"))); [by right; right | done].
  - intros item s Hitem Hs. pose proof (existsb_false _ _ item Hsys Hitem) as Hf.
    cbv beta zeta in Hf.
    repeat (apply orb_false_iff in Hf as [Hf ?]).
    repeat match goal with H : bool_decide _ = false |- _ =>
      apply bool_decide_eq_false in H end.
    apply elem_of_cons in Hs as [-> | Hs]; [done |].
    apply elem_of_cons in Hs as [-> | Hs]; [done |].
    apply list_elem_of_singleton in Hs as ->. done.
Qed.

End Shape.

Section ShapeTheorems.
Import Html.

(** Every element the scan returns is the container of a checkbox of the
    document, holds that checkbox (it is the checkbox or an ancestor of it),
    and the checkbox [getCheckboxElement] gives for it lies in the element
    too. *)
Theorem scanned_calendar_holds_checkbox (snapshotOrder : list Path → list Path)
    (d : Node) (x : Path) :
  x ∈ CalendarDOM.getCalendarElements snapshotOrder d →
  (∃ checkbox, checkbox ∈ documentQuerySelectorAll d CalendarDOM.checkboxSelector
               ∧ CalendarDOM.findCalendarContainer d checkbox = Some x
               ∧ x `prefix_of` checkbox)
  ∧ ∃ c, CalendarDOM.getCheckboxElement d x = Some c
         ∧ x `prefix_of` c
         ∧ c ∈ documentQuerySelectorAll d CalendarDOM.checkboxSelector.
Proof.
  intros (checkbox & Hcb & Hcont & Hitem)%getCalendarElements_spec. split.
  - exists checkbox. split; [done |]. split; [done |]. by apply findCalendarContainer_prefix with d.
  - destruct (isCalendarItem_own_checkbox d x Hitem) as (c & Hc & Hp).
    exists c. split; [done |]. split; [done |].
    by apply getCheckboxElement_is_checkbox in Hc as [? _].
Qed.


End ShapeTheorems.

(** ** The wait for the page *)

Section WaitLemmas.
Import Html.
Local Open Scope Z_scope.

Lemma checkDOM_polls (hostname : string) (documentAt : Z → Node) (fuel : nat) (k : Z) :
  Js.includes "calendar.google.com" hostname = true →
  0 ≤ k ≤ 30 → 30 - k < Z.of_nat fuel →
  ∃ k', k ≤ k' ≤ 30
    ∧ checkDOM fuel hostname documentAt (k * checkInterval) = Some (k' * checkInterval)
    ∧ (∀ j, k ≤ j < k' → ¬ hasRoleCheckbox (documentAt (j * checkInterval)))
    ∧ (k' < 30 → hasRoleCheckbox (documentAt (k' * checkInterval))).
Proof.
  intros Hhost. revert k. induction fuel as [| fuel IH]; intros k Hk Hfuel; [lia |].
  cbn [checkDOM]. rewrite Hhost. cbn [negb]. cbv zeta. cbn [orb].
  destruct (bool_decide (0 < length _)%nat) eqn:Hhas.
  { exists k. split; [lia |]. split; [done |]. split; [intros j; lia |].
    intros _. by apply bool_decide_eq_true in Hhas. }
  apply bool_decide_eq_false in Hhas. cbn [orb].
  case_bool_decide as Hmax.
  { exists k. split; [lia |]. split; [done |]. split; [intros j; lia |].
    unfold maxWaitTime, checkInterval in Hmax. lia. }
  unfold maxWaitTime, checkInterval in Hmax.
  replace (k * checkInterval + checkInterval) with ((k + 1) * checkInterval)
    by (unfold checkInterval; lia).
  destruct (IH (k + 1)) as (k' & Hk' & -> & Hnone & Hsome); [lia | lia |].
  exists k'. split; [lia |]. split; [done |]. split; [| done].
  intros j Hj. destruct (decide (j = k)) as [-> | Hne]; [done |]. apply Hnone. lia.
Qed.

(** [waitForCalendarDOM] always resolves.  Off the calendar host it resolves
    at once; on it, at the first poll that finds an element with
    [role="checkbox"], and after 30 waits of 500 ms at the latest.  Nothing
    else counts: neither [input] checkboxes nor the calendars a scan would
    find. *)
Theorem waitForCalendarDOM_resolves (hostname : string) (documentAt : Z → Node) :
  ∃ k, 0 ≤ k ≤ 30
    ∧ waitForCalendarDOM hostname documentAt = Some (k * checkInterval)
    ∧ if Js.includes "calendar.google.com" hostname
      then (∀ j, 0 ≤ j < k → ¬ hasRoleCheckbox (documentAt (j * checkInterval)))
           ∧ (k < 30 → hasRoleCheckbox (documentAt (k * checkInterval)))
      else k = 0.
Proof.
  unfold waitForCalendarDOM.
  destruct (Js.includes "calendar.google.com" hostname) eqn:Hhost.
  - destruct (checkDOM_polls hostname documentAt 31 0 Hhost) as (k & Hk & Hres & Hnone & Hsome);
      [lia | lia |].
    exists k. split; [lia |]. split; [done |]. done.
  - exists 0. split; [lia |]. cbn [checkDOM]. rewrite Hhost. done.
Qed.

End WaitLemmas.

(** ** The popup and the manager *)

Section PopupSession.
Context {Dom Elt : Type} `{Host Dom Elt}.

Lemma handleToggleGroup_answers (stored : option (gmap string Group)) (groupId : string)
    (st : Manager * @World Dom Elt) :
  let r := handleToggleGroup stored groupId st in
  (r.1 = ToggleSuccess (currentActiveGroup r.2.1))
  ∨ (∃ message, r.1 = Error message ∧ message ≠ ""
                ∧ currentActiveGroup r.2.1 = currentActiveGroup st.1).
Proof.
  destruct st as [m w]. unfold handleToggleGroup, toggleGroup. cbv zeta.
  destruct (getProperty (default ∅ stored) groupId) as [group | |].
  - case_bool_decide; [by left |]. cbn [calendarsOf showCalendarsOf]. by left.
  - case_bool_decide; [by left |]. cbn [calendarsOf showCalendarsOf].
    destruct (getCalendarElements (dom (hideAllCalendars w))); [by left |].
    right. by eexists.
  - right. by eexists.
Qed.

Lemma popupStep_InSync (state : Field * (Manager * @World Dom Elt)) (action : PopupAction) :
  InSync state → InSync (popupStep state action).
Proof.
  destruct state as [popup st]. unfold InSync. cbn [fst snd]. intros ->.
  destruct action as [stored groupId |]; cbn [popupStep].
  - pose proof (handleToggleGroup_answers stored groupId st) as Hr. cbv zeta in Hr.
    destruct (handleToggleGroup stored groupId st) as [response st'].
    cbn [fst snd] in *.
    destruct Hr as [-> | (message & -> & Hne & Hactive)].
    + cbn. by destruct (currentActiveGroup st'.1).
    + unfold handleGroupClick, errorOf.
      rewrite (proj2 (truthy_nonempty message)) by done. by rewrite Hactive.
  - by destruct st.
Qed.

(** The popup and the content script agree on the active group.  If they
    agree before a series of requests (clicks on groups, clicks on the show
    all button), each delivered and answered, they agree after it; and
    whatever the popup showed before, they agree after a show-all request
    and after a group request answered with a success. *)
Theorem popup_in_sync (state : Field * (Manager * @World Dom Elt))
    (actions : list PopupAction) :
  (InSync state → InSync (foldl popupStep state actions))
  ∧ InSync (popupStep state ClickShowAll)
  ∧ ∀ stored groupId activeGroup,
      (handleToggleGroup stored groupId state.2).1 = ToggleSuccess activeGroup →
      InSync (popupStep state (ClickGroup stored groupId)).
Proof.
  split; [| split].
  - revert state. induction actions as [| action actions IH]; intros state Hsync; [done |].
    cbn [foldl]. by apply IH, popupStep_InSync.
  - destruct state as [popup [m w]]. done.
  - intros stored groupId activeGroup Hanswer. destruct state as [popup st].
    cbn [snd] in Hanswer. unfold InSync. cbn [popupStep].
    pose proof (handleToggleGroup_answers stored groupId st) as Hr. cbv zeta in Hr.
    destruct (handleToggleGroup stored groupId st) as [response st'].
    cbn [fst snd] in *. subst response.
    destruct Hr as [[= ->] | (message & [=] & _)].
    cbn. by destruct (currentActiveGroup st'.1).
Qed.

End PopupSession.

(** ** The options page and the content script *)

Section OptionsLemmas.
Import Options.

Lemma generateGroupId_shape (now : Z) (random : string) :
  ∃ rest, generateGroupId now random = String "g" rest.
Proof. unfold generateGroupId. by eexists. Qed.

Lemma generateGroupId_own (now : Z) (random : string) :
  generateGroupId now random ≠ "" ∧ generateGroupId now random ∉ objectPrototypeKeys.
Proof.
  destruct (generateGroupId_shape now random) as [rest ->]. split; [done |].
  unfold objectPrototypeKeys. intros Hin.
  repeat (apply elem_of_cons in Hin as [Hin | Hin]; [discriminate Hin |]).
  by apply not_elem_of_nil in Hin.
Qed.

Lemma editing_truthy (o : OptionsManager) (groupId : string) :
  editing o = Some groupId → currentEditingGroupId o = Some groupId ∧ groupId ≠ "".
Proof.
  unfold editing. destruct (currentEditingGroupId o) as [g |]; [| done].
  destruct (Js.truthy g) eqn:Hg; [| done]. intros [= ->].
  split; [done |]. by apply truthy_nonempty.
Qed.

Lemma validateForm_valid (o : OptionsManager) (form : Form) :
  validateForm o form = true →
  Trimmed (Js.trim (groupNameValue form))
  ∧ String.length (Js.trim (groupNameValue form)) ≤ 50
  ∧ (Js.toLowerCase (Js.trim (groupNameValue form)) ∉ existingNames o)
  ∧ selectedCalendarIds form ≠ [].
Proof.
  unfold validateForm, nameError. cbv zeta.
  intros [Hname Hsel]%andb_true_iff. apply bool_decide_eq_true in Hname.
  apply negb_true_iff, bool_decide_eq_false in Hsel.
  destruct (Js.truthy (Js.trim (groupNameValue form))) eqn:Htruthy; [| done].
  cbn [negb] in Hname. case_bool_decide as Hlen; [done |].
  case_bool_decide as Htaken; [done |].
  split; [by apply Trimmed_trim |]. split; [lia |]. split; [done |].
  by destruct (selectedCalendarIds form).
Qed.

Lemma elem_of_existingNames (o : OptionsManager) (groupId : string) (g : GroupData) :
  groups o !! groupId = Some g → Some groupId ≠ currentEditingGroupId o →
  Js.toLowerCase (name g) ∈ existingNames o.
Proof.
  intros Hg Hne. unfold existingNames. apply list_elem_of_fmap.
  exists (groupId, g). split; [done |]. apply list_elem_of_filter. split; [done |].
  by apply elem_of_map_to_list.
Qed.

Lemma WellFormed_insert (o : OptionsManager) (groupId : string) (g : GroupData) :
  WellFormed (groups o) → groupId ≠ "" →
  Trimmed (name g) → String.length (name g) ≤ 50 → calendars g ≠ [] →
  (∀ id' g', id' ≠ groupId → groups o !! id' = Some g' →
     Js.toLowerCase (name g') ≠ Js.toLowerCase (name g)) →
  WellFormed (<[groupId := g]> (groups o)).
Proof.
  intros (Hempty & Hall & Huniq) Hid Hname Hlen Hsel Hfresh. split; [| split].
  - by rewrite lookup_insert_ne.
  - intros id' g'. destruct (decide (id' = groupId)) as [-> | Hne].
    + rewrite lookup_insert_eq. by intros [= <-].
    + rewrite lookup_insert_ne by done. apply Hall.
  - intros id1 id2 g1 g2.
    destruct (decide (id1 = groupId)) as [-> | Hne1];
      destruct (decide (id2 = groupId)) as [-> | Hne2];
      rewrite ?lookup_insert_eq, ?lookup_insert_ne by done; try done.
    + intros [= <-] H2 Heq. by destruct (Hfresh id2 g2).
    + intros H1 [= <-] Heq. by destruct (Hfresh id1 g1).
    + apply Huniq.
Qed.

Lemma WellFormed_delete (groupId : string) (groups : gmap string GroupData) :
  WellFormed groups → WellFormed (delete groupId groups).
Proof.
  intros (Hempty & Hall & Huniq). split; [| split].
  - apply lookup_delete_None. by right.
  - intros id' g' [_ Hg]%lookup_delete_Some. by apply Hall with id'.
  - intros id1 id2 g1 g2 [_ H1]%lookup_delete_Some [_ H2]%lookup_delete_Some.
    by apply Huniq.
Qed.

End OptionsLemmas.

Section OptionsTheorems.
Import Options.



(** The content script rejects what the options page deleted: after the
    deletion of a group whose id is no property name of [Object.prototype]
    (no generated id is one), a [toggleGroup] request for it is answered
    [Group not found] and changes nothing; the other groups are as they
    were. *)
Theorem deleted_group_is_rejected {Dom Elt : Type} `{Host Dom Elt}
    (o : OptionsManager) (groupId : string) :
  editing o = Some groupId →
  (handleDeleteGroup o).2 = Some (delete groupId (groups o))
  ∧ (groupId ∉ objectPrototypeKeys →
     ∀ st : Manager * @World Dom Elt,
       handleToggleGroup (Some (contentView (delete groupId (groups o)))) groupId st
       = (Error "Group not found", st))
  ∧ (∀ other, other ≠ groupId → delete groupId (groups o) !! other = groups o !! other)
  ∧ ∀ now random, generateGroupId now random ∉ objectPrototypeKeys.
Proof.
  intros Hediting. split; [| split; [| split]].
  - unfold handleDeleteGroup. by rewrite Hediting.
  - intros Hown st. unfold handleToggleGroup, toggleGroup, getProperty, contentView.
    cbn [default]. unfold id. rewrite lookup_fmap, lookup_delete_eq. cbn.
    by rewrite bool_decide_false.
  - intros other Hother. by rewrite lookup_delete_ne.
  - intros now random. apply generateGroupId_own.
Qed.

End OptionsTheorems.

(** ** Retries and scroll positions *)

Section SendLemmas.
Context {R : Type}.
Local Open Scope Z_scope.

Lemma attemptsFrom_spec (outcome : nat → Outcome R) (remaining attempt : nat) :
  (1 ≤ attempt)%nat → (attempt + remaining = 6)%nat → (0 < remaining)%nat →
  let r := attemptsFrom remaining attempt outcome in
  ∃ last : nat,
    (attempt ≤ last ≤ 5)%nat
    ∧ result r = Some (outcome last)
    ∧ (∀ j, (attempt ≤ j < last)%nat → ∃ message, outcome j = Rejected message)
    ∧ ((last < 5)%nat → ∃ response, outcome last = Resolved response)
    ∧ sends r = (last - attempt + 1)%nat
    ∧ waited r = retryDelay * Z.of_nat (last - attempt)
    ∧ reinjected r = filter (λ j, lostAt outcome j = true) (seq attempt (last - attempt)).
Proof.
  revert attempt. induction remaining as [| remaining IH]; intros attempt H1 Hsum Hpos; [lia |].
  cbn [attemptsFrom]. destruct (outcome attempt) as [response | message] eqn:Hout.
  { exists attempt. cbn. rewrite Hout, Nat.sub_diag. repeat split; try done; try lia.
    - by eexists. }
  case_bool_decide as Hmax.
  { unfold maxRetries in Hmax. exists attempt. cbn. rewrite Hout, Nat.sub_diag.
    repeat split; try done; lia. }
  unfold maxRetries in Hmax.
  destruct (IH (S attempt)) as (last & Hlast & Hres & Hrej & Hok & Hsends & Hwait & Hinj);
    [lia | lia | lia |].
  exists last. cbn [result sends waited reinjected].
  split; [lia |]. split; [done |]. split.
  { intros j Hj. destruct (decide (j = attempt)) as [-> | Hne]; [by eexists |].
    apply Hrej. lia. }
  split; [done |]. split; [lia |]. split.
  { rewrite Hwait. unfold retryDelay. lia. }
  rewrite Hinj. replace (last - attempt)%nat with (S (last - S attempt)) by lia.
  assert (lostAt outcome attempt = connectionLost message) as Hlost
    by (unfold lostAt; by rewrite Hout).
  cbn [seq]. rewrite filter_cons, Hlost.
  by destruct (connectionLost message).
Qed.

(** [sendMessageToContent] sends at most five messages and always ends with
    the outcome of the last one it sent: the first response, or the fifth
    failure.  It waits one second after each failure but the last, and
    injects the content script again after those that lost the
    connection. *)
Theorem sendMessageToContent_retries (outcome : nat → Outcome R) :
  let r := sendMessageToContent outcome in
  ∃ last : nat,
    (1 ≤ last ≤ 5)%nat
    ∧ result r = Some (outcome last)
    ∧ (∀ j, (1 ≤ j < last)%nat → ∃ message, outcome j = Rejected message)
    ∧ ((last < 5)%nat → ∃ response, outcome last = Resolved response)
    ∧ sends r = last
    ∧ waited r = retryDelay * (Z.of_nat last - 1)
    ∧ reinjected r = filter (λ j, lostAt outcome j = true) (seq 1 (last - 1)).
Proof.
  intros r.
  destruct (attemptsFrom_spec outcome maxRetries 1)
    as (last & Hlast & Hres & Hrej & Hok & Hsends & Hwait & Hinj);
    [lia | done | unfold maxRetries; lia |].
  exists last. unfold r, sendMessageToContent.
  split; [done |]. split; [done |]. split; [done |]. split; [done |].
  split; [lia |]. split; [| done].
  rewrite Hwait. unfold retryDelay. lia.
Qed.

End SendLemmas.

Section ScrollLemmas.
Local Open Scope Z_scope.

Lemma scrollDown_closed (fuel : nat) (k scrollHeight : Z) :
  0 ≤ k → scrollHeight - scrollStep * k < Z.of_nat fuel →
  k ≤ scrollHeight / scrollStep + 1 →
  scrollDown fuel (scrollStep * k) scrollHeight
  = (λ j, scrollStep * j) <$> seqZ k (scrollHeight / scrollStep + 1 - k).
Proof.
  unfold scrollStep.
  revert k. induction fuel as [| fuel IH]; intros k Hk Hfuel Hle.
  { assert (scrollHeight / 50 + 1 - k ≤ 0) by (pose proof (Z.mul_div_le scrollHeight 50); lia).
    by rewrite seqZ_nil. }
  cbn [scrollDown]. unfold scrollStep. case_bool_decide as Hpos.
  - rewrite seqZ_cons by (pose proof (Z.div_le_lower_bound scrollHeight 50 k); lia).
    cbn [fmap list_fmap]. f_equal.
    replace (50 * k + 50) with (50 * (k + 1)) by lia.
    rewrite IH; [| lia | lia |].
    + f_equal. f_equal; lia.
    + pose proof (Z.div_le_lower_bound scrollHeight 50 k). lia.
  - assert (scrollHeight / 50 < k).
    { apply Z.div_lt_upper_bound; lia. }
    rewrite seqZ_nil by lia. done.
Qed.

Lemma scrollUp_closed (fuel : nat) (k scrollHeight : Z) :
  0 ≤ k → scrollHeight - scrollStep * k < Z.of_nat fuel →
  k ≤ scrollHeight / scrollStep + 1 →
  scrollUp fuel (scrollHeight - scrollStep * k)
  = (λ j, scrollHeight - scrollStep * j) <$> seqZ k (scrollHeight / scrollStep + 1 - k).
Proof.
  unfold scrollStep.
  revert k. induction fuel as [| fuel IH]; intros k Hk Hfuel Hle.
  { assert (scrollHeight / 50 + 1 - k ≤ 0) by (pose proof (Z.mul_div_le scrollHeight 50); lia).
    by rewrite seqZ_nil. }
  cbn [scrollUp]. unfold scrollStep. case_bool_decide as Hpos.
  - rewrite seqZ_cons by (pose proof (Z.div_le_lower_bound scrollHeight 50 k); lia).
    cbn [fmap list_fmap]. f_equal.
    replace (scrollHeight - 50 * k - 50) with (scrollHeight - 50 * (k + 1)) by lia.
    rewrite IH; [| lia | lia |].
    + f_equal. f_equal; lia.
    + pose proof (Z.div_le_lower_bound scrollHeight 50 k). lia.
  - assert (scrollHeight / 50 < k).
    { apply Z.div_lt_upper_bound; lia. }
    rewrite seqZ_nil by lia. done.
Qed.

(** [rapidScrollThrough] sets [scrollTop] to 0, 50, 100, ... up to the
    scroll height and then to the scroll height, the scroll height less 50,
    ... down to its remainder by 50: twice [scrollHeight / 50 + 1]
    assignments, all within the scroll range, the last one at the top only
    when the scroll height is a multiple of 50. *)
Theorem rapidScrollThrough_positions (scrollHeight : Z) :
  0 ≤ scrollHeight →
  let steps := scrollHeight / scrollStep + 1 in
  rapidScrollThrough scrollHeight
  = ((λ j, scrollStep * j) <$> seqZ 0 steps)
    ++ ((λ j, scrollHeight - scrollStep * j) <$> seqZ 0 steps)
  ∧ Z.of_nat (length (rapidScrollThrough scrollHeight)) = 2 * steps
  ∧ (∀ pos, pos ∈ rapidScrollThrough scrollHeight → 0 ≤ pos ≤ scrollHeight)
  ∧ last (rapidScrollThrough scrollHeight) = Some (scrollHeight `mod` scrollStep).
Proof.
  intros Hh steps.
  assert (Hsteps : 0 < steps) by (unfold steps, scrollStep; pose proof (Z.div_pos scrollHeight 50); lia).
  assert (Heq : rapidScrollThrough scrollHeight
                = ((λ j, scrollStep * j) <$> seqZ 0 steps)
                  ++ ((λ j, scrollHeight - scrollStep * j) <$> seqZ 0 steps)).
  { unfold rapidScrollThrough. cbv zeta.
    pose proof (scrollDown_closed (Z.to_nat (scrollHeight + 1)) 0 scrollHeight) as Hd.
    pose proof (scrollUp_closed (Z.to_nat (scrollHeight + 1)) 0 scrollHeight) as Hu.
    unfold scrollStep in *. rewrite Z.mul_0_r, Z.sub_0_r in Hd, Hu.
    rewrite Hd, Hu by lia. unfold steps. by rewrite Z.sub_0_r. }
  split; [done |]. rewrite Heq. split; [| split].
  - rewrite length_app, !length_fmap, !length_seqZ. lia.
  - intros pos [Hin | Hin]%elem_of_app;
      apply list_elem_of_fmap in Hin as (j & -> & Hj); apply elem_of_seqZ in Hj;
      unfold steps, scrollStep in *; pose proof (Z.mul_div_le scrollHeight 50); nia.
  - rewrite last_app.
    assert (Hlast : last ((λ j, scrollHeight - scrollStep * j) <$> seqZ 0 steps)
                    = Some (scrollHeight `mod` scrollStep)).
    { rewrite fmap_last. replace steps with ((steps - 1) + 1) by lia.
      rewrite seqZ_app by lia. rewrite last_app.
      change (seqZ (0 + (steps - 1)) 1) with [0 + (steps - 1)]. cbn [last fmap option_fmap option_map].
      unfold steps, scrollStep. f_equal. rewrite Z.mod_eq by lia. lia. }
    by rewrite Hlast.
Qed.

End ScrollLemmas.

(** ** The further properties at work *)

Section ClickExamples.
Import Sidebar.

Lemma hideAllCalendars_exact_witness :
  let w := hideAllCalendars (H := clickHost) (page threeRows) in
  omap (hideClick (H := clickHost) threeRows) [0; 1; 2] = [0; 2]
  ∧ log w = [IClick 0; IClick 2]
  ∧ timers w = [(0, false); (2, false)]
  ∧ hideAllCalendars (H := clickHost) w = w.
Proof.
  intros w. split; [vm_compute; reflexivity |].
  apply (hideAllCalendars_exact (H := clickHost) (page threeRows)
           (sidebar_converges ["click"] ltac:(set_solver))).
  apply (bool_decide_unpack _). vm_compute. exact I.
Defined.

(** Group g1 on the page with A and C visible: A and C are clicked off,
    then A and B are clicked on. *)
Lemma activation_clicks_witness :
  let w' := (toggleGroup (H := clickHost) (Some groups) "g1" (newManager, page threeRows)).2.2 in
  log w' = [IClick 0; IClick 2; IClick 0; IClick 1]
  ∧ timers w' = [(0, false); (2, false); (0, true); (1, true)].
Proof.
  apply (activation_clicks (H := clickHost) (Some groups) "g1"
           {| groupName := "Morning"; calendars := ["A"; "B"] |}
           newManager (page threeRows)
           (sidebar_converges ["click"] ltac:(set_solver))).
  - apply (bool_decide_unpack _). vm_compute. exact I.
  - vm_compute. reflexivity.
  - discriminate.
Defined.

End ClickExamples.

Section DocumentExamples.
Import Html.

(** The sample sidebar and the same sidebar after a click on the first
    checkbox. *)
Lemma identity_ignores_state_witness :
  let d' := Page.widgets (IClick [1; 0; 0; 0; 0]) Page.sidebar in
  d' ≠ Page.sidebar
  ∧ CalendarDOM.getCalendarElements (λ l, l) Page.sidebar
    = CalendarDOM.getCalendarElements (λ l, l) d'
  ∧ ∀ e, CalendarDOM.getCalendarId Page.sidebar e = CalendarDOM.getCalendarId d' e
         ∧ CalendarDOM.getCalendarName Page.sidebar e = CalendarDOM.getCalendarName d' e
         ∧ CalendarDOM.getCheckboxElement Page.sidebar e
           = CalendarDOM.getCheckboxElement d' e.
Proof.
  intros d'. split; [by vm_compute |].
  apply (identity_ignores_state (λ l, l) Page.sidebar d'). by vm_compute.
Defined.

Lemma toggles_keep_identity_witness :
  let w := Page.atRest Page.sidebar in
  let c := [1; 0; 0; 0; 0] in
  let keeps (w' : @World Node Path) :=
    sameScan (H := Page.widgetHost) (dom w) (dom w')
    ∧ ∀ e, getCalendarName (Host := Page.widgetHost) (dom w') e
           = getCalendarName (Host := Page.widgetHost) (dom w) e in
  dom (toggleCalendarVisibility (H := Page.widgetHost) c false w) ≠ dom w
  ∧ keeps (toggleCalendarVisibility (H := Page.widgetHost) c false w)
  ∧ keeps (forceCalendarState (H := Page.widgetHost) c false w)
  ∧ keeps (verifyToggle (H := Page.widgetHost) (c, false) w).
Proof.
  intros w c keeps. split; [by vm_compute |].
  apply (toggles_keep_identity (λ l, l) Page.widgets c false w widgets_StateOnly).
Defined.

Lemma scanned_calendar_holds_checkbox_witness :
  let x := [1; 0; 0; 0] in
  x ∈ CalendarDOM.getCalendarElements (λ l, l) Page.sidebar
  ∧ (∃ checkbox, checkbox ∈ documentQuerySelectorAll Page.sidebar CalendarDOM.checkboxSelector
                 ∧ CalendarDOM.findCalendarContainer Page.sidebar checkbox = Some x
                 ∧ x `prefix_of` checkbox)
  ∧ ∃ c, CalendarDOM.getCheckboxElement Page.sidebar x = Some c
         ∧ x `prefix_of` c
         ∧ c ∈ documentQuerySelectorAll Page.sidebar CalendarDOM.checkboxSelector.
Proof.
  intros x.
  assert (Hx : x ∈ CalendarDOM.getCalendarElements (λ l, l) Page.sidebar)
    by (vm_compute; left).
  split; [done |]. by apply (scanned_calendar_holds_checkbox (λ l, l) Page.sidebar x).
Defined.


(** The two calendars called Work of the sample sidebar have the same
    generated id, and the same position under their parents. *)
Lemma generated_id_fixes_position_witness :
  let e1 := [1; 0; 0; 0] in
  let e2 := [1; 1; 0; 0] in
  CalendarDOM.generatedId Page.sidebar e1 = "cal_work_work_0"
  ∧ elementIndex Page.sidebar e1 = elementIndex Page.sidebar e2
  ∧ ∀ p i j c1 c2,
      e1 = p ++ [i] → e2 = p ++ [j] →
      nodeAt Page.sidebar e1 = Some c1 → isElement c1 = true →
      nodeAt Page.sidebar e2 = Some c2 → isElement c2 = true →
      e1 = e2.
Proof.
  intros e1 e2. split; [by vm_compute |].
  apply (generated_id_fixes_position Page.sidebar e1 e2). by vm_compute.
Defined.

End DocumentExamples.

Section OptionsExamples.
Import Options.

Local Abbreviation stored :=
  ({[ "group_1_a" := {| name := "Morning"; calendars := ["A"; "B"];
                        createdAt := Some 1%Z; updatedAt := Some 1%Z |} ]}
   : gmap string GroupData).

Local Abbreviation fresh := {| groups := stored; currentEditingGroupId := None |}.
Local Abbreviation editingIt :=
  {| groups := stored; currentEditingGroupId := Some "group_1_a" |}.
Local Abbreviation evening :=
  {| groupNameValue := "  Evening "; selectedCalendarIds := ["C"] |}.
Local Abbreviation now :=
  {| createdNow := 2%Z; updatedNow := 3%Z; idNow := 4%Z; randomDigits := "k3j9x0q1z" |}.

Lemma stored_well_formed : WellFormed stored.
Proof.
  split; [done |]. split.
  - intros groupId g [<- <-]%lookup_singleton_Some.
    split; [split; [done | by vm_compute] | split; [cbn; lia | done]].
  - intros id1 id2 g1 g2 [<- _]%lookup_singleton_Some [<- _]%lookup_singleton_Some _. done.
Qed.



Lemma deleted_group_is_rejected_witness :
  (handleDeleteGroup editingIt).2 = Some ∅
  ∧ handleToggleGroup (H := Sidebar.clickHost) (Some (contentView ∅)) "group_1_a"
      (newManager, Sidebar.page Sidebar.threeRows)
    = (Error "Group not found", (newManager, Sidebar.page Sidebar.threeRows)).
Proof.
  destruct (deleted_group_is_rejected (H := Sidebar.clickHost) editingIt "group_1_a" eq_refl)
    as (Hdel & Hreject & _).
  split.
  - rewrite Hdel. by vm_compute.
  - assert (Hempty : delete "group_1_a" stored = ∅) by (by vm_compute).
    rewrite <- Hempty. apply Hreject.
    apply (bool_decide_unpack _). by vm_compute.
Defined.

End OptionsExamples.

Section WaitExamples.
Import Html.

(** A calendar page whose checkboxes are all [input] elements: the wait
    runs to its end. *)
Example wait_ignores_input_checkboxes :
  let document :=
    Element "html" [] None
      [Element "body" [] None
         [Element "li" [] None
            [Element "input" [("type", "checkbox")] (Some true) [];
             Element "span" [] None [Text "Work"]]]] in
  CalendarDOM.getCalendarElements (λ l, l) document = [[0; 0]]
  ∧ waitForCalendarDOM "calendar.google.com" (λ _, document) = Some 15000%Z.
Proof. by vm_compute. Qed.

End WaitExamples.

Section ScrollExamples.
Local Open Scope Z_scope.

Lemma rapidScrollThrough_positions_witness :
  rapidScrollThrough 120 = [0; 50; 100; 120; 70; 20]
  ∧ Z.of_nat (length (rapidScrollThrough 120)) = 6
  ∧ (∀ pos, pos ∈ rapidScrollThrough 120 → 0 ≤ pos ≤ 120)
  ∧ last (rapidScrollThrough 120) = Some 20.
Proof.
  apply (rapidScrollThrough_positions 120). lia.
Defined.

End ScrollExamples.
